(** * Portview: ledger normalisation and monthly cashflow

    A shallow embedding of the report pipeline of the portview repository
    (src/report/fmsecLedgerCsv.js, fmsecLedgerPdf.js, monthlyCashflow.js,
    uploadedLedger.js, the report model of generateCashflowReport.js, the
    escaping of renderCashflowHtml.js, the date formatter, the cell escaping
    and the choice of the sheet of xlsxToCsv.js, and the path and file name
    helpers of app.js), followed by the properties proved about it.

    Conventions of the embedding:
    - a JavaScript string is its sequence of UTF-16 code units ([list N]);
      the case mapping of Unicode is the host's: [toUpperCase] maps the code
      points of the text one by one, [toLowerCase] the text as a whole (the
      lower case of a capital sigma depends on what surrounds it);
    - a JavaScript number is an IEEE-754 binary64 value ([float], the
      kernel's primitive floats, round to nearest even);
    - a [Date] is its time value in milliseconds since the epoch, or the
      invalid date; local time is UTC plus the offset the host's time zone
      has at that time, which may change from one time to another;
    - a cell, a field of a row and an option are values of [JSValue]; a row
      is an object, the list of its keys and values; [options.year] is an
      integer or [undefined];
    - what the platform and the libraries (SheetJS, date-fns) provide is
      either a field of [Host] or a definition that says so;
    - a thrown [Error] is the [Throw] case of [result], carrying the message;
    - regular expressions are terms of [regex], run by a backtracking
      matcher with the greedy semantics of ECMAScript. *)

From Stdlib Require Import String Ascii.
From Stdlib Require Import ZArith NArith List Bool Lia Sorted.
From Stdlib Require Import Floats.
Import ListNotations.

Set Implicit Arguments.
Set Warnings "-inexact-float".

(* ================================================================== *)
(** ** Strings *)

Definition jsstring := list N.

Fixpoint js (s : string) : jsstring :=
  match s with
  | EmptyString => []
  | String c r => N_of_ascii c :: js r
  end.
Arguments js s%_string.

Definition str_eqb (a b : jsstring) : bool :=
  if list_eq_dec N.eq_dec a b then true else false.

Definition inRange (lo hi c : N) : bool := (N.leb lo c && N.leb c hi)%bool.

(** WhiteSpace and LineTerminator of ECMAScript: what [trim] strips and what
    the class [\s] matches. *)
Definition isWhiteSpace (c : N) : bool :=
  (inRange 9 13 c || N.eqb c 32 || N.eqb c 160 || N.eqb c 5760
   || inRange 8192 8202 c || N.eqb c 8232 || N.eqb c 8233 || N.eqb c 8239
   || N.eqb c 8287 || N.eqb c 12288 || N.eqb c 65279)%bool.

Definition isDigit (c : N) : bool := inRange 48 57 c.
Definition isUpper (c : N) : bool := inRange 65 90 c.
Definition isLower (c : N) : bool := inRange 97 122 c.
Definition isWordChar (c : N) : bool :=
  (isDigit c || isUpper c || isLower c || N.eqb c 95)%bool.

(** The case mapping of the ASCII letters. *)
Definition upperChar (c : N) : N := if isLower c then (c - 32)%N else c.
Definition lowerChar (c : N) : N := if isUpper c then (c + 32)%N else c.

Definition isAscii (c : N) : bool := N.ltb c 128.

(** The code points of a text: a high surrogate followed by a low one is one
    code point, every other code unit stands for itself. *)
Definition isHighSurrogate (c : N) : bool := inRange 55296 56319 c.
Definition isLowSurrogate (c : N) : bool := inRange 56320 57343 c.

Fixpoint codePoints (s : jsstring) : list N :=
  match s with
  | [] => []
  | c :: r =>
      match r with
      | d :: r' =>
          if (isHighSurrogate c && isLowSurrogate d)%bool
          then (65536 + (c - 55296) * 1024 + (d - 56320))%N :: codePoints r'
          else c :: codePoints r
      | [] => [c]
      end
  end.

(** The code units of a code point. *)
Definition utf16 (cp : N) : jsstring :=
  if N.ltb cp 65536 then [cp]
  else [(55296 + (cp - 65536) / 1024)%N; (56320 + (cp - 65536) mod 1024)%N].

Fixpoint dropWhile (p : N -> bool) (s : jsstring) : jsstring :=
  match s with
  | [] => []
  | c :: r => if p c then dropWhile p r else s
  end.

Definition trimStart (s : jsstring) : jsstring := dropWhile isWhiteSpace s.
Definition trimEnd (s : jsstring) : jsstring := rev (dropWhile isWhiteSpace (rev s)).
Definition trim (s : jsstring) : jsstring := trimEnd (trimStart s).

Fixpoint startsWith (p s : jsstring) : bool :=
  match p, s with
  | [], _ => true
  | _ :: _, [] => false
  | a :: p', b :: s' => (N.eqb a b && startsWith p' s')%bool
  end.

Definition endsWith (p s : jsstring) : bool := startsWith (rev p) (rev s).

(** [s.indexOf(p)]: [None] stands for -1. *)
Fixpoint indexOfFrom (p s : jsstring) (i : nat) : option nat :=
  if startsWith p s then Some i
  else match s with
       | [] => None
       | _ :: r => indexOfFrom p r (S i)
       end.

Definition indexOf (p s : jsstring) : option nat := indexOfFrom p s 0.

Definition includes (p s : jsstring) : bool :=
  match indexOf p s with Some _ => true | None => false end.

(** [s.lastIndexOf(c)] for a one-unit needle. *)
Fixpoint lastIndexOfChar (c : N) (s : jsstring) (i : nat) (found : option nat) : option nat :=
  match s with
  | [] => found
  | d :: r => lastIndexOfChar c r (S i) (if N.eqb d c then Some i else found)
  end.

(** [s.slice(a, b)] and [s.slice(a)] for indices within [0, length]. *)
Definition slice (a b : nat) (s : jsstring) : jsstring := firstn (b - a) (skipn a s).
Definition sliceFrom (a : nat) (s : jsstring) : jsstring := skipn a s.

(** [s.split(/\r?\n/)]: a line feed ends a line, and a carriage return just
    before it belongs to the separator. *)
Fixpoint splitLinesAcc (acc : jsstring) (s : jsstring) : list jsstring :=
  match s with
  | [] => [rev acc]
  | c :: r =>
      if N.eqb c 10
      then rev (match acc with
                | d :: a => if N.eqb d 13 then a else acc
                | [] => acc
                end) :: splitLinesAcc [] r
      else splitLinesAcc (c :: acc) r
  end.

Definition splitLines (s : jsstring) : list jsstring := splitLinesAcc [] s.

Fixpoint join (sep : jsstring) (parts : list jsstring) : jsstring :=
  match parts with
  | [] => []
  | [p] => p
  | p :: rest => p ++ sep ++ join sep rest
  end.

(** Decimal text of a natural number: [String(n)] for an integer. *)
Fixpoint natDigits (fuel n : nat) (acc : jsstring) : jsstring :=
  match fuel with
  | O => acc
  | S f =>
      let acc' := (48 + N.of_nat (n mod 10))%N :: acc in
      if Nat.ltb n 10 then acc' else natDigits f (n / 10) acc'
  end.

Definition natToString (n : nat) : jsstring := natDigits (S n) n [].

Definition intToString (z : Z) : jsstring :=
  if (z <? 0)%Z then 45%N :: natToString (Z.to_nat (- z)) else natToString (Z.to_nat z).

(** [String(n).padStart(2, '0')]. *)
Definition padStart2 (s : jsstring) : jsstring :=
  match s with
  | [] => js "00"
  | [c] => [48%N; c]
  | _ => s
  end.

(* ================================================================== *)
(** ** Regular expressions *)

Inductive regex : Type :=
| Eps
| Cls (p : N -> bool)
| Cat (a b : regex)
| Alt (a b : regex)
| Rep (lo : nat) (hi : option nat) (a : regex)
| Grp (i : nat) (a : regex)
| Bos
| Eos
| Wb.

Record mstate : Type := MState {
  ms_prev : option N;
  ms_rest : jsstring;
  ms_pos : nat;
  ms_caps : list (nat * jsstring)
}.

Definition wordBefore (st : mstate) : bool :=
  match ms_prev st with Some c => isWordChar c | None => false end.
Definition wordAfter (st : mstate) : bool :=
  match ms_rest st with c :: _ => isWordChar c | [] => false end.

Definition decHi (hi : option nat) : option nat :=
  match hi with Some h => Some (pred h) | None => None end.

(** Greedy iteration: [lo] mandatory rounds, then optional rounds up to [hi],
    an optional round that consumes nothing being refused. *)
Fixpoint rep (step : mstate -> (mstate -> option mstate) -> option mstate)
    (fuel lo : nat) (hi : option nat) (st : mstate)
    (k : mstate -> option mstate) : option mstate :=
  match fuel with
  | O => None
  | S f =>
      match lo with
      | S lo' => step st (fun st' => rep step f lo' (decHi hi) st' k)
      | O =>
          match hi with
          | Some O => k st
          | _ =>
              match step st (fun st' =>
                       if Nat.eqb (ms_pos st') (ms_pos st) then None
                       else rep step f 0 (decHi hi) st' k) with
              | Some e => Some e
              | None => k st
              end
          end
      end
  end.

Fixpoint mtch (r : regex) (st : mstate) (k : mstate -> option mstate) : option mstate :=
  match r with
  | Eps => k st
  | Cls p =>
      match ms_rest st with
      | c :: t => if p c then k (MState (Some c) t (S (ms_pos st)) (ms_caps st)) else None
      | [] => None
      end
  | Cat a b => mtch a st (fun st' => mtch b st' k)
  | Alt a b =>
      match mtch a st k with
      | Some e => Some e
      | None => mtch b st k
      end
  | Rep lo hi a => rep (mtch a) (S (lo + List.length (ms_rest st))) lo hi st k
  | Grp i a =>
      mtch a st (fun st' =>
        k (MState (ms_prev st') (ms_rest st') (ms_pos st')
             ((i, firstn (ms_pos st' - ms_pos st) (ms_rest st)) :: ms_caps st')))
  | Bos => if Nat.eqb (ms_pos st) 0 then k st else None
  | Eos => match ms_rest st with [] => k st | _ => None end
  | Wb => if xorb (wordBefore st) (wordAfter st) then k st else None
  end.

Definition matchAt (r : regex) (st : mstate) : option mstate := mtch r st Some.

(** Leftmost match at or after the position of the state. *)
Fixpoint searchFrom (r : regex) (prev : option N) (pos : nat) (caps : list (nat * jsstring))
    (rest : jsstring) : option (mstate * mstate) :=
  let st := MState prev rest pos caps in
  match matchAt r st with
  | Some e => Some (st, e)
  | None =>
      match rest with
      | [] => None
      | c :: t => searchFrom r (Some c) (S pos) caps t
      end
  end.

Definition search (r : regex) (s : jsstring) : option (mstate * mstate) :=
  searchFrom r None 0 [] s.

(** [re.test(s)]. *)
Definition test (r : regex) (s : jsstring) : bool :=
  match search r s with Some _ => true | None => false end.

Definition matched (b e : mstate) : jsstring := firstn (ms_pos e - ms_pos b) (ms_rest b).

(** The capture of group [i] after a match; the most recent binding wins. *)
Fixpoint capture (i : nat) (caps : list (nat * jsstring)) : option jsstring :=
  match caps with
  | [] => None
  | (j, v) :: r => if Nat.eqb i j then Some v else capture i r
  end.

(** The loop [while ((m = re.exec(s)))] over a global expression: every match
    with its index, left to right, each search starting where the last match
    ended.  An empty match, which the expression of the money tokens never
    yields, would repeat forever in the source; here the search moves one
    unit on. *)
Fixpoint execAllFrom (r : regex) (fuel : nat) (prev : option N) (pos : nat) (rest : jsstring)
    : list (jsstring * nat) :=
  match fuel with
  | O => []
  | S f =>
      match searchFrom r prev pos [] rest with
      | None => []
      | Some (b, e) =>
          (matched b e, ms_pos b) ::
          (if Nat.eqb (ms_pos e) (ms_pos b)
           then match ms_rest e with
                | [] => []
                | c :: t => execAllFrom r f (Some c) (S (ms_pos e)) t
                end
           else execAllFrom r f (ms_prev e) (ms_pos e) (ms_rest e))
      end
  end.

Definition execAll (r : regex) (s : jsstring) : list (jsstring * nat) :=
  execAllFrom r (S (List.length s)) None 0 s.

(** [s.replace(re, by)] with the global flag. *)
Fixpoint replaceAllFrom (r : regex) (by_ : jsstring) (fuel : nat) (prev : option N) (pos : nat)
    (rest : jsstring) : jsstring :=
  match fuel with
  | O => rest
  | S f =>
      match searchFrom r prev pos [] rest with
      | None => rest
      | Some (b, e) =>
          firstn (ms_pos b - pos) rest ++ by_ ++
          (if Nat.eqb (ms_pos e) (ms_pos b)
           then match ms_rest e with
                | [] => []
                | c :: t => c :: replaceAllFrom r by_ f (Some c) (S (ms_pos e)) t
                end
           else replaceAllFrom r by_ f (ms_prev e) (ms_pos e) (ms_rest e))
      end
  end.

Definition replaceAll (r : regex) (by_ : jsstring) (s : jsstring) : jsstring :=
  replaceAllFrom r by_ (S (List.length s)) None 0 s.

(** [s.replace(re, by)] without the global flag: the first match only. *)
Definition replaceFirst (r : regex) (by_ : jsstring) (s : jsstring) : jsstring :=
  match search r s with
  | None => s
  | Some (b, e) => firstn (ms_pos b) s ++ by_ ++ ms_rest e
  end.

(** Building blocks of the expressions below. *)
Definition chr (c : N) : regex := Cls (N.eqb c).
Definition chrI (c : N) : regex := Cls (fun d => N.eqb (upperChar d) (upperChar c)).
Definition digit : regex := Cls isDigit.
Definition space : regex := Cls isWhiteSpace.
Definition nonSpace : regex := Cls (fun c => negb (isWhiteSpace c)).
Definition star (a : regex) : regex := Rep 0 None a.
Definition plus (a : regex) : regex := Rep 1 None a.
Definition opt (a : regex) : regex := Rep 0 (Some 1) a.
Definition times (n : nat) (a : regex) : regex := Rep n (Some n) a.

Fixpoint seq (rs : list regex) : regex :=
  match rs with
  | [] => Eps
  | [r] => r
  | r :: t => Cat r (seq t)
  end.

(** A literal, and a literal under the [i] flag. *)
Definition lit (s : jsstring) : regex := seq (map chr s).
Definition litI (s : jsstring) : regex := seq (map chrI s).

(* ================================================================== *)
(** ** Numbers *)

Open Scope float_scope.

Definition floatOfZ (z : Z) : float := SF2Prim (binary_normalize prec emax z 0 false).

(** [Math.floor] of a finite number, as an integer. *)
Definition floorZ (x : float) : Z :=
  match Prim2SF x with
  | S754_finite s m e =>
      let n := if s then Z.neg m else Z.pos m in
      if (0 <=? e)%Z then (n * 2 ^ e)%Z else (n / 2 ^ (- e))%Z
  | _ => 0%Z
  end.

(** The double nearest to [p / q] (ties to even), negated when [neg]; [0 < p]
    and [0 < q].  The quotient is taken with some seventy bits and a sticky
    bit, then rounded once. *)
Definition roundRatio (neg : bool) (p q : Z) : float :=
  let s := (Z.max 0 (Z.log2 q - Z.log2 p) + 70)%Z in
  let n := (p * 2 ^ s)%Z in
  let quo := (n / q)%Z in
  let sticky := if (n mod q =? 0)%Z then 0%Z else 1%Z in
  let m := (2 * quo + sticky)%Z in
  SF2Prim (binary_normalize prec emax (if neg then (- m)%Z else m) (- s - 1) neg).

Definition signedZero (neg : bool) : float := if neg then neg_zero else zero.
Definition signedInfinity (neg : bool) : float := if neg then neg_infinity else infinity.

Fixpoint spanDigits (s : jsstring) : jsstring * jsstring :=
  match s with
  | c :: r => if isDigit c then let (d, t) := spanDigits r in (c :: d, t) else ([], s)
  | [] => ([], [])
  end.

Definition digitsToZ (radix : Z) (val : N -> Z) (ds : jsstring) : Z :=
  fold_left (fun a c => (radix * a + val c)%Z) ds 0%Z.

Definition decVal (c : N) : Z := Z.of_N (c - 48).

(** The value of the digits [ip.fp] times ten to the [ex]. *)
Definition decimalValue (neg : bool) (ip fp : jsstring) (ex : Z) : float :=
  let m := digitsToZ 10 decVal (ip ++ fp) in
  let e := (ex - Z.of_nat (List.length fp))%Z in
  let n := Z.of_nat (List.length (ip ++ fp)) in
  if (m =? 0)%Z then signedZero neg
  else if (400 <? e)%Z then signedInfinity neg
  else if (e + n <? -400)%Z then signedZero neg
  else if (0 <=? e)%Z then roundRatio neg (m * 10 ^ e) 1
  else roundRatio neg m (10 ^ (- e)).

(** ExponentPart, or nothing. *)
Definition parseExponent (s : jsstring) : option Z :=
  match s with
  | [] => Some 0%Z
  | c :: r =>
      if (N.eqb c 101 || N.eqb c 69)%bool then
        let '(neg, r') :=
          match r with
          | d :: t => if N.eqb d 45 then (true, t) else if N.eqb d 43 then (false, t) else (false, r)
          | [] => (false, r)
          end in
        let (ds, rest) := spanDigits r' in
        match ds, rest with
        | _ :: _, [] =>
            let v := digitsToZ 10 decVal ds in Some (if neg then (- v)%Z else v)
        | _, _ => None
        end
      else None
  end.

(** StrUnsignedDecimalLiteral. *)
Definition parseUnsignedDecimal (neg : bool) (s : jsstring) : float :=
  if str_eqb s (js "Infinity") then signedInfinity neg
  else
    let (ip, r1) := spanDigits s in
    match r1 with
    | c :: r2 =>
        if N.eqb c 46 then
          let (fp, r3) := spanDigits r2 in
          match ip ++ fp with
          | [] => nan
          | _ => match parseExponent r3 with
                 | Some e => decimalValue neg ip fp e
                 | None => nan
                 end
          end
        else
          match ip with
          | [] => nan
          | _ => match parseExponent r1 with
                 | Some e => decimalValue neg ip [] e
                 | None => nan
                 end
          end
    | [] => match ip with [] => nan | _ => decimalValue neg ip [] 0 end
    end.

Definition hexVal (c : N) : option Z :=
  if isDigit c then Some (Z.of_N (c - 48))
  else if inRange 97 102 c then Some (Z.of_N (c - 87))
  else if inRange 65 70 c then Some (Z.of_N (c - 55))
  else None.

Definition radixLiteral (radix : Z) (ds : jsstring) : float :=
  match ds with
  | [] => nan
  | _ =>
      if forallb (fun c => match hexVal c with
                           | Some v => (v <? radix)%Z
                           | None => false
                           end) ds
      then floatOfZ (digitsToZ radix (fun c => match hexVal c with Some v => v | None => 0%Z end) ds)
      else nan
  end.

(** [Number(s)] for a string: StringToNumber of ECMAScript. *)
Definition StringToNumber (s : jsstring) : float :=
  match trim s with
  | [] => zero
  | c :: r =>
      if N.eqb c 45 then parseUnsignedDecimal true r
      else if N.eqb c 43 then parseUnsignedDecimal false r
      else
        match r with
        | x :: ds =>
            if N.eqb c 48 && (N.eqb x 120 || N.eqb x 88) then radixLiteral 16 ds
            else if N.eqb c 48 && (N.eqb x 111 || N.eqb x 79) then radixLiteral 8 ds
            else if N.eqb c 48 && (N.eqb x 98 || N.eqb x 66) then radixLiteral 2 ds
            else parseUnsignedDecimal false (c :: r)
        | [] => parseUnsignedDecimal false (c :: r)
        end
  end.

(** [!x] for a number: zero and NaN are falsy. *)
Definition numberTruthy (x : float) : bool := negb (is_zero x || is_nan x).

(* ================================================================== *)
(** ** Values, objects and the host *)

Inductive JSDate : Type :=
| InvalidDate
| DateAt (t : Z).

Inductive JSValue : Type :=
| JUndefined
| JNull
| JBool (b : bool)
| JNum (x : float)
| JStr (s : jsstring)
| JDate (d : JSDate).

(** An object literal used as a record: its own keys with their values. *)
Definition JSObject := list (jsstring * JSValue).

Fixpoint getProp (o : JSObject) (k : jsstring) : JSValue :=
  match o with
  | [] => JUndefined
  | (k', v) :: r => if str_eqb k' k then v else getProp r k
  end.

Fixpoint hasProp (o : JSObject) (k : jsstring) : bool :=
  match o with
  | [] => false
  | (k', _) :: r => (str_eqb k' k || hasProp r k)%bool
  end.

(** [o[k] = v]. *)
Fixpoint setProp (o : JSObject) (k : jsstring) (v : JSValue) : JSObject :=
  match o with
  | [] => [(k, v)]
  | (k', v') :: r => if str_eqb k' k then (k', v) :: r else (k', v') :: setProp r k v
  end.

Inductive result (A : Type) : Type :=
| Ok (a : A)
| Throw (msg : jsstring).
Arguments Ok {A} a.
Arguments Throw {A} msg.

(** What [XLSX.utils.sheet_to_json(ws, { header: 1, raw: true })] returns: the
    rows of the sheet, each the array of its raw cell values. *)
Definition worksheet := list (list JSValue).

Record workbook : Type := Workbook {
  SheetNames : list jsstring;
  Sheets : list (jsstring * worksheet)
}.

Definition msPerDay : Z := 86400000.

(** The platform and the libraries the report code calls into. *)
Class Host : Type := {
  (** LocalTZA(t, isUTC) of ECMAScript: local time minus UTC, in
      milliseconds, at the UTC time [t] when [isUTC] holds and at the local
      time [t] otherwise; less than a day either way.  A local time that the
      zone skipped or repeated is read with the offset before the
      transition, so that converting a local time to UTC and back never
      gives an earlier local time. *)
  LocalTZA : Z -> bool -> Z;
  LocalTZA_range : forall t isUTC, (Z.abs (LocalTZA t isUTC) < msPerDay)%Z;
  LocalTZA_forward :
    forall t, (LocalTZA t false <= LocalTZA (t - LocalTZA t false) true)%Z;
  (** the code units of the upper-case mapping of a code point: that of
      ASCII on ASCII; never a small ASCII letter; a capital S for the long s
      (U+017F) *)
  upperPoint : N -> jsstring;
  upperPoint_ascii : forall c, isAscii c = true -> upperPoint c = [upperChar c];
  upperPoint_no_lower :
    forall c, forallb (fun d => negb (isLower d)) (upperPoint c) = true;
  upperPoint_long_s : upperPoint 383 = [83%N];
  (** [s.toLowerCase()]: the mapping of ASCII on an ASCII text; never a
      capital ASCII letter; a full stop comes from a full stop only *)
  toLowerCase : jsstring -> jsstring;
  toLowerCase_ascii :
    forall s, forallb isAscii s = true -> toLowerCase s = map lowerChar s;
  toLowerCase_no_upper :
    forall s, forallb (fun d => negb (isUpper d)) (toLowerCase s) = true;
  toLowerCase_dot :
    forall s, existsb (N.eqb 46) (toLowerCase s) = existsb (N.eqb 46) s;
  (** [String(x)] for a finite non-zero number *)
  finiteToString : float -> jsstring;
  (** [String(d)] for a valid date with the given time value *)
  dateToString : Z -> jsstring;
  (** [buf.toString('utf8')] *)
  utf8ToString : list N -> jsstring;
  (** [XLSX.read(buf, { type: 'buffer' })] *)
  XLSX_read : list N -> result workbook
}.

Definition nullish (v d : JSValue) : JSValue :=
  match v with
  | JUndefined | JNull => d
  | _ => v
  end.

Definition truthy (v : JSValue) : bool :=
  match v with
  | JUndefined | JNull => false
  | JBool b => b
  | JNum x => numberTruthy x
  | JStr s => match s with [] => false | _ => true end
  | JDate _ => true
  end.

(** The hosts of the examples map the ASCII letters, the sharp s (to SS),
    the dotless i (to I) and the long s (to S) to upper case and the ASCII
    letters to lower case; numbers print as their integer part, which is
    exact for the integers the examples hold; bytes decode as ASCII; the
    workbook reader refuses every input. *)
Definition sampleUpperPoint (cp : N) : jsstring :=
  if isAscii cp then [upperChar cp]
  else if N.eqb cp 223 then js "SS"
  else if N.eqb cp 305 then js "I"
  else if N.eqb cp 383 then js "S"
  else utf16 cp.

Definition sampleLowerCase (s : jsstring) : jsstring := map lowerChar s.

Program Definition sampleHost (tza : Z -> bool -> Z)
    (range : forall t isUTC, (Z.abs (tza t isUTC) < msPerDay)%Z)
    (forward : forall t, (tza t false <= tza (t - tza t false) true)%Z) : Host :=
  {| LocalTZA := tza;
     LocalTZA_range := range;
     LocalTZA_forward := forward;
     upperPoint := sampleUpperPoint;
     toLowerCase := sampleLowerCase;
     finiteToString := fun x => intToString (floorZ x);
     dateToString := fun t => intToString t;
     utf8ToString := fun bytes => bytes;
     XLSX_read := fun _ => Throw (js "Unsupported file") |}.
Next Obligation.
  unfold sampleUpperPoint. rewrite H. reflexivity.
Qed.
Next Obligation.
  unfold sampleUpperPoint, utf16.
  destruct (isAscii c) eqn:Ha.
  - cbn [forallb]. unfold upperChar, isLower, inRange.
    destruct (N.leb 97 c) eqn:A; destruct (N.leb c 122) eqn:B; cbn [andb];
      rewrite ?A, ?B; try reflexivity.
    apply N.leb_le in A, B.
    assert ((97 <=? c - 32)%N = false) as -> by (apply N.leb_gt; lia).
    reflexivity.
  - unfold isAscii in Ha. apply N.ltb_ge in Ha.
    repeat match goal with |- context [N.eqb c ?k] => destruct (N.eqb c k); [reflexivity|] end.
    destruct (N.ltb c 65536); cbn [forallb]; unfold isLower, inRange.
    + assert ((c <=? 122)%N = false) as -> by (apply N.leb_gt; lia).
      rewrite andb_false_r. reflexivity.
    + assert ((55296 + (c - 65536) / 1024 <=? 122)%N = false) as ->
        by (apply N.leb_gt, N.lt_lt_add_r; reflexivity).
      assert ((56320 + (c - 65536) mod 1024 <=? 122)%N = false) as ->
        by (apply N.leb_gt, N.lt_lt_add_r; reflexivity).
      rewrite !andb_false_r. reflexivity.
Qed.
Next Obligation.
  unfold sampleLowerCase.
  induction s as [|c s IH]; [reflexivity|]. cbn [map forallb]. rewrite IH, andb_true_r.
  unfold lowerChar, isUpper, inRange.
  destruct (N.leb 65 c) eqn:A; destruct (N.leb c 90) eqn:B; cbn [andb];
    rewrite ?A, ?B; try reflexivity.
  apply N.leb_le in A, B.
  assert ((c + 32 <=? 90)%N = false) as -> by (apply N.leb_gt; lia).
  rewrite andb_false_r. reflexivity.
Qed.
Next Obligation.
  unfold sampleLowerCase.
  induction s as [|c s IH]; [reflexivity|]. cbn [map existsb]. rewrite IH. f_equal.
  unfold lowerChar, isUpper, inRange.
  destruct (N.leb 65 c) eqn:A; destruct (N.leb c 90) eqn:B; cbn [andb]; try reflexivity.
  apply N.leb_le in A, B.
  destruct (N.eqb_spec 46 (c + 32)) as [E|E]; destruct (N.eqb_spec 46 c) as [F|F];
    try reflexivity; lia.
Qed.

(** Philippine time: eight hours ahead of UTC at all times. *)
Definition manilaHost : Host :=
  sampleHost (fun _ _ => 28800000%Z) (fun _ _ => eq_refl) (fun _ => Z.le_refl _).



(* ================================================================== *)
(** ** Sample inputs *)

Definition noon_2024_01_16 : JSDate := DateAt 1705406400000.
Definition noon_2024_02_05 : JSDate := DateAt 1707134400000.
Definition noon_2024_02_10 : JSDate := DateAt 1707566400000.

Definition ledgerRow (cd particulars : jsstring) (date : JSDate) (debit credit : JSValue)
    : JSObject :=
  [ (js "CD", JStr cd); (js "DATE", JDate date); (js "PARTICULARS", JStr particulars);
    (js "PHP_DEBIT", debit); (js "PHP_CREDIT", credit) ].

(** The three rows of the end-to-end scenario of the specification. *)
Definition scenarioRows : list JSObject :=
  [ ledgerRow (js "OR") (js "FUTURE TRANSACTION - DEPOSIT") noon_2024_01_16
      (JNum 0) (JNum 10000);
    ledgerRow (js "CM") (js "CASH DIVIDEND XYZ CORP") noon_2024_02_05
      (JNum 0) (JNum 250);
    ledgerRow (js "BI") (js "BUY XYZ CORP") noon_2024_02_10
      (JNum 5000) (JNum 0) ].

(** A deposit row that carries a debit as well. *)
Definition bothSidesRow : JSObject :=
  ledgerRow (js "OR") (js "FUTURE TRANSACTION - DEPOSIT") noon_2024_01_16
    (JNum 40) (JNum 10000).

(** Two dividends of 1e308 in the same month. *)
Definition hugeDividend : JSObject :=
  ledgerRow (js "CM") (js "CASH DIVIDEND") noon_2024_01_16 JNull (JNum 1e308).

(** A statement: two lines of header, a block of two lines, a block whose
    date has no such month, the banner of the ending position and a line
    after it that looks like a transaction. *)
Definition statementHead : list jsstring :=
  [ js "DATE       REFERENCE  PARTICULARS        PRICE   DEBIT";
    js "                                         CREDIT  BALANCE" ].
Definition blockDeposit : list jsstring :=
  [ js "01/16/2024 OR-1 FUTURE TRANSACTION";
    js "   0.0000   (1,000.00)  PHP   1,000.00" ].
Definition blockBadMonth : list jsstring :=
  [ js "13/45/2024 OR-2 FUTURE TRANSACTION";
    js "   0.0000   5.00  PHP   1,005.00" ].
Definition endingBanner : jsstring := js "        ENDING SECURITY POSITION".
Definition afterBanner : list jsstring :=
  [ js "02/20/2024 CM-3 CASH DIVIDEND";
    js "   0.0000   7.00  PHP   1,012.00" ].

(** A block with no currency line. *)
Definition blockNoAmount : list jsstring :=
  [ js "01/16/2024 OR-1 FUTURE TRANSACTION"; js "   interest for the period" ].

(** Blocks whose currency line has one token; with two currency lines, the
    second with the marker in small letters; with a last line that holds the
    marker and no amount; with the letters of the marker inside a longer
    word. *)
Definition blockSingleToken : list jsstring :=
  [ js "02/20/2024 CM-3 CASH DIVIDEND"; js "   PHP   7.00" ].
Definition blockTwoCurrencyLines : list jsstring :=
  [ js "03/05/2024 DM-4 ADJUSTMENT"; js "  1.00  2.00  PHP  3.00"; js "  4.00  php  5.00" ].
Definition blockMarkerWithoutAmount : list jsstring :=
  [ js "03/06/2024 DM-5 ADJUSTMENT"; js "  5.00  6.00  PHP  7.00"; js "  PHP balance forward" ].
Definition blockLongerWord : list jsstring :=
  [ js "03/07/2024 DM-6 ADJUSTMENT"; js "  8.00  PHPX  9.00" ].

(** A coupon payment whose code and description are in mixed case. *)
Definition couponRow : JSObject :=
  ledgerRow (js " cm ") (js "Q3 Coupon Payment RTB") noon_2024_02_05 (JNum 0) (JNum 75).

(** A sale whose code is written with the long s (U+017F), and a deposit
    whose description is. *)
Definition longSCode : jsstring := [383%N; 105%N].
Definition longSTrade : JSObject :=
  ledgerRow longSCode (js "SELL XYZ CORP") noon_2024_01_16 (JNum 100) (JNum 0).
Definition longSDeposit : JSObject :=
  ledgerRow (js "OR") (js "future tran" ++ [383%N] ++ js "action") noon_2024_01_16
    (JNum 0) (JNum 500).

(** A worksheet: three rows of preamble, the header, a row whose debit is in
    parentheses. *)
Definition sheetPreamble : worksheet :=
  [ [JStr (js "FMSEC LEDGER")]; []; [JStr (js "Account"); JNum 12345] ].
Definition sheetHeader : list JSValue :=
  [ JStr (js "CD"); JStr (js "NUMBER"); JStr (js "DATE"); JStr (js "PARTICULARS");
    JStr (js "PHP D E B I T"); JStr (js "PHP C R E D I T") ].
Definition sheetData : worksheet :=
  [ [ JStr (js "DM"); JStr (js "77"); JNum 45307; JStr (js "ADJUSTMENT");
      JStr (js "(1,234.56)"); JUndefined ] ].

(** Delimited text whose debit is a quoted amount in parentheses. *)
Definition csvParenthesized : jsstring :=
  join [10%N]
    [ js "CD,NUMBER,DATE,PARTICULARS,PHP_DEBIT,PHP_CREDIT";
      js "DM,77,16/1/2024,ADJUSTMENT," ++ [34%N] ++ js "(1,234.56)" ++ [34%N] ++ js "," ].

(** Delimited text: a header that starts with CD but has no NUMBER column. *)
Definition csvOtherHeader : jsstring :=
  join [10%N]
    [ js "CD,DATE,PARTICULARS,PHP_DEBIT,PHP_CREDIT";
      js "OR,7/3/2024,FUTURE TRANSACTION,0,100" ].

(** Delimited text with two dividends of 1e308 in January 2024. *)
Definition csvHugeDividends : jsstring :=
  join [10%N]
    [ js "FMSEC LEDGER";
      js "CD,NUMBER,DATE,PARTICULARS,PHP_DEBIT,PHP_CREDIT";
      js "CM,1,16/1/2024,CASH DIVIDEND,-,1e308";
      js "CM,2,17/1/2024,CASH DIVIDEND,-,1e308" ].

Section WithHost.
Context {host : Host}.

(** [String(v)]. *)
Definition ToString (v : JSValue) : jsstring :=
  match v with
  | JUndefined => js "undefined"
  | JNull => js "null"
  | JBool true => js "true"
  | JBool false => js "false"
  | JNum x =>
      if is_nan x then js "NaN"
      else if is_zero x then js "0"
      else if is_infinity x then (if x <? 0 then js "-Infinity" else js "Infinity")
      else finiteToString x
  | JStr s => s
  | JDate InvalidDate => js "Invalid Date"
  | JDate (DateAt t) => dateToString t
  end.

(** [s.toUpperCase()]: the upper-case mappings of the code points of the
    text, one after the other. *)
Definition toUpperCase (s : jsstring) : jsstring := flat_map upperPoint (codePoints s).


(* ================================================================== *)
(** ** Dates *)

Open Scope Z_scope.

(** Day number (days since 1970-01-01) of a proleptic Gregorian date, month
    in 1..12. *)
Definition daysFromCivil (y m d : Z) : Z :=
  let y' := if m <=? 2 then y - 1 else y in
  let era := y' / 400 in
  let yoe := y' - era * 400 in
  let mp := (m + 9) mod 12 in
  let doy := (153 * mp + 2) / 5 + d - 1 in
  let doe := yoe * 365 + yoe / 4 - yoe / 100 + doy in
  era * 146097 + doe - 719468.

(** Year, month (1..12) and day of the month of a day number. *)
Definition civilFromDays (z : Z) : Z * Z * Z :=
  let z' := z + 719468 in
  let era := z' / 146097 in
  let doe := z' - era * 146097 in
  let yoe := (doe - doe / 1460 + doe / 36524 - doe / 146096) / 365 in
  let doy := doe - (365 * yoe + yoe / 4 - yoe / 100) in
  let mp := (5 * doy + 2) / 153 in
  let d := doy - (153 * mp + 2) / 5 + 1 in
  let m := if mp <? 10 then mp + 3 else mp - 9 in
  (if m <=? 2 then yoe + era * 400 + 1 else yoe + era * 400, m, d).

(** MakeDay of ECMAScript: the month is zero-based and may overflow, and so
    may the day of the month. *)
Definition MakeDay (year month date : Z) : Z :=
  daysFromCivil (year + month / 12) (month mod 12 + 1) 1 + date - 1.

Definition TimeClip (t : Z) : JSDate :=
  if 8640000000000000 <? Z.abs t then InvalidDate else DateAt t.

(** [new Date(Date.UTC(year, month, date, hours, minutes, seconds))] on
    integers; a year in 0..99 stands for 1900 + year. *)
Definition DateUTC (year month date hours minutes seconds : Z) : JSDate :=
  let y := if (0 <=? year) && (year <=? 99) then 1900 + year else year in
  TimeClip (MakeDay y month date * msPerDay
            + hours * 3600000 + minutes * 60000 + seconds * 1000).

(** [d.getTime()]; [None] is NaN. *)
Definition getTime (d : JSDate) : option Z :=
  match d with
  | InvalidDate => None
  | DateAt t => Some t
  end.

Definition isValidDate (d : JSDate) : bool :=
  match d with
  | InvalidDate => false
  | DateAt _ => true
  end.

(** LocalTime and UTC of ECMAScript: the local time of a UTC time, and the
    UTC time of a local time. *)
Definition LocalTime (t : Z) : Z := t + LocalTZA t true.
Definition UTC (t : Z) : Z := t - LocalTZA t false.

Definition utcFields (t : Z) : Z * Z * Z := civilFromDays (t / msPerDay).
Definition localFields (t : Z) : Z * Z * Z := civilFromDays (LocalTime t / msPerDay).

(** The getters, on the time value of a valid date. *)
Definition getUTCFullYear (t : Z) : Z := fst (fst (utcFields t)).
Definition getUTCMonth (t : Z) : Z := snd (fst (utcFields t)) - 1.
Definition getUTCDate (t : Z) : Z := snd (utcFields t).
Definition getFullYear (t : Z) : Z := fst (fst (localFields t)).
Definition getMonth (t : Z) : Z := snd (fst (localFields t)) - 1.
Definition getDate (t : Z) : Z := snd (localFields t).

(** [new Date(year, month - 1, day)] for a date of the calendar: the UTC
    time of the local midnight of that day. *)
Definition localMidnight (year month day : Z) : JSDate :=
  TimeClip (UTC (daysFromCivil year month day * msPerDay)).

(** [d.setDate(date)] on the time value [t] of a valid date: the day of the
    month is replaced in local time, the time of day is kept. *)
Definition setDate (t : Z) (date : Z) : JSDate :=
  let local := LocalTime t in
  let y := fst (fst (civilFromDays (local / msPerDay))) in
  let m := snd (fst (civilFromDays (local / msPerDay))) in
  TimeClip (UTC (MakeDay y (m - 1) date * msPerDay + local mod msPerDay)).

(** xlsxToCsv.js: [pad2] and [formatDateIso], on a Date. *)
Definition pad2 (n : Z) : jsstring := padStart2 (intToString n).

Definition formatDateIso (d : JSDate) : jsstring :=
  match d with
  | InvalidDate => []
  | DateAt t =>
      intToString (getUTCFullYear t) ++ js "-"
      ++ pad2 (getUTCMonth t + 1) ++ js "-"
      ++ pad2 (getUTCDate t)
  end.

(** What [XLSX.SSF.parse_date_code(v)] gives for the fields [y], [m] and [d]
    of a serial date (SheetJS, not part of the repository): the day count
    starts at 1 on 1900-01-01, serial 60 is the 29th of February 1900 that
    never was, and a time of day within a ten-thousandth of a second of
    midnight rounds to the next day.  The fields of any other day are those
    of [d = new Date(1900, 0, 1); d.setDate(d.getDate() + date - 1)] in
    local time; the two dates are within the range of a [Date], and an
    invalid one, whose fields would be NaN, stands for no result, which is
    how [serialToDate] treats it. *)
Definition parse_date_code (v : float) : option (Z * Z * Z) :=
  if ((2958465 <? v) || (v <? 0))%float then None
  else
    let date := floorZ v in
    let frac := (86400 * (v - floatOfZ date))%float in
    let time := floorZ frac in
    let u := (frac - floatOfZ time)%float in
    let date := if ((0.9999 <? u)%float && (time + 1 =? 86400))%bool then date + 1 else date in
    if date =? 60 then Some (1900, 2, 29)
    else if date =? 0 then Some (1900, 1, 0)
    else
      let n := if 60 <? date then date - 1 else date in
      match localMidnight 1900 1 1 with
      | DateAt t0 =>
          match setDate t0 (getDate t0 + n - 1) with
          | DateAt t => Some (getFullYear t, getMonth t + 1, getDate t)
          | InvalidDate => None
          end
      | InvalidDate => None
      end.

(** The field tokens of the date-fns layouts the ledger parser uses. *)
Inductive fmtToken : Type :=
| Tok_d
| Tok_dd
| Tok_M
| Tok_MM
| Tok_yyyy
| Tok_lit (c : N).

(** The numeric patterns of date-fns (not part of the repository):
    [/^(3[0-1]|[0-2]?\d)/] for [d], [/^(1[0-2]|0?\d)/] for [M], and
    [/^\d{1,n}/] for a token of [n] letters. *)
Definition re_dfDate : regex :=
  Alt (Cat (chr 51) (Cls (inRange 48 49))) (Cat (opt (Cls (inRange 48 50))) digit).
Definition re_dfMonth : regex :=
  Alt (Cat (chr 49) (Cls (inRange 48 50))) (Cat (opt (chr 48)) digit).
Definition re_dfDigits (n : nat) : regex := Rep 1 (Some n) digit.

Definition tokenRegex (t : fmtToken) : regex :=
  match t with
  | Tok_d => re_dfDate
  | Tok_dd => re_dfDigits 2
  | Tok_M => re_dfMonth
  | Tok_MM => re_dfDigits 2
  | Tok_yyyy => re_dfDigits 4
  | Tok_lit c => chr c
  end.

Record dateParts : Type := DateParts {
  dp_day : option Z;
  dp_month : option Z;
  dp_year : option Z
}.

Definition setPart (t : fmtToken) (v : Z) (p : dateParts) : dateParts :=
  match t with
  | Tok_d | Tok_dd => DateParts (Some v) (dp_month p) (dp_year p)
  | Tok_M | Tok_MM => DateParts (dp_day p) (Some (v - 1)) (dp_year p)
  | Tok_yyyy => DateParts (dp_day p) (dp_month p) (Some v)
  | Tok_lit _ => p
  end.

(** Each token consumes its text at the head of what is left. *)
Fixpoint parseTokens (ts : list fmtToken) (s : jsstring) (p : dateParts)
    : option (dateParts * jsstring) :=
  match ts with
  | [] => Some (p, s)
  | t :: ts' =>
      match matchAt (tokenRegex t) (MState None s 0 []) with
      | None => None
      | Some e =>
          parseTokens ts' (ms_rest e)
            (setPart t (digitsToZ 10 decVal (firstn (ms_pos e) s)) p)
      end
  end.

Definition isLeapYearIndex (y : Z) : bool :=
  (y mod 400 =? 0) || ((y mod 4 =? 0) && negb (y mod 100 =? 0)).

Definition daysInMonth (y m0 : Z) : Z :=
  nth (Z.to_nat m0)
    (if isLeapYearIndex y
     then [31; 29; 31; 30; 31; 30; 31; 31; 30; 31; 30; 31]
     else [31; 28; 31; 30; 31; 30; 31; 31; 30; 31; 30; 31]) 0.

(** [parse(raw, pattern, new Date())] of date-fns for a layout of day, month
    and year: the whole text must be consumed (blanks may follow), the year
    is positive, the month is one of the twelve and the day exists in that
    month; the result is local midnight of that day, the invalid date
    otherwise. *)
Definition dateFnsParse (pattern : list fmtToken) (raw : jsstring) : JSDate :=
  match parseTokens pattern raw (DateParts None None None) with
  | Some (DateParts (Some d) (Some m0) (Some y), rest) =>
      if forallb isWhiteSpace rest
         && (0 <? y) && (0 <=? m0) && (m0 <=? 11)
         && (1 <=? d) && (d <=? daysInMonth y m0)
      then localMidnight y (m0 + 1) d
      else InvalidDate
  | _ => InvalidDate
  end.

Definition slash : fmtToken := Tok_lit 47.
Definition dash : fmtToken := Tok_lit 45.
(* ================================================================== *)
(** ** fmsecLedgerCsv.js *)

Fixpoint parseCsvLineFrom (s : jsstring) (out : list jsstring) (current : jsstring)
    (inQuotes : bool) : list jsstring :=
  match s with
  | [] => rev (rev current :: out)
  | ch :: r =>
      if inQuotes then
        if N.eqb ch 34 then
          match r with
          | next :: r' =>
              if N.eqb next 34 then parseCsvLineFrom r' out (34%N :: current) true
              else parseCsvLineFrom r out current false
          | [] => parseCsvLineFrom r out current false
          end
        else parseCsvLineFrom r out (ch :: current) true
      else if N.eqb ch 44 then parseCsvLineFrom r (rev current :: out) [] false
      else if N.eqb ch 34 then parseCsvLineFrom r out current true
      else parseCsvLineFrom r out (ch :: current) false
  end.

Definition parseCsvLine (line : jsstring) : list jsstring :=
  parseCsvLineFrom line [] [] false.

(** [/\s+/g], [/\./g] and [/__+/g]. *)
Definition re_spaces : regex := plus space.
Definition re_dot : regex := chr 46.
Definition re_underscores : regex := Cat (chr 95) (plus (chr 95)).

Definition normalizeHeaderCell (value : JSValue) : jsstring :=
  let raw := trim (ToString (nullish value (JStr []))) in
  match raw with
  | [] => []
  | _ =>
      let collapsed := replaceAll re_spaces (js " ") raw in
      let upper := toUpperCase collapsed in
      if str_eqb upper (js "PHP D E B I T") then js "PHP_DEBIT"
      else if str_eqb upper (js "PHP C R E D I T") then js "PHP_CREDIT"
      else replaceAll re_underscores (js "_")
             (replaceAll re_spaces (js "_") (replaceAll re_dot [] upper))
  end.

(** The class of blanks [\s], U+2007 and U+202F, and [/[(),]/g]. *)
Definition re_blank : regex :=
  Cls (fun c => isWhiteSpace c || N.eqb c 8199 || N.eqb c 8239).
Definition re_parenComma : regex :=
  Cls (fun c => N.eqb c 40 || N.eqb c 41 || N.eqb c 44).

(** [None] is the [null] the function returns. *)
Definition parseAmount (value : JSValue) : option float :=
  let fromText :=
    let raw := trim (ToString value) in
    match raw with
    | [] => None
    | _ =>
        let looksBlank :=
          str_eqb raw (js "-") || str_eqb (replaceAll re_blank [] raw) (js "-") in
        if looksBlank then None
        else
          let noSpaces := replaceAll re_blank [] raw in
          let isParenNegative :=
            startsWith (js "(") noSpaces && endsWith (js ")") noSpaces in
          let stripped := replaceAll re_parenComma [] noSpaces in
          match stripped with
          | [] => None
          | _ =>
              let num := StringToNumber stripped in
              if negb (is_finite num) then None
              else Some (if isParenNegative then (- num)%float else num)
          end
    end in
  match value with
  | JUndefined | JNull => None
  | JNum x => if is_finite x then Some x else fromText
  | _ => fromText
  end.

(** [/^\d+(\.\d+)?$/]. *)
Definition re_numeric : regex :=
  seq [Bos; plus digit; opt (Cat (chr 46) (plus digit)); Eos].

(** ['d/M/yyyy', 'dd/MM/yyyy', 'M/d/yyyy', 'MM/dd/yyyy', 'd-M-yyyy',
    'dd-MM-yyyy']. *)
Definition patterns : list (list fmtToken) :=
  [ [Tok_d; slash; Tok_M; slash; Tok_yyyy];
    [Tok_dd; slash; Tok_MM; slash; Tok_yyyy];
    [Tok_M; slash; Tok_d; slash; Tok_yyyy];
    [Tok_MM; slash; Tok_dd; slash; Tok_yyyy];
    [Tok_d; dash; Tok_M; dash; Tok_yyyy];
    [Tok_dd; dash; Tok_MM; dash; Tok_yyyy] ].

(** [dc = XLSX.SSF.parse_date_code(num)] and, when [dc && dc.y && dc.m &&
    dc.d], the date at noon UTC of that day. *)
Definition serialToDate (num : float) : option JSDate :=
  match parse_date_code num with
  | Some (y, m, d) =>
      if negb (y =? 0) && negb (m =? 0) && negb (d =? 0)
      then Some (DateUTC y (m - 1) d 12 0 0)
      else None
  | None => None
  end.

Fixpoint firstValidPattern (ps : list (list fmtToken)) (raw : jsstring) : option JSDate :=
  match ps with
  | [] => None
  | pattern :: rest =>
      let dt := dateFnsParse pattern raw in
      if isValidDate dt then Some dt else firstValidPattern rest raw
  end.

Definition parseLedgerDate (value : JSValue) : option JSDate :=
  let fromText :=
    let raw := trim (ToString value) in
    match raw with
    | [] => None
    | _ =>
        let fromSerialText :=
          if test re_numeric raw then
            let num := StringToNumber raw in
            if is_finite num then serialToDate num else None
          else None in
        match fromSerialText with
        | Some d => Some d
        | None => firstValidPattern patterns raw
        end
    end in
  if negb (truthy value) then None
  else
    match value with
    | JDate d => if isValidDate d then Some d else fromText
    | JNum x =>
        if is_finite x then
          match serialToDate x with
          | Some d => Some d
          | None => fromText
          end
        else fromText
    | _ => fromText
    end.

Definition rowCode (row : JSObject) : jsstring :=
  toUpperCase (trim (ToString (nullish (getProp row (js "CD")) (JStr [])))).

Definition isDividendRow (row : JSObject) : bool :=
  let cd := rowCode row in
  let particulars :=
    toLowerCase (ToString (nullish (getProp row (js "PARTICULARS")) (JStr []))) in
  str_eqb cd (js "CM")
  && (includes (js "cash dividend") particulars || includes (js "coupon payment") particulars).

Definition isTradeRow (row : JSObject) : bool :=
  let cd := rowCode row in
  str_eqb cd (js "BI") || str_eqb cd (js "SI").

Definition ofAmount (a : option float) : JSValue :=
  match a with Some x => JNum x | None => JNull end.

Definition ofDate (d : option JSDate) : JSValue :=
  match d with Some x => JDate x | None => JNull end.

Definition trimmedText (rawRow : JSObject) (k : jsstring) : JSValue :=
  JStr (trim (ToString (nullish (getProp rawRow k) (JStr [])))).

Definition coerceLedgerRow (rawRow : JSObject) : JSObject :=
  let date := parseLedgerDate (getProp rawRow (js "DATE")) in
  [ (js "CD", trimmedText rawRow (js "CD"));
    (js "NUMBER", trimmedText rawRow (js "NUMBER"));
    (js "DATE", ofDate date);
    (js "DUE_DATE", ofDate (parseLedgerDate (getProp rawRow (js "DUE_DATE"))));
    (js "PARTICULARS", trimmedText rawRow (js "PARTICULARS"));
    (js "SECURITY", trimmedText rawRow (js "SECURITY"));
    (js "NO_OF_SHARES",
       ofAmount (parseAmount
         (nullish (getProp rawRow (js "NO._OF_SHARES"))
            (nullish (getProp rawRow (js "NO_OF_SHARES"))
               (getProp rawRow (js "NO_Of_SHARES"))))));
    (js "CURRENCY", trimmedText rawRow (js "CURRENCY"));
    (js "UNIT_PRICE", ofAmount (parseAmount (getProp rawRow (js "UNIT_PRICE"))));
    (js "FX_AMT", ofAmount (parseAmount (getProp rawRow (js "FX_AMT"))));
    (js "FX_RUNNING_BAL", ofAmount (parseAmount (getProp rawRow (js "FX_RUNNING_BAL"))));
    (js "PHP_DEBIT", ofAmount (parseAmount (getProp rawRow (js "PHP_DEBIT"))));
    (js "PHP_CREDIT", ofAmount (parseAmount (getProp rawRow (js "PHP_CREDIT"))));
    (js "PHP_RUNNING_BAL", ofAmount (parseAmount (getProp rawRow (js "PHP_RUNNING_BAL")))) ].

(** [arr.findIndex(p)]: [None] stands for -1. *)
Fixpoint findIndexFrom (A : Type) (p : A -> bool) (l : list A) (i : nat) : option nat :=
  match l with
  | [] => None
  | x :: r => if p x then Some i else findIndexFrom p r (S i)
  end.

Definition findIndex (A : Type) (p : A -> bool) (l : list A) : option nat :=
  findIndexFrom p l 0.

(** The loop [for (c = 0; c < headers.length; c++) { key = headers[c]; if
    (!key) continue; obj[key] = cells[c] }]; a cell past the end of the row
    is [undefined]. *)
Fixpoint buildRowObject (headers : list jsstring) (cells : list JSValue) (obj : JSObject)
    : JSObject :=
  match headers with
  | [] => obj
  | key :: hs =>
      let v := match cells with c :: _ => c | [] => JUndefined end in
      buildRowObject hs (tl cells)
        (match key with [] => obj | _ => setProp obj key v end)
  end.

(** The rows after the header, keyed by it; a row without a code is skipped. *)
Definition isCodeBlank (obj : JSObject) : bool :=
  match trim (ToString (nullish (getProp obj (js "CD")) (JStr []))) with
  | [] => true
  | _ => false
  end.

Definition isCdCell (c : JSValue) : bool :=
  str_eqb (toUpperCase (trim (ToString (nullish c (JStr []))))) (js "CD").

Definition isWorksheetHeader (r : list JSValue) : bool := existsb isCdCell r.

Fixpoint worksheetDataRows (headerRow : list jsstring) (rows : worksheet) : list JSObject :=
  match rows with
  | [] => []
  | r :: rest =>
      match r with
      | [] => worksheetDataRows headerRow rest
      | _ =>
          let obj := buildRowObject headerRow r [] in
          if isCodeBlank obj then worksheetDataRows headerRow rest
          else coerceLedgerRow obj :: worksheetDataRows headerRow rest
      end
  end.

Definition headerNotFound : jsstring :=
  js "Could not find header row (CD, NUMBER, DATE, ...) in CSV".

(** The argument is [XLSX.utils.sheet_to_json(worksheet, { header: 1, raw:
    true })]. *)
Definition parseLedgerRowsFromWorksheet (rows : worksheet) : result (list JSObject) :=
  match rows with
  | [] => Ok []
  | _ =>
      match findIndex isWorksheetHeader rows with
      | None => Throw headerNotFound
      | Some headerIndex =>
          let headerRow := map normalizeHeaderCell (nth headerIndex rows []) in
          Ok (worksheetDataRows headerRow (skipn (S headerIndex) rows))
      end
  end.

Definition isBlankLine (l : jsstring) : bool :=
  match trim l with [] => true | _ => false end.

Definition isCsvHeaderLine (l : jsstring) : bool :=
  startsWith (js "CD,NUMBER,DATE,") (toUpperCase (trim l)).

Fixpoint csvDataRows (normalizedHeaders : list jsstring) (lines : list jsstring)
    : list JSObject :=
  match lines with
  | [] => []
  | l :: rest =>
      let cells := parseCsvLine l in
      let obj := buildRowObject normalizedHeaders (map JStr cells) [] in
      if isCodeBlank obj then csvDataRows normalizedHeaders rest
      else coerceLedgerRow obj :: csvDataRows normalizedHeaders rest
  end.

(** The function on the non-blank lines of the text. *)
Definition loadRowsFromCsvLines (lines : list jsstring) : result (list JSObject) :=
  match findIndex isCsvHeaderLine lines with
  | None => Throw headerNotFound
  | Some headerLineIndex =>
      let headerCells := parseCsvLine (nth headerLineIndex lines []) in
      let normalizedHeaders := map (fun c => normalizeHeaderCell (JStr c)) headerCells in
      Ok (csvDataRows normalizedHeaders (skipn (S headerLineIndex) lines))
  end.

Definition loadFmsecLedgerRowsFromCsvText (csvText : JSValue) : result (list JSObject) :=
  let text := ToString (nullish csvText (JStr [])) in
  let lines := filter (fun l => negb (isBlankLine l)) (splitLines text) in
  loadRowsFromCsvLines lines.

Definition required : list jsstring :=
  [js "CD"; js "DATE"; js "PARTICULARS"; js "PHP_DEBIT"; js "PHP_CREDIT"].

Definition validateFmsecLedgerHeaders (rows : list JSObject) : result unit :=
  match rows with
  | [] => Throw (js "No ledger rows found")
  | sample :: _ =>
      let missing := filter (fun k => negb (hasProp sample k)) required in
      match missing with
      | [] => Ok tt
      | _ => Throw (js "Missing required columns: " ++ join (js ", ") missing)
      end
  end.
(* ================================================================== *)
(** ** fmsecLedgerPdf.js *)

(** [/^([A-Z]{1,6})-(\d+)$/]. *)
Definition re_reference : regex :=
  seq [Bos; Grp 1 (Rep 1 (Some 6%nat) (Cls isUpper)); chr 45; Grp 2 (plus digit); Eos].

(** The pair is [{ CD, NUMBER }]. *)
Definition parseReference (ref : JSValue) : jsstring * jsstring :=
  let raw := trim (ToString (nullish ref (JStr []))) in
  match raw with
  | [] => ([], [])
  | _ =>
      match search re_reference raw with
      | Some (_, e) =>
          (match capture 1 (ms_caps e) with Some c => c | None => [] end,
           match capture 2 (ms_caps e) with Some c => c | None => [] end)
      | None =>
          match indexOf (js "-") raw with
          | None => (raw, [])
          | Some idx => (trim (slice 0 idx raw), trim (sliceFrom (S idx) raw))
          end
      end
  end.

(** [/^\s*\d{2}\/\d{2}\/\d{4}\s+\S+/]. *)
Definition re_transactionStart : regex :=
  seq [Bos; star space; times 2 digit; chr 47; times 2 digit; chr 47; times 4 digit;
       plus space; plus nonSpace].

Definition isTransactionStartLine (line : jsstring) : bool := test re_transactionStart line.

(** [/^(\d{2})\/(\d{2})\/(\d{4})$/]. *)
Definition re_pdfDate : regex :=
  seq [Bos; Grp 1 (times 2 digit); chr 47; Grp 2 (times 2 digit); chr 47;
       Grp 3 (times 4 digit); Eos].

Definition captureNumber (i : nat) (e : mstate) : Z :=
  match capture i (ms_caps e) with
  | Some c => digitsToZ 10 decVal c
  | None => 0
  end.

Definition parsePdfDateMmDdYyyy (value : jsstring) : option JSDate :=
  let s := trim value in
  match search re_pdfDate s with
  | None => None
  | Some (_, m) =>
      let month := captureNumber 1 m in
      let day := captureNumber 2 m in
      let year := captureNumber 3 m in
      if (month <? 1) || (12 <? month) then None
      else if (day <? 1) || (31 <? day) then None
      else Some (DateUTC year (month - 1) day 12 0 0)
  end.

(** [/\f/g] and [/\(?-?\d{1,3}(?:,\d{3})*(?:\.\d{2})\)?/g]. *)
Definition re_formFeed : regex := chr 12.
Definition re_money : regex :=
  seq [opt (chr 40); opt (chr 45); Rep 1 (Some 3%nat) digit;
       star (Cat (chr 44) (times 3 digit)); Cat (chr 46) (times 2 digit); opt (chr 41)].

(** The pairs are [{ value, index }]. *)
Definition findMoneyTokensWithIndex (line : jsstring) : list (jsstring * nat) :=
  execAll re_money (replaceAll re_formFeed [] line).

Definition normalizeMoney (n : JSValue) : option float :=
  match parseAmount n with
  | None => None
  | Some num =>
      if negb (is_finite num) then None
      else Some (if (num <? 0)%float then (- num)%float else num)
  end.

(** [/\bPHP\b/i]. *)
Definition re_PHP : regex := seq [Wb; litI (js "PHP"); Wb].

Definition pickToken (tokens : list (jsstring * nat)) : jsstring * nat :=
  if Nat.leb 2 (List.length tokens)
  then nth (List.length tokens - 2) tokens ([], O)
  else nth 0 tokens ([], O).

(** The loop [for (i = lines.length - 1; i >= 0; i--)], on the lines from the
    last to the first. *)
Fixpoint extractMovementBackward (revLines : list jsstring) : option float :=
  match revLines with
  | [] => None
  | line :: earlier =>
      if negb (test re_PHP line) then extractMovementBackward earlier
      else
        let tokens := findMoneyTokensWithIndex line in
        match tokens with
        | [] => extractMovementBackward earlier
        | _ =>
            let pick := pickToken tokens in
            match normalizeMoney (JStr (fst pick)) with
            | None => extractMovementBackward earlier
            | Some movement => Some movement
            end
        end
  end.

Definition extractMovementAmountFromPhpLine (blockLines : list jsstring) : option float :=
  extractMovementBackward (rev blockLines).

(** [/^[\d\s,().-]+$/], [/^[=\-]{6,}$/], [/\s*[=\-]{6,}\s*/g] and
    [/\s+0\.\d{2,4}\s*$/]. *)
Definition isRule (c : N) : bool := N.eqb c 61 || N.eqb c 45.
Definition re_numbersOnly : regex :=
  seq [Bos;
       plus (Cls (fun c => isDigit c || isWhiteSpace c || N.eqb c 44 || N.eqb c 40
                           || N.eqb c 41 || N.eqb c 46 || N.eqb c 45));
       Eos].
Definition re_separatorLine : regex := seq [Bos; Rep 6 None (Cls isRule); Eos].
Definition re_separator : regex := seq [star space; Rep 6 None (Cls isRule); star space].
Definition re_decimalTail : regex :=
  seq [plus space; chr 48; chr 46; Rep 2 (Some 4%nat) digit; star space; Eos].

Fixpoint particularsParts (lines : list jsstring) : list jsstring :=
  match lines with
  | [] => []
  | line :: rest =>
      let hasPhp := test re_PHP line in
      let hasMoney := negb (Nat.eqb (List.length (findMoneyTokensWithIndex line)) 0) in
      let mostlySpacesNumbers :=
        negb (str_eqb (trim line) []) && test re_numbersOnly (trim line) in
      if hasPhp || (hasMoney && mostlySpacesNumbers) then particularsParts rest
      else
        let trimmed := trim line in
        match trimmed with
        | [] => particularsParts rest
        | _ =>
            if test re_separatorLine trimmed then particularsParts rest
            else trimmed :: particularsParts rest
        end
  end.

Definition extractParticulars (blockLines : list jsstring) (firstLineRemainder : jsstring)
    : jsstring :=
  let parts :=
    (match firstLineRemainder with [] => [] | _ => [trim firstLineRemainder] end)
    ++ particularsParts (tl blockLines) in
  let joined := trim (replaceAll re_spaces (js " ") (join (js " ") parts)) in
  let withoutSeparators :=
    trim (replaceAll re_spaces (js " ") (replaceAll re_separator (js " ") joined)) in
  trim (replaceFirst re_decimalTail [] withoutSeparators).

(** The expression of the first line: blanks, the date (group 1), blanks,
    the reference (group 2: [\S+]), blanks and the rest of the line (group 3:
    any run of characters other than line terminators), anchored at both
    ends. *)
Definition isLineTerminator (c : N) : bool :=
  N.eqb c 10 || N.eqb c 13 || N.eqb c 8232 || N.eqb c 8233.
Definition re_firstLine : regex :=
  seq [Bos; star space;
       Grp 1 (seq [times 2 digit; chr 47; times 2 digit; chr 47; times 4 digit]);
       plus space; Grp 2 (plus nonSpace); star space;
       Grp 3 (star (Cls (fun c => negb (isLineTerminator c)))); Eos].

(** The debit and the credit of a statement row from its movement. *)
Definition debitCredit (CD PARTICULARS : jsstring) (movement : option float) : float * float :=
  let pUpper := toUpperCase (trim PARTICULARS) in
  let cdUpper := toUpperCase (trim CD) in
  match movement with
  | Some mv =>
      if numberTruthy mv && is_finite mv then
        let isCashDividend := str_eqb cdUpper (js "CM") && includes (js "CASH DIVIDEND") pUpper in
        let isCouponPayment := str_eqb cdUpper (js "CM") && includes (js "COUPON PAYMENT") pUpper in
        let isFutureTransaction :=
          str_eqb cdUpper (js "OR") && startsWith (js "FUTURE TRANSACTION") pUpper in
        let isTrade := str_eqb cdUpper (js "BI") || str_eqb cdUpper (js "SI") in
        let isNonCashDividend :=
          str_eqb cdUpper (js "IN") && includes (js "STOCK DIVIDEND") pUpper in
        let isBondPurchase :=
          str_eqb cdUpper (js "DM")
          && (includes (js "PURCHASE OF RTB") pUpper
              || includes (js "PHILIPPINE GOVERNMENT") pUpper
              || includes (js "BOND ") pUpper) in
        if isTrade || isNonCashDividend || isBondPurchase then (zero, zero)
        else if isCashDividend || isCouponPayment || isFutureTransaction then (zero, mv)
        else (mv, zero)
      else (zero, zero)
  | None => (zero, zero)
  end.

Definition parseTransactionBlock (blockLines : list jsstring)
    (debitColIndex creditColIndex : option nat) : option JSObject :=
  match blockLines with
  | [] => None
  | first :: _ =>
      match search re_firstLine first with
      | None => None
      | Some (_, m) =>
          let m1 := match capture 1 (ms_caps m) with Some c => c | None => [] end in
          let reference := match capture 2 (ms_caps m) with Some c => c | None => [] end in
          let m3 := match capture 3 (ms_caps m) with Some c => c | None => [] end in
          match parsePdfDateMmDdYyyy m1 with
          | None | Some InvalidDate => None
          | Some date =>
              let (CD, NUMBER) := parseReference (JStr reference) in
              let firstRemainder :=
                match debitColIndex with
                | Some col =>
                    if Nat.ltb 0 col && Nat.ltb col (List.length first) then
                      let idx := match indexOf reference first with
                                 | Some i => Z.of_nat i
                                 | None => -1
                                 end in
                      trim (slice (Z.to_nat (idx + Z.of_nat (List.length reference))) col first)
                    else m3
                | None => m3
                end in
              let PARTICULARS := extractParticulars blockLines firstRemainder in
              let movement := extractMovementAmountFromPhpLine blockLines in
              let (debit, credit) := debitCredit CD PARTICULARS movement in
              Some [ (js "CD", JStr (trim CD));
                     (js "NUMBER", JStr (trim NUMBER));
                     (js "DATE", JDate date);
                     (js "DUE_DATE", JNull);
                     (js "PARTICULARS", JStr (trim PARTICULARS));
                     (js "SECURITY", JStr []);
                     (js "NO_OF_SHARES", JNull);
                     (js "CURRENCY", JStr (js "PHP"));
                     (js "UNIT_PRICE", JNull);
                     (js "FX_AMT", JNull);
                     (js "FX_RUNNING_BAL", JNull);
                     (js "PHP_DEBIT", JNum debit);
                     (js "PHP_CREDIT", JNum credit);
                     (js "PHP_RUNNING_BAL", JNull) ]
          end
      end
  end.

(** [/ENDING\s+SECURITY\s+POSITION/i], [/\bL\s*E\s*G\s*E\s*N\s*D\b/i] and
    [/This is a computer generated statement/i]. *)
Definition re_endingPosition : regex :=
  seq [litI (js "ENDING"); plus space; litI (js "SECURITY"); plus space; litI (js "POSITION")].
Definition re_legend : regex :=
  seq [Wb; chrI 76; star space; chrI 69; star space; chrI 71; star space; chrI 69;
       star space; chrI 78; star space; chrI 68; Wb].
Definition re_computerGenerated : regex := litI (js "This is a computer generated statement").

Definition shouldEndTransactionSection (line : jsstring) : bool :=
  test re_endingPosition line || test re_legend line || test re_computerGenerated line.

(** The variables of [parseFmsecLedgerRowsFromPdfText] that its loop and
    [flush] share. *)
Record scanState : Type := ScanState {
  sc_rows : list JSObject;
  sc_debitColIndex : option nat;
  sc_creditColIndex : option nat;
  sc_currentBlock : option (list jsstring)
}.

Definition flush (st : scanState) : scanState :=
  match sc_currentBlock st with
  | None | Some [] => st
  | Some block =>
      let row := parseTransactionBlock block (sc_debitColIndex st) (sc_creditColIndex st) in
      ScanState
        (match row with
         | Some r => if isCodeBlank r then sc_rows st else sc_rows st ++ [r]
         | None => sc_rows st
         end)
        (sc_debitColIndex st) (sc_creditColIndex st) None
  end.

Definition withBlock (st : scanState) (b : option (list jsstring)) : scanState :=
  ScanState (sc_rows st) (sc_debitColIndex st) (sc_creditColIndex st) b.

(** The loop over the lines; the section-end test leaves it ([break]). *)
Fixpoint scanLines (lines : list jsstring) (st : scanState) : scanState :=
  match lines with
  | [] => st
  | s :: rest =>
      if (match sc_currentBlock st with Some _ => true | None => false end)
         && shouldEndTransactionSection s
      then withBlock (flush st) None
      else if includes (js "PRICE") s && includes (js "DEBIT") s then
        scanLines rest
          (match indexOf (js "DEBIT") s with
           | Some idx => ScanState (sc_rows st) (Some idx) (sc_creditColIndex st)
                           (sc_currentBlock st)
           | None => st
           end)
      else if includes (js "CREDIT") s && includes (js "BALANCE") s then
        scanLines rest
          (match indexOf (js "CREDIT") s with
           | Some idx => ScanState (sc_rows st) (sc_debitColIndex st) (Some idx)
                           (sc_currentBlock st)
           | None => st
           end)
      else if isTransactionStartLine s then
        scanLines rest (withBlock (flush st) (Some [s]))
      else
        match sc_currentBlock st with
        | Some block => scanLines rest (withBlock st (Some (block ++ [s])))
        | None => scanLines rest st
        end
  end.

Definition initialScan : scanState := ScanState [] None None None.

(** The rows collected from the lines, before the final validation. *)
Definition statementRows (lines : list jsstring) : list JSObject :=
  sc_rows (flush (scanLines lines initialScan)).

Definition parseFmsecLedgerRowsFromPdfText (pdfText : JSValue) : result (list JSObject) :=
  let text := replaceAll re_formFeed [] (ToString (nullish pdfText (JStr []))) in
  let lines := splitLines text in
  let rows := statementRows lines in
  match validateFmsecLedgerHeaders rows with
  | Throw msg => Throw msg
  | Ok _ => Ok rows
  end.
(* ================================================================== *)
(** ** monthlyCashflow.js *)

Definition MONTH_LABELS : list jsstring :=
  [js "Jan"; js "Feb"; js "Mar"; js "Apr"; js "May"; js "Jun";
   js "Jul"; js "Aug"; js "Sep"; js "Oct"; js "Nov"; js "Dec"].

Record MonthRow : Type := mkMonthRow {
  month : jsstring;
  deposit : float;
  withdraw : float;
  dividends : float
}.

Definition initMonthRow (monthIndex : Z) : MonthRow :=
  mkMonthRow
    (if (0 <=? monthIndex) && (monthIndex <? 12)
     then nth (Z.to_nat monthIndex) MONTH_LABELS []
     else intToString (monthIndex + 1))
    zero zero zero.

(** [None] is the [undefined] of the early [return]. *)
Definition addMoney (target : float) (amount : JSValue) : option float :=
  match amount with
  | JNum x =>
      if negb (numberTruthy x) || negb (is_finite x) then None
      else Some (target + x)%float
  | _ => None
  end.

(** [addMoney(target, amount ?? 0) ?? target]. *)
Definition addedTo (target : float) (amount : JSValue) : float :=
  match addMoney target (nullish amount (JNum zero)) with
  | Some t => t
  | None => target
  end.

(** The [Map] from month index to month row, in insertion order. *)
Definition MonthMap := list (Z * MonthRow).

Fixpoint mapGet (m : MonthMap) (k : Z) : option MonthRow :=
  match m with
  | [] => None
  | (k', v) :: r => if k' =? k then Some v else mapGet r k
  end.

Fixpoint mapSet (m : MonthMap) (k : Z) (v : MonthRow) : MonthMap :=
  match m with
  | [] => [(k, v)]
  | (k', v') :: r => if k' =? k then (k', v) :: r else (k', v') :: mapSet r k v
  end.

(** [options.year] is a number or [undefined]; the test [if (year)] holds for
    a number other than zero. *)
Definition yearTruthy (year : option Z) : bool :=
  match year with
  | Some y => negb (y =? 0)
  | None => false
  end.

Definition yearDiffers (year : option Z) (fullYear : Z) : bool :=
  match year with
  | Some y => negb (fullYear =? y)
  | None => true
  end.

(** One round of the loop over the rows. *)
Definition cashflowStep (year : option Z) (dateField : jsstring) (byMonth : MonthMap)
    (row : JSObject) : MonthMap :=
  match getProp row dateField with
  | JDate (DateAt t) =>
      if yearTruthy year && yearDiffers year (getFullYear t) then byMonth
      else
        let monthIndex := getMonth t in
        let current :=
          match mapGet byMonth monthIndex with
          | Some c => c
          | None => initMonthRow monthIndex
          end in
        if isDividendRow row then
          mapSet byMonth monthIndex
            (mkMonthRow (month current) (deposit current) (withdraw current)
               (addedTo (dividends current) (getProp row (js "PHP_CREDIT"))))
        else if isTradeRow row then mapSet byMonth monthIndex current
        else
          let cd := rowCode row in
          let particulars :=
            toUpperCase (trim (ToString (nullish (getProp row (js "PARTICULARS")) (JStr [])))) in
          let isFutureTransactions :=
            str_eqb cd (js "OR") && startsWith (js "FUTURE TRANSACTION") particulars in
          let deposit' :=
            if isFutureTransactions
            then addedTo (deposit current) (getProp row (js "PHP_CREDIT"))
            else deposit current in
          mapSet byMonth monthIndex
            (mkMonthRow (month current) deposit'
               (addedTo (withdraw current) (getProp row (js "PHP_DEBIT")))
               (dividends current))
  | _ => byMonth
  end.

(** [entries.sort(([a], [b]) => a - b)]. *)
Fixpoint insertByKey (e : Z * MonthRow) (l : MonthMap) : MonthMap :=
  match l with
  | [] => [e]
  | x :: r => if fst e <? fst x then e :: l else x :: insertByKey e r
  end.

Definition sortByKey (l : MonthMap) : MonthMap := fold_right insertByKey [] l.

Definition monthIndices : list Z := [0; 1; 2; 3; 4; 5; 6; 7; 8; 9; 10; 11].

(** [options] is [{ year, dateField }]. *)
Definition computeMonthlyCashflow (rows : list JSObject) (year : option Z)
    (dateFieldOption : option jsstring) : list MonthRow :=
  let dateField := match dateFieldOption with Some f => f | None => js "DATE" end in
  let byMonth := fold_left (cashflowStep year dateField) rows [] in
  if yearTruthy year then
    map (fun m => match mapGet byMonth m with
                  | Some r => r
                  | None => initMonthRow m
                  end) monthIndices
  else map snd (sortByKey byMonth).

Record Totals : Type := mkTotals {
  t_deposit : float;
  t_withdraw : float;
  t_dividends : float
}.

Definition computeCashflowTotals (months : list MonthRow) : Totals :=
  fold_left (fun acc m =>
               mkTotals (t_deposit acc + deposit m)%float
                        (t_withdraw acc + withdraw m)%float
                        (t_dividends acc + dividends m)%float)
    months (mkTotals zero zero zero).

(* ================================================================== *)
(** ** uploadedLedger.js *)

Definition getExtension (filename : JSValue) : jsstring :=
  let name := ToString (nullish filename (JStr [])) in
  match lastIndexOfChar 46 name 0 None with
  | None => []
  | Some idx => toLowerCase (sliceFrom (S idx) name)
  end.

Definition pickFirstSheet (wb : workbook) : result worksheet :=
  match SheetNames wb with
  | [] | [] :: _ => Throw (js "XLSX has no sheets")
  | sheetName :: _ =>
      match find (fun e => str_eqb (fst e) sheetName) (Sheets wb) with
      | None => Throw (js "XLSX first sheet missing")
      | Some (_, ws) => Ok ws
      end
  end.

Definition andValidate (r : result (list JSObject)) : result (list JSObject) :=
  match r with
  | Throw msg => Throw msg
  | Ok rows =>
      match validateFmsecLedgerHeaders rows with
      | Throw msg => Throw msg
      | Ok _ => Ok rows
      end
  end.

(** [buffer] is [None] when the argument is not a [Buffer]. *)
Definition loadFmsecLedgerRowsFromBuffer (filename : JSValue) (buffer : option (list N))
    : result (list JSObject) :=
  let ext := getExtension filename in
  match buffer with
  | None | Some [] => Throw (js "Missing file data")
  | Some buf =>
      if str_eqb ext (js "csv") then
        andValidate (loadFmsecLedgerRowsFromCsvText (JStr (utf8ToString buf)))
      else if str_eqb ext (js "xlsx") || str_eqb ext (js "xls") then
        match XLSX_read buf with
        | Throw msg => Throw msg
        | Ok wb =>
            match pickFirstSheet wb with
            | Throw msg => Throw msg
            | Ok ws => andValidate (parseLedgerRowsFromWorksheet ws)
            end
        end
      else Throw (js "Unsupported file type. Upload a .csv or .xlsx")
  end.
(* ================================================================== *)
(** ** Specification-level definitions

    The classification and the contributions as the specification words
    them, to be compared with the code above. *)

Inductive rowClass : Type :=
| Dividend
| Trade
| Deposit
| OtherRow.

Definition description (row : JSObject) : jsstring :=
  ToString (nullish (getProp row (js "PARTICULARS")) (JStr [])).

(** First match wins: dividend, then trade, then deposit. *)
Definition classifyRow (row : JSObject) : rowClass :=
  let code := rowCode row in
  if str_eqb code (js "CM")
     && (includes (js "cash dividend") (toLowerCase (description row))
         || includes (js "coupon payment") (toLowerCase (description row)))
  then Dividend
  else if str_eqb code (js "BI") || str_eqb code (js "SI") then Trade
  else if str_eqb code (js "OR")
          && startsWith (js "FUTURE TRANSACTION") (toUpperCase (trim (description row)))
  then Deposit
  else OtherRow.

(** The amount a field stands for: its number when that is finite and not
    zero; an absent field, a zero and a value that is not a finite number
    stand for nothing to add. *)
Definition amountOf (v : JSValue) : option float :=
  match nullish v (JNum zero) with
  | JNum x => if numberTruthy x && is_finite x then Some x else None
  | _ => None
  end.

Definition plusAmount (t : float) (a : option float) : float :=
  match a with
  | Some x => (t + x)%float
  | None => t
  end.

Record contribution : Type := Contribution {
  toDeposit : option float;
  toWithdraw : option float;
  toDividends : option float
}.

Definition contributionOf (row : JSObject) : contribution :=
  let credit := amountOf (getProp row (js "PHP_CREDIT")) in
  let debit := amountOf (getProp row (js "PHP_DEBIT")) in
  match classifyRow row with
  | Dividend => Contribution None None credit
  | Trade => Contribution None None None
  | Deposit => Contribution credit debit None
  | OtherRow => Contribution None debit None
  end.

Definition contribute (b : MonthRow) (c : contribution) : MonthRow :=
  mkMonthRow (month b)
    (plusAmount (deposit b) (toDeposit c))
    (plusAmount (withdraw b) (toWithdraw c))
    (plusAmount (dividends b) (toDividends c)).

(** The month a row counts in: the month of its date when that is a valid
    date and, a target year being set, falls in that year. *)
Definition rowMonth (year : option Z) (dateField : jsstring) (row : JSObject) : option Z :=
  match getProp row dateField with
  | JDate (DateAt t) =>
      if yearTruthy year && yearDiffers year (getFullYear t) then None
      else Some (getMonth t)
  | _ => None
  end.

Definition bucketOf (byMonth : MonthMap) (m : Z) : MonthRow :=
  match mapGet byMonth m with
  | Some b => b
  | None => initMonthRow m
  end.

Definition specStep (year : option Z) (dateField : jsstring) (byMonth : MonthMap)
    (row : JSObject) : MonthMap :=
  match rowMonth year dateField row with
  | None => byMonth
  | Some m => mapSet byMonth m (contribute (bucketOf byMonth m) (contributionOf row))
  end.

(** The bucket of month [m]: the empty bucket plus, in their order, the
    contributions of the rows that count in [m]. *)
Definition monthStep (year : option Z) (dateField : jsstring) (m : Z) (b : MonthRow)
    (row : JSObject) : MonthRow :=
  match rowMonth year dateField row with
  | Some m' => if m' =? m then contribute b (contributionOf row) else b
  | None => b
  end.

Definition monthTotal (year : option Z) (dateField : jsstring) (rows : list JSObject) (m : Z)
    : MonthRow :=
  fold_left (monthStep year dateField m) rows (initMonthRow m).

Definition dateFieldOf (dateFieldOption : option jsstring) : jsstring :=
  match dateFieldOption with Some f => f | None => js "DATE" end.

Definition isFiniteNumber (v : JSValue) : bool :=
  match v with
  | JNum x => is_finite x
  | _ => false
  end.

Definition noNaN (b : MonthRow) : Prop :=
  is_nan (deposit b) = false /\ is_nan (withdraw b) = false /\ is_nan (dividends b) = false.

(** The movement a line offers: it holds the currency marker and at least one
    money token, and the token before the last (the only one when there is
    just one) is an amount. *)
Definition lineMovement (line : jsstring) : option float :=
  if test re_PHP line then
    match rev (findMoneyTokensWithIndex line) with
    | [] => None
    | [only] => normalizeMoney (JStr (fst only))
    | _ :: secondToLast :: _ => normalizeMoney (JStr (fst secondToLast))
    end
  else None.

(** Scanning from the last line backward for the first line that offers a
    movement. *)
Definition movementSpec (blockLines : list jsstring) : option float :=
  match find (fun l => match lineMovement l with Some _ => true | None => false end)
          (rev blockLines) with
  | Some line => lineMovement line
  | None => None
  end.

Definition nonNegative (v : JSValue) : Prop :=
  exists x, v = JNum x /\ (0 <=? x)%float = true.

(** The shape the statement's date parser accepts: two digits, a slash, two
    digits, a slash, four digits; read as month, day, year. *)
Definition pdfDateShape (s : jsstring) : option (Z * Z * Z) :=
  match s with
  | [m1; m2; s1; d1; d2; s2; y1; y2; y3; y4] =>
      if forallb isDigit [m1; m2; d1; d2; y1; y2; y3; y4] && N.eqb s1 47 && N.eqb s2 47
      then Some (digitsToZ 10 decVal [m1; m2], digitsToZ 10 decVal [d1; d2],
                 digitsToZ 10 decVal [y1; y2; y3; y4])
      else None
  | _ => None
  end.

Definition noonUTC (day : Z) : JSDate := DateAt (day * msPerDay + 43200000).


(** The day count [parse_date_code] takes from a serial: its integer part,
    or the next integer when the time of day rounds to midnight. *)
Definition serialDay (v : float) : option Z :=
  if ((2958465 <? v) || (v <? 0))%float then None
  else
    let date := floorZ v in
    let frac := (86400 * (v - floatOfZ date))%float in
    let time := floorZ frac in
    let u := (frac - floatOfZ time)%float in
    Some (if ((0.9999 <? u)%float && (time + 1 =? 86400))%bool then date + 1 else date).


(** The local clock shows midnight at the start of the day: the zone did not
    skip that time. *)
Definition hasMidnight (day : Z) : Prop :=
  LocalTime (UTC (day * msPerDay)) = day * msPerDay.

(** The local calendar has the day: the time that stands for its midnight is
    a time of that day. *)
Definition keepsDay (day : Z) : Prop :=
  LocalTime (UTC (day * msPerDay)) / msPerDay = day.



(* ================================================================== *)
(** ** xlsxToCsv.js *)

(** The class of the characters that call for quotes (the double quote,
    the comma, the line feed and the carriage return), and the double quote
    alone. *)
Definition re_needsQuotes : regex :=
  Cls (fun c => N.eqb c 34 || N.eqb c 44 || N.eqb c 10 || N.eqb c 13).
Definition re_quote : regex := chr 34.

Definition csvEscape (value : JSValue) : jsstring :=
  match value with
  | JUndefined | JNull => []
  | JDate d => formatDateIso d
  | JNum x => if is_finite x then ToString (JNum x) else []
  | JBool b => if b then js "TRUE" else js "FALSE"
  | JStr s =>
      match s with
      | [] => []
      | _ =>
          if test re_needsQuotes s
          then [34%N] ++ replaceAll re_quote [34%N; 34%N] s ++ [34%N]
          else s
      end
  end.

(** [Number.isInteger(x)]. *)
Definition isInteger (x : float) : bool :=
  match Prim2SF x with
  | S754_zero _ => true
  | S754_finite _ m e => (0 <=? e) || (Z.pos m mod 2 ^ (- e) =? 0)
  | _ => false
  end.

(** [names] is [workbook.SheetNames || []]; an integer index is compared
    and used by its value. *)
Definition resolveSheetName (names : list jsstring) (sheet : JSValue) : result jsstring :=
  match names with
  | [] => Throw (js "Workbook has no sheets")
  | first :: _ =>
      let byIndex :=
        match sheet with
        | JNum x =>
            if isInteger x then
              let idx := floorZ x in
              if (idx <? 0) || (Z.of_nat (List.length names) <=? idx)
              then Throw (js "Sheet index out of range: " ++ ToString (JNum x))
              else Ok (nth (Z.to_nat idx) names [])
            else Ok first
        | _ => Ok first
        end in
      match sheet with
      | JStr s =>
          match trim s with
          | [] => byIndex
          | name =>
              if existsb (str_eqb name) names then Ok name
              else Throw (js "Sheet not found: " ++ name)
          end
      | _ => byIndex
      end
  end.

(* ================================================================== *)
(** ** renderCashflowHtml.js *)

Definition escapeHtml (text : JSValue) : jsstring :=
  replaceAll (chr 39) (js "&#039;")
    (replaceAll (chr 34) (js "&quot;")
       (replaceAll (chr 62) (js "&gt;")
          (replaceAll (chr 60) (js "&lt;")
             (replaceAll (chr 38) (js "&amp;")
                (ToString (nullish text (JStr []))))))).

(* ================================================================== *)
(** ** generateCashflowReport.js *)

(** The pair is [{ months, totals }]. *)
Definition buildCashflowReportModelFromRows (rows : list JSObject) (year : option Z)
    : list MonthRow * Totals :=
  let months := computeMonthlyCashflow rows year (Some (js "DATE")) in
  (months, computeCashflowTotals months).

(* ================================================================== *)
(** ** app.js *)

(** A run of slashes at the end of the text; a slash or a backslash; a
    character other than a letter, a digit, a dot, an underscore and a
    hyphen; a run of underscores at the start of the text. *)
Definition re_trailingSlashes : regex := Cat (plus (chr 47)) Eos.
Definition re_pathSeparator : regex := Cls (fun c => N.eqb c 47 || N.eqb c 92).
Definition re_notNameChar : regex :=
  Cls (fun c => negb (isLower c || isUpper c || isDigit c
                      || N.eqb c 46 || N.eqb c 95 || N.eqb c 45)).
Definition re_leadingUnderscores : regex := Cat Bos (plus (chr 95)).

(** [value || '']. *)
Definition orEmpty (value : JSValue) : JSValue :=
  if truthy value then value else JStr [].

Definition normalizeBasePath (value : JSValue) : jsstring :=
  let raw := trim (ToString (orEmpty value)) in
  match raw with
  | [] => []
  | _ =>
      if str_eqb raw (js "/") then []
      else
        let withLeadingSlash := if startsWith (js "/") raw then raw else js "/" ++ raw in
        let withoutTrailingSlash := replaceFirst re_trailingSlashes [] withLeadingSlash in
        if str_eqb withoutTrailingSlash (js "/") then [] else withoutTrailingSlash
  end.

Definition normalizeBaseUrl (value : JSValue) : jsstring :=
  let raw := trim (ToString (orEmpty value)) in
  match raw with
  | [] => []
  | _ => replaceFirst re_trailingSlashes [] raw
  end.

(** The name under which the route stores an upload: [originalName] is
    [String(filename ?? 'upload')]. *)
Definition safeName (filename : JSValue) : jsstring :=
  let originalName := ToString (nullish filename (JStr (js "upload"))) in
  let cleaned :=
    replaceFirst re_leadingUnderscores []
      (slice 0 120
         (replaceAll re_notNameChar (js "_")
            (replaceAll re_pathSeparator (js "_") originalName))) in
  match cleaned with
  | [] => js "upload"
  | _ => cleaned
  end.

(* ================================================================== *)
(** ** Specification-level definitions, continued *)

(** Each character of the five replaced by its entity. *)
Definition escapeChar (c : N) : jsstring :=
  if N.eqb c 38 then js "&amp;"
  else if N.eqb c 60 then js "&lt;"
  else if N.eqb c 62 then js "&gt;"
  else if N.eqb c 34 then js "&quot;"
  else if N.eqb c 39 then js "&#039;"
  else [c].

Definition isMarkup (c : N) : bool :=
  N.eqb c 60 || N.eqb c 62 || N.eqb c 34 || N.eqb c 39.

(** Every unit of the class replaced by [by_]. *)
Definition substitute (p : N -> bool) (by_ : jsstring) (s : jsstring) : jsstring :=
  flat_map (fun c => if p c then by_ else [c]) s.

(** The state of the matcher after [n] more units of the input. *)
Fixpoint advance (st : mstate) (n : nat) : mstate :=
  match n with
  | O => st
  | S n' =>
      match ms_rest st with
      | c :: t => advance (MState (Some c) t (S (ms_pos st)) (ms_caps st)) n'
      | [] => st
      end
  end.

(** The length of the run of units of the class at the start of the text. *)
Fixpoint runLength (p : N -> bool) (s : jsstring) : nat :=
  match s with
  | c :: t => if p c then S (runLength p t) else O
  | [] => O
  end.

(** [n] is within the upper bound of an iteration. *)
Definition withinHi (hi : option nat) (n : nat) : bool :=
  match hi with Some h => Nat.leb n h | None => true end.

(** The next unit of the input is in the class. *)
Definition nextIs (p : N -> bool) (st : mstate) : bool :=
  match ms_rest st with c :: _ => p c | [] => false end.

(** The year and the month after a month. *)
Definition nextMonth (y m : Z) : Z * Z := if m =? 12 then (y + 1, 1) else (y, m + 1).

(** Every maximal run of units of the class replaced by [by_]; [inRun] says
    that the unit before belongs to a run already replaced. *)
Fixpoint collapseRun (p : N -> bool) (by_ : jsstring) (inRun : bool) (s : jsstring) : jsstring :=
  match s with
  | [] => []
  | c :: t =>
      if p c then (if inRun then collapseRun p by_ true t else by_ ++ collapseRun p by_ true t)
      else c :: collapseRun p by_ false t
  end.

(** No unit of the class is followed by another. *)
Fixpoint noPair (p : N -> bool) (s : jsstring) : bool :=
  match s with
  | c :: t => negb (p c && match t with d :: _ => p d | [] => false end) && noPair p t
  | [] => true
  end.

(** The number of commas of a line. *)
Definition commas (s : jsstring) : nat := List.length (filter (N.eqb 44) s).

(** Not a blank, not a dot and not a small letter. *)
Definition isHeaderChar (c : N) : bool :=
  negb (isWhiteSpace c) && negb (N.eqb 46 c) && negb (isLower c).

(** The text split at its first hyphen, each part trimmed; a text without
    hyphen is the code. *)
Definition splitAtHyphen (raw : jsstring) : jsstring * jsstring :=
  match raw with
  | [] => ([], [])
  | _ =>
      match indexOf (js "-") raw with
      | None => (raw, [])
      | Some idx => (trim (slice 0 idx raw), trim (sliceFrom (S idx) raw))
      end
  end.

(** A row with the required columns and a code that is not empty. *)
Definition loadedRow (row : JSObject) : Prop :=
  forallb (hasProp row) required = true
  /\ exists cd, getProp row (js "CD") = JStr cd /\ cd <> [].

(** The messages of the errors the loader raises itself. *)
Definition loaderMessages : list jsstring :=
  [ js "Missing file data";
    js "Unsupported file type. Upload a .csv or .xlsx";
    js "Could not find header row (CD, NUMBER, DATE, ...) in CSV";
    js "No ledger rows found";
    js "XLSX has no sheets";
    js "XLSX first sheet missing" ].

(** The year [Date.UTC] takes for a year field: 1900 more below 100. *)
Definition centuryYear (year : Z) : Z := if year <=? 99 then 1900 + year else year.

(** The debit and the credit are finite numbers and one of them is zero. *)
Definition oneSided (row : JSObject) : Prop :=
  exists d c, getProp row (js "PHP_DEBIT") = JNum d /\ getProp row (js "PHP_CREDIT") = JNum c
              /\ is_finite d = true /\ is_finite c = true
              /\ (d = zero \/ c = zero).

(** One when the scan holds a block that is not flushed yet. *)
Definition pending (st : scanState) : nat :=
  match sc_currentBlock st with Some _ => 1%nat | None => 0%nat end.

(** Zero, a positive number or positive infinity. *)
Definition notNegative (x : float) : Prop := (0 <=? x)%float = true.

(** The amount of a field that counts is not negative. *)
Definition amountNotNegative (v : JSValue) : Prop :=
  forall x, amountOf v = Some x -> notNegative x.

(** No field of the bucket is negative or NaN. *)
Definition bucketNotNegative (b : MonthRow) : Prop :=
  notNegative (deposit b) /\ notNegative (withdraw b) /\ notNegative (dividends b).

(** A letter, a digit, a dot, an underscore or a hyphen. *)
Definition isNameChar (c : N) : bool :=
  isLower c || isUpper c || isDigit c || N.eqb c 46 || N.eqb c 95 || N.eqb c 45.

(** The text without the run of [p] at its end. *)
Fixpoint stripEnd (p : N -> bool) (s : jsstring) : jsstring :=
  match s with
  | [] => []
  | c :: t => if forallb p (c :: t) then [] else c :: stripEnd p t
  end.

(* ================================================================== *)
(** ** Properties *)

Unset Implicit Arguments.

(** *** Case mapping *)

Lemma codePoints_ascii s : forallb isAscii s = true -> codePoints s = s.
Proof.
  induction s as [|c r IH]; [reflexivity|]. cbn [forallb]. intros H.
  apply andb_true_iff in H as [Hc Hr]. destruct r as [|d r']; [reflexivity|].
  change (codePoints (c :: d :: r'))
    with (if isHighSurrogate c && isLowSurrogate d
          then (65536 + (c - 55296) * 1024 + (d - 56320))%N :: codePoints r'
          else c :: codePoints (d :: r')).
  assert (isHighSurrogate c = false) as ->.
  { unfold isAscii in Hc. apply N.ltb_lt in Hc. unfold isHighSurrogate, inRange.
    apply andb_false_iff. left. apply N.leb_gt. lia. }
  cbn [andb]. f_equal. apply IH. exact Hr.
Qed.

Lemma toUpperCase_ascii s : forallb isAscii s = true -> toUpperCase s = map upperChar s.
Proof.
  intros H. unfold toUpperCase. rewrite (codePoints_ascii s H).
  induction s as [|c r IH]; [reflexivity|]. cbn [forallb] in H.
  apply andb_true_iff in H as [Hc Hr]. cbn [flat_map map].
  rewrite (upperPoint_ascii c Hc), IH by exact Hr. reflexivity.
Qed.

Lemma toUpperCase_no_lower s : forallb (fun c => negb (isLower c)) (toUpperCase s) = true.
Proof.
  unfold toUpperCase. generalize (codePoints s) as l.
  induction l as [|c l IH]; [reflexivity|].
  cbn [flat_map]. rewrite forallb_app, upperPoint_no_lower, IH. reflexivity.
Qed.

Lemma upperChar_id c : isLower c = false -> upperChar c = c.
Proof. unfold upperChar. intros ->. reflexivity. Qed.

(** An ASCII text without small letters is its own upper case. *)
Lemma toUpperCase_id s :
  forallb isAscii s = true -> forallb (fun c => negb (isLower c)) s = true ->
  toUpperCase s = s.
Proof.
  intros Ha Hl. rewrite (toUpperCase_ascii s Ha). clear Ha.
  induction s as [|c r IH]; [reflexivity|]. cbn [forallb] in Hl.
  apply andb_true_iff in Hl as [Hc Hr]. apply negb_true_iff in Hc.
  cbn [map]. rewrite (upperChar_id c Hc), IH by exact Hr. reflexivity.
Qed.

(** *** Floating-point facts *)

Lemma SFcompare_refl_finite s m e :
  SFcompare (S754_finite s m e) (S754_finite s m e) = Some Eq.
Proof.
  simpl. rewrite Z.compare_refl.
  assert (Pos.compare_cont Eq m m = Eq) as -> by apply Pos.compare_cont_refl.
  destruct s; reflexivity.
Qed.

Lemma Prim2SF_zero : Prim2SF zero = S754_zero false.
Proof. reflexivity. Qed.

Lemma Prim2SF_infinity : Prim2SF infinity = S754_infinity false.
Proof. reflexivity. Qed.

Lemma is_nan_spec x :
  is_nan x = match Prim2SF x with S754_nan => true | _ => false end.
Proof.
  unfold is_nan. rewrite eqb_spec. unfold SFeqb.
  destruct (Prim2SF x) as [s| s| |s m e]; try (destruct s; reflexivity); try reflexivity.
  rewrite SFcompare_refl_finite. reflexivity.
Qed.

Lemma is_zero_spec x :
  is_zero x = match Prim2SF x with S754_zero _ => true | _ => false end.
Proof.
  unfold is_zero. rewrite eqb_spec, Prim2SF_zero. unfold SFeqb.
  destruct (Prim2SF x) as [s| s| |s m e]; try (destruct s; reflexivity); reflexivity.
Qed.

Lemma is_infinity_spec x :
  is_infinity x = match Prim2SF x with S754_infinity _ => true | _ => false end.
Proof.
  unfold is_infinity. rewrite eqb_spec, abs_spec, Prim2SF_infinity. unfold SFeqb.
  destruct (Prim2SF x) as [s| s| |s m e]; reflexivity.
Qed.

Lemma is_finite_spec x :
  is_finite x = match Prim2SF x with
                | S754_zero _ | S754_finite _ _ _ => true
                | _ => false
                end.
Proof.
  unfold is_finite. rewrite is_nan_spec, is_infinity_spec.
  destruct (Prim2SF x); reflexivity.
Qed.

Lemma is_finite_opp x : is_finite (- x) = is_finite x.
Proof.
  rewrite !is_finite_spec, opp_spec. destruct (Prim2SF x); reflexivity.
Qed.

(** The magnitude of a finite number is not negative. *)
Lemma magnitude_nonneg x :
  is_finite x = true -> (0 <=? (if x <? 0 then - x else x))%float = true.
Proof.
  rewrite is_finite_spec. intros Hf.
  rewrite ltb_spec. change (Prim2SF 0%float) with (S754_zero false).
  destruct (Prim2SF x) as [s| s| |s m e] eqn:E; try discriminate.
  - unfold SFltb; simpl. rewrite leb_spec, E. reflexivity.
  - unfold SFltb; simpl. destruct s.
    + rewrite leb_spec, opp_spec, E. reflexivity.
    + rewrite leb_spec, E. reflexivity.
Qed.

(** Rounding never yields NaN. *)
Lemma shr_1_nonneg mrs : (0 <= shr_m mrs)%Z -> (0 <= shr_m (shr_1 mrs))%Z.
Proof.
  destruct mrs as [m r s]; simpl. destruct m as [|p|p]; simpl; try lia.
  - destruct p; simpl; lia.
Qed.

Lemma iter_shr_1_nonneg p : forall mrs,
  (0 <= shr_m mrs)%Z -> (0 <= shr_m (iter_pos shr_1 p mrs))%Z.
Proof.
  induction p; intros mrs H; simpl; auto using shr_1_nonneg.
Qed.

Lemma shr_fexp_nonneg prec emax m e l :
  (0 <= m)%Z -> (0 <= shr_m (fst (shr_fexp prec emax m e l)))%Z.
Proof.
  intros H. unfold shr_fexp, shr.
  assert (0 <= shr_m (shr_record_of_loc m l))%Z as H0
    by (destruct l as [|[]]; simpl; exact H).
  destruct (fexp prec emax (Zdigits2 m + e) - e)%Z; simpl; auto using iter_shr_1_nonneg.
Qed.

Lemma round_nearest_even_nonneg m l : (0 <= m)%Z -> (0 <= round_nearest_even m l)%Z.
Proof.
  intros H. destruct l as [|[]]; simpl; try lia. destruct (Z.even m); lia.
Qed.

Lemma binary_round_aux_not_nan prec emax sx mx ex lx :
  (0 <= mx)%Z -> binary_round_aux prec emax sx mx ex lx <> S754_nan.
Proof.
  intros H. unfold binary_round_aux.
  pose proof (shr_fexp_nonneg prec emax mx ex lx H) as H1.
  destruct (shr_fexp prec emax mx ex lx) as [mrs' e']. simpl in H1.
  pose proof (shr_fexp_nonneg prec emax
                (round_nearest_even (shr_m mrs') (loc_of_shr_record mrs')) e' loc_Exact
                (round_nearest_even_nonneg _ _ H1)) as H2.
  destruct (shr_fexp prec emax _ e' loc_Exact) as [mrs'' e'']. simpl in H2.
  destruct (shr_m mrs'') as [|p|p]; try discriminate; try lia.
  destruct (e'' <=? emax - prec)%Z; discriminate.
Qed.

Lemma binary_normalize_not_nan prec emax m e sz :
  binary_normalize prec emax m e sz <> S754_nan.
Proof.
  unfold binary_normalize, binary_round.
  destruct m as [|p|p]; try discriminate;
    destruct (shl_align _ _ _) as [mz ez]; apply binary_round_aux_not_nan; lia.
Qed.

(** Adding a finite number to a number that is not NaN does not give NaN. *)
Lemma add_finite_not_nan t x :
  is_nan t = false -> is_finite x = true -> is_nan (t + x) = false.
Proof.
  rewrite !is_nan_spec, is_finite_spec, add_spec. unfold SF64add, SFadd.
  destruct (Prim2SF t) as [st| st| |st mt et]; try discriminate;
    destruct (Prim2SF x) as [sx| sx| |sx mx ex]; try discriminate; intros _ _;
    try reflexivity; try (destruct st, sx; reflexivity).
  pose proof (binary_normalize_not_nan prec emax
    (cond_Zopp st (Z.pos (fst (shl_align mt et (Z.min et ex))))
     + cond_Zopp sx (Z.pos (fst (shl_align mx ex (Z.min et ex)))))%Z (Z.min et ex) false) as H.
  destruct (binary_normalize _ _ _ _ _); congruence.
Qed.

(** *** parseAmount *)

Lemma parseAmount_finite v x : parseAmount v = Some x -> is_finite x = true.
Proof.
  unfold parseAmount.
  set (fromText := match trim (ToString v) with [] => None | _ => _ end).
  assert (Htext : fromText = Some x -> is_finite x = true).
  { subst fromText. destruct (trim (ToString v)) as [|c raw]; [discriminate|].
    destruct (_ || _); [discriminate|].
    destruct (replaceAll re_parenComma [] _) as [|c' stripped]; [discriminate|].
    destruct (is_finite (StringToNumber (c' :: stripped))) eqn:Hfin; [|discriminate].
    simpl. intros [= <-]. destruct (_ && _); [rewrite is_finite_opp|]; exact Hfin. }
  destruct v; try discriminate; try exact Htext.
  destruct (is_finite x0) eqn:Hfin; [|exact Htext]. intros [= <-]. exact Hfin.
Qed.

Lemma parseAmount_number x : parseAmount (JNum x) = Some x \/ is_finite x = false.
Proof.
  unfold parseAmount. destruct (is_finite x); [left; reflexivity | right; reflexivity].
Qed.

(** C8.  [parseAmount] reads an amount in parentheses as negative
    ("(1,234.56)" is -1234.56), gives nothing for a lone dash and for the
    empty text, returns a finite number as it is, and on every value either
    gives nothing or gives a finite number: it is total, and the absent
    result is its only failure. *)
Theorem parseAmount_contract :
  parseAmount (JStr (js "(1,234.56)")) = Some (-1234.56)%float
  /\ parseAmount (JStr (js "-")) = None
  /\ parseAmount (JStr (js "")) = None
  /\ parseAmount (JNum 1000) = Some 1000%float
  /\ (forall x, parseAmount (JNum x) = Some x \/ is_finite x = false)
  /\ (forall v, parseAmount v = None
                \/ exists x, parseAmount v = Some x /\ is_finite x = true).
Proof.
  split; [vm_compute; reflexivity|].
  split; [vm_compute; reflexivity|].
  split; [vm_compute; reflexivity|].
  split; [vm_compute; reflexivity|].
  split; [apply parseAmount_number|].
  intros v. destruct (parseAmount v) as [x|] eqn:E; [right|left; reflexivity].
  exists x. split; [reflexivity|]. eapply parseAmount_finite; eauto.
Qed.

Lemma normalizeMoney_nonneg v x : normalizeMoney v = Some x -> (0 <=? x)%float = true.
Proof.
  unfold normalizeMoney. destruct (parseAmount v) as [num|]; [|discriminate].
  destruct (is_finite num) eqn:Hfin; [|discriminate]. simpl. intros [= <-].
  apply magnitude_nonneg; assumption.
Qed.

Lemma extractMovementBackward_nonneg ls x :
  extractMovementBackward ls = Some x -> (0 <=? x)%float = true.
Proof.
  induction ls as [|l ls IH]; simpl; [discriminate|].
  destruct (test re_PHP l); simpl; auto.
  destruct (findMoneyTokensWithIndex l) as [|t ts]; auto.
  destruct (normalizeMoney _) as [mv|] eqn:E; auto.
  intros [= <-]. eapply normalizeMoney_nonneg; eauto.
Qed.

Lemma debitCredit_nonneg CD P mv :
  (forall x, mv = Some x -> (0 <=? x)%float = true) ->
  (0 <=? fst (debitCredit CD P mv))%float = true
  /\ (0 <=? snd (debitCredit CD P mv))%float = true.
Proof.
  intros H. unfold debitCredit. destruct mv as [x|]; [|split; reflexivity].
  specialize (H x eq_refl).
  destruct (_ && _); [|split; reflexivity].
  destruct (_ || _); [split; reflexivity|].
  destruct (_ || _); split; simpl; auto.
Qed.

Lemma parseTransactionBlock_amounts block dc cc row :
  parseTransactionBlock block dc cc = Some row ->
  nonNegative (getProp row (js "PHP_DEBIT")) /\ nonNegative (getProp row (js "PHP_CREDIT")).
Proof.
  unfold parseTransactionBlock. destruct block as [|first rest]; [discriminate|].
  destruct (search re_firstLine first) as [[b m]|]; [|discriminate].
  destruct (parsePdfDateMmDdYyyy _) as [[|t]|]; try discriminate.
  destruct (parseReference _) as [CD NUMBER].
  set (P := extractParticulars _ _).
  set (mv := extractMovementAmountFromPhpLine _).
  pose proof (debitCredit_nonneg CD P mv) as H.
  destruct (debitCredit CD P mv) as [debit credit]. intros [= <-].
  destruct H as [Hd Hc].
  { intros x Hx. eapply extractMovementBackward_nonneg. exact Hx. }
  split; [exists debit | exists credit]; split; try reflexivity; assumption.
Qed.

Lemma searchFrom_Bos_later r prev pos caps rest :
  pos <> 0%nat -> searchFrom (Cat Bos r) prev pos caps rest = None.
Proof.
  revert prev pos caps. induction rest as [|c rest IH]; intros prev pos caps Hpos; simpl.
  - unfold matchAt; simpl. destruct pos; [congruence|reflexivity].
  - unfold matchAt; simpl. destruct pos; [congruence|]. simpl. apply IH. discriminate.
Qed.

Lemma search_Bos r s :
  search (Cat Bos r) s = match matchAt (Cat Bos r) (MState None s 0 []) with
                         | Some e => Some (MState None s 0 [], e)
                         | None => None
                         end.
Proof.
  unfold search. destruct s as [|c s]; simpl.
  - reflexivity.
  - destruct (matchAt _ _); [reflexivity|]. apply searchFrom_Bos_later. discriminate.
Qed.

Ltac next_char s c :=
  destruct s as [|c s]; [discriminate|]; cbn -[N.eqb isDigit];
  match goal with
  | |- context [if ?b then _ else _] => destruct b eqn:?; [|discriminate]
  end.

Lemma pdfDate_shape s b e :
  search re_pdfDate s = Some (b, e) ->
  pdfDateShape s = Some (captureNumber 1 e, captureNumber 2 e, captureNumber 3 e).
Proof.
  unfold re_pdfDate. cbn [seq]. rewrite search_Bos.
  unfold matchAt.
  next_char s c1. next_char s c2. next_char s c3. next_char s c4. next_char s c5.
  next_char s c6. next_char s c7. next_char s c8. next_char s c9. next_char s c10.
  destruct s; [|discriminate]. intros [= _ <-].
  unfold pdfDateShape, captureNumber. cbn -[N.eqb isDigit digitsToZ].
  rewrite (N.eqb_sym c3), (N.eqb_sym c6).
  repeat match goal with H : _ = true |- _ => rewrite H; clear H end.
  reflexivity.
Qed.

(** The statement's date parser accepts only the strict shape and reads it
    as month, day, year. *)
Lemma parsePdfDate_strict value d :
  parsePdfDateMmDdYyyy value = Some d ->
  exists month day year,
    pdfDateShape (trim value) = Some (month, day, year)
    /\ 1 <= month <= 12 /\ 1 <= day <= 31
    /\ d = DateUTC year (month - 1) day 12 0 0.
Proof.
  unfold parsePdfDateMmDdYyyy.
  destruct (search re_pdfDate (trim value)) as [[b e]|] eqn:E; [|discriminate].
  apply pdfDate_shape in E.
  destruct (_ || _) eqn:Hm; [discriminate|].
  destruct (_ || _) eqn:Hd in |- *; [discriminate|].
  intros [= <-]. do 3 eexists. split; [exact E|].
  apply orb_false_iff in Hm, Hd. rewrite !Z.ltb_ge in Hm, Hd.
  repeat split; try lia.
Qed.



(** *** The month map *)

Lemma mapGet_mapSet M k v k' :
  mapGet (mapSet M k v) k' = if k =? k' then Some v else mapGet M k'.
Proof.
  induction M as [|[k0 v0] M IH]; simpl.
  - reflexivity.
  - destruct (k0 =? k) eqn:E0; simpl.
    + apply Z.eqb_eq in E0; subst k0. destruct (k =? k'); reflexivity.
    + rewrite IH. destruct (k0 =? k') eqn:E1; [|reflexivity].
      apply Z.eqb_eq in E1; subst k0. rewrite Z.eqb_sym, E0. reflexivity.
Qed.

Lemma bucketOf_mapSet M k v m :
  bucketOf (mapSet M k v) m = if k =? m then v else bucketOf M m.
Proof.
  unfold bucketOf. rewrite mapGet_mapSet. destruct (k =? m); reflexivity.
Qed.

Lemma keys_mapSet M k v k' :
  In k' (map fst (mapSet M k v)) <-> k' = k \/ In k' (map fst M).
Proof.
  induction M as [|[k0 v0] M IH]; simpl.
  - intuition.
  - destruct (k0 =? k) eqn:E0; simpl.
    + apply Z.eqb_eq in E0; subst k0. intuition.
    + rewrite IH. intuition.
Qed.

Lemma NoDup_mapSet M k v : NoDup (map fst M) -> NoDup (map fst (mapSet M k v)).
Proof.
  induction M as [|[k0 v0] M IH]; simpl; intros H.
  - constructor; [intros []|constructor].
  - inversion H as [|? ? Hnin Hnd]; subst.
    destruct (k0 =? k) eqn:E0; simpl.
    + constructor; assumption.
    + constructor; [|auto]. rewrite keys_mapSet. intros [->|Hin]; [|contradiction].
      rewrite Z.eqb_refl in E0. discriminate.
Qed.

Lemma mapGet_In M k v : NoDup (map fst M) -> In (k, v) M -> mapGet M k = Some v.
Proof.
  induction M as [|[k0 v0] M IH]; simpl; intros Hnd Hin; [contradiction|].
  inversion Hnd as [|? ? Hnin Hnd']; subst.
  destruct Hin as [[= -> ->]|Hin].
  - rewrite Z.eqb_refl. reflexivity.
  - destruct (k0 =? k) eqn:E0; [|auto].
    apply Z.eqb_eq in E0; subst k0. exfalso. apply Hnin.
    change k with (fst (k, v)). apply in_map. assumption.
Qed.

(** *** The step of the aggregation against its specification *)

Lemma addedTo_plusAmount t v : addedTo t v = plusAmount t (amountOf v).
Proof.
  unfold addedTo, addMoney, amountOf, plusAmount.
  destruct (nullish v (JNum zero)); try reflexivity.
  destruct (numberTruthy x), (is_finite x); reflexivity.
Qed.

Lemma monthRow_eta b : mkMonthRow (month b) (deposit b) (withdraw b) (dividends b) = b.
Proof. destruct b; reflexivity. Qed.

Lemma cashflowStep_spec year dateField byMonth row :
  cashflowStep year dateField byMonth row = specStep year dateField byMonth row.
Proof.
  unfold cashflowStep, specStep, rowMonth.
  destruct (getProp row dateField) as [| | | | |[|t]]; try reflexivity.
  destruct (yearTruthy year && yearDiffers year (getFullYear t)); [reflexivity|].
  fold (bucketOf byMonth (getMonth t)).
  unfold contributionOf, classifyRow, isDividendRow, isTradeRow, description.
  cbv zeta.
  set (pLower := toLowerCase _).
  set (pUpper := toUpperCase _).
  destruct (str_eqb (rowCode row) (js "CM")
            && (includes (js "cash dividend") pLower
                || includes (js "coupon payment") pLower)).
  - unfold contribute; simpl. rewrite addedTo_plusAmount. reflexivity.
  - destruct (str_eqb (rowCode row) (js "BI") || str_eqb (rowCode row) (js "SI")).
    + unfold contribute; simpl. rewrite monthRow_eta. reflexivity.
    + destruct (str_eqb (rowCode row) (js "OR")
                && startsWith (js "FUTURE TRANSACTION") pUpper);
        unfold contribute; simpl; rewrite ?addedTo_plusAmount; reflexivity.
Qed.

Lemma fold_left_ext_eq (A B : Type) (f g : A -> B -> A) l a :
  (forall x y, f x y = g x y) -> fold_left f l a = fold_left g l a.
Proof.
  intros H. revert a. induction l as [|y l IH]; intros a; simpl; [reflexivity|].
  rewrite H. apply IH.
Qed.

Lemma bucketOf_fold year dateField rows : forall M m,
  bucketOf (fold_left (cashflowStep year dateField) rows M) m
  = fold_left (monthStep year dateField m) rows (bucketOf M m).
Proof.
  induction rows as [|row rows IH]; intros M m; simpl; [reflexivity|].
  rewrite IH. f_equal. rewrite cashflowStep_spec. unfold specStep, monthStep.
  destruct (rowMonth year dateField row) as [m'|]; [|reflexivity].
  rewrite bucketOf_mapSet. destruct (m' =? m) eqn:E; [|reflexivity].
  apply Z.eqb_eq in E; subst. reflexivity.
Qed.

Lemma bucketOf_aggregate year dateField rows m :
  bucketOf (fold_left (cashflowStep year dateField) rows []) m
  = monthTotal year dateField rows m.
Proof. rewrite bucketOf_fold. reflexivity. Qed.

Lemma keys_fold year dateField rows : forall M k,
  In k (map fst (fold_left (cashflowStep year dateField) rows M))
  <-> In k (map fst M) \/ exists row, In row rows /\ rowMonth year dateField row = Some k.
Proof.
  induction rows as [|row rows IH]; intros M k; simpl.
  - split; [auto|]. intros [H|[row [[] _]]]. exact H.
  - rewrite IH, cashflowStep_spec. unfold specStep.
    destruct (rowMonth year dateField row) as [m'|] eqn:E.
    + rewrite keys_mapSet. split.
      * intros [[->|H]|[r [Hin Hr]]]; eauto.
      * intros [H|[r [[<-|Hin] Hr]]]; eauto.
        rewrite E in Hr. injection Hr as ->. auto.
    + split.
      * intros [H|[r [Hin Hr]]]; eauto.
      * intros [H|[r [[<-|Hin] Hr]]]; eauto. congruence.
Qed.

Lemma NoDup_fold year dateField rows : forall M,
  NoDup (map fst M) -> NoDup (map fst (fold_left (cashflowStep year dateField) rows M)).
Proof.
  induction rows as [|row rows IH]; intros M H; simpl; [exact H|].
  apply IH. rewrite cashflowStep_spec. unfold specStep.
  destruct (rowMonth year dateField row); [apply NoDup_mapSet|]; exact H.
Qed.

(** *** Sorting the entries *)

Lemma In_insertByKey e l x : In x (insertByKey e l) <-> x = e \/ In x l.
Proof.
  induction l as [|y l IH]; simpl.
  - intuition.
  - destruct (fst e <? fst y); simpl; [intuition|]. rewrite IH. intuition.
Qed.

Lemma In_sortByKey l x : In x (sortByKey l) <-> In x l.
Proof.
  induction l as [|y l IH]; simpl; [reflexivity|].
  rewrite In_insertByKey, IH. intuition.
Qed.

Lemma keys_insertByKey e l k :
  In k (map fst (insertByKey e l)) <-> k = fst e \/ In k (map fst l).
Proof.
  induction l as [|y l IH]; simpl.
  - intuition.
  - destruct (fst e <? fst y); simpl; [intuition|]. rewrite IH. intuition.
Qed.

Lemma keys_sortByKey l k : In k (map fst (sortByKey l)) <-> In k (map fst l).
Proof.
  induction l as [|y l IH]; simpl; [reflexivity|].
  rewrite keys_insertByKey, IH. intuition.
Qed.

Lemma sorted_insertByKey e l :
  StronglySorted Z.lt (map fst l) -> ~ In (fst e) (map fst l) ->
  StronglySorted Z.lt (map fst (insertByKey e l)).
Proof.
  induction l as [|y l IH]; simpl; intros Hs Hn.
  - constructor; constructor.
  - inversion Hs as [|? ? Hs' Hall]; subst.
    destruct (fst e <? fst y) eqn:E; simpl.
    + apply Z.ltb_lt in E. constructor; [exact Hs|].
      constructor; [exact E|]. eapply Forall_impl; [|exact Hall]. simpl. lia.
    + apply Z.ltb_ge in E. constructor.
      * apply IH; [exact Hs'|]. intros Hin. apply Hn. right. exact Hin.
      * apply Forall_forall. intros k Hk. apply keys_insertByKey in Hk.
        destruct Hk as [->|Hk].
        -- assert (fst e <> fst y) by (intros Heq; apply Hn; left; symmetry; exact Heq). lia.
        -- rewrite Forall_forall in Hall. auto.
Qed.

Lemma sorted_sortByKey l :
  NoDup (map fst l) -> StronglySorted Z.lt (map fst (sortByKey l)).
Proof.
  induction l as [|y l IH]; simpl; intros H; [constructor|].
  inversion H; subst. apply sorted_insertByKey; [auto|].
  rewrite keys_sortByKey. assumption.
Qed.

Lemma monthTotal_month year dateField rows m :
  month (monthTotal year dateField rows m) = month (initMonthRow m).
Proof.
  unfold monthTotal. generalize (initMonthRow m) as b.
  induction rows as [|row rows IH]; intros b; simpl; [reflexivity|].
  rewrite IH. unfold monthStep.
  destruct (rowMonth year dateField row) as [m'|]; [|reflexivity].
  destruct (m' =? m); reflexivity.
Qed.

Lemma monthTotal_idle year dateField rows m :
  (forall row, In row rows -> rowMonth year dateField row <> Some m) ->
  monthTotal year dateField rows m = initMonthRow m.
Proof.
  unfold monthTotal. generalize (initMonthRow m) as b.
  induction rows as [|row rows IH]; intros b H; simpl; [reflexivity|].
  assert (Hrow := H row (or_introl eq_refl)). unfold monthStep at 2.
  destruct (rowMonth year dateField row) as [m'|].
  - destruct (m' =? m) eqn:E.
    + apply Z.eqb_eq in E. subst. congruence.
    + apply IH. intros r Hr. apply H. right. exact Hr.
  - apply IH. intros r Hr. apply H. right. exact Hr.
Qed.

Lemma rowMonth_in_year y dateField row m :
  y <> 0 ->
  (rowMonth (Some y) dateField row = Some m
   <-> exists t, getProp row dateField = JDate (DateAt t)
                 /\ getFullYear t = y /\ getMonth t = m).
Proof.
  intros Hy. unfold rowMonth, yearTruthy, yearDiffers.
  assert ((y =? 0) = false) as -> by (apply Z.eqb_neq; exact Hy). simpl.
  destruct (getProp row dateField) as [| | | | |[|t]];
    try (split; [discriminate|intros [t' [[=] _]]]).
  destruct (getFullYear t =? y) eqn:E; simpl.
  - apply Z.eqb_eq in E. split.
    + intros [= <-]. exists t. auto.
    + intros [t' [[= <-] [_ <-]]]. reflexivity.
  - apply Z.eqb_neq in E. split; [discriminate|].
    intros [t' [[= <-] [Hy' _]]]. contradiction.
Qed.

Lemma aggregate_year rows year dateFieldOption :
  yearTruthy year = true ->
  computeMonthlyCashflow rows year dateFieldOption
  = map (monthTotal year (dateFieldOf dateFieldOption) rows) monthIndices.
Proof.
  intros Hy. unfold computeMonthlyCashflow. rewrite Hy.
  fold (dateFieldOf dateFieldOption).
  apply map_ext. intros m. apply (bucketOf_aggregate year (dateFieldOf dateFieldOption) rows m).
Qed.

Lemma aggregate_no_year rows year dateFieldOption :
  yearTruthy year = false ->
  exists months,
    StronglySorted Z.lt months
    /\ (forall m, In m months
                  <-> exists row, In row rows
                                  /\ rowMonth year (dateFieldOf dateFieldOption) row = Some m)
    /\ computeMonthlyCashflow rows year dateFieldOption
       = map (monthTotal year (dateFieldOf dateFieldOption) rows) months.
Proof.
  intros Hy. unfold computeMonthlyCashflow. rewrite Hy.
  fold (dateFieldOf dateFieldOption).
  set (df := dateFieldOf dateFieldOption).
  set (M := fold_left (cashflowStep year df) rows []).
  assert (Hnd : NoDup (map fst M)) by (apply NoDup_fold; constructor).
  exists (map fst (sortByKey M)). split; [|split].
  - apply sorted_sortByKey. exact Hnd.
  - intros m. rewrite keys_sortByKey. unfold M. rewrite keys_fold. simpl. tauto.
  - rewrite map_map. apply map_ext_in. intros [k v] Hin. simpl.
    rewrite In_sortByKey in Hin.
    rewrite <- (bucketOf_aggregate year df rows k). fold M.
    unfold bucketOf. rewrite (mapGet_In M k v Hnd Hin). reflexivity.
Qed.

Lemma plusAmount_not_nan t v :
  is_nan t = false -> is_nan (plusAmount t (amountOf v)) = false.
Proof.
  intros Ht. unfold amountOf. destruct (nullish v (JNum zero)); simpl; auto.
  destruct (numberTruthy x); simpl; auto.
  destruct (is_finite x) eqn:Hf; simpl; auto using add_finite_not_nan.
Qed.

Lemma contribute_noNaN b row : noNaN b -> noNaN (contribute b (contributionOf row)).
Proof.
  intros (Hd & Hw & Hv). unfold contributionOf.
  destruct (classifyRow row); repeat split; simpl; auto using plusAmount_not_nan.
Qed.

Lemma monthTotal_noNaN year dateField rows m : noNaN (monthTotal year dateField rows m).
Proof.
  unfold monthTotal.
  assert (H : noNaN (initMonthRow m)) by (repeat split).
  revert H. generalize (initMonthRow m) as b.
  induction rows as [|row rows IH]; intros b H; simpl; [exact H|].
  apply IH. unfold monthStep.
  destruct (rowMonth year dateField row) as [m'|]; [|exact H].
  destruct (m' =? m); [apply contribute_noNaN|]; exact H.
Qed.

Lemma addedTo_skip target amount :
  truthy amount = false \/ isFiniteNumber amount = false -> addedTo target amount = target.
Proof.
  unfold addedTo, addMoney. intros H.
  destruct amount as [| |b|x|s|d]; simpl; try reflexivity.
  destruct H as [H|H]; simpl in H; rewrite H; simpl; rewrite ?orb_true_r; reflexivity.
Qed.

(** *** The movement of a block *)

Lemma pickToken_rev (tokens : list (jsstring * nat)) :
  pickToken tokens = match rev tokens with
                     | [] => ([], O)
                     | [only] => only
                     | _ :: secondToLast :: _ => secondToLast
                     end.
Proof.
  rewrite <- (rev_involutive tokens) at 1.
  destruct (rev tokens) as [|a [|b r]]; try reflexivity.
  unfold pickToken. simpl rev. rewrite <- !app_assoc. simpl app.
  rewrite !length_app. simpl List.length.
  replace (Nat.leb 2 (List.length (rev r) + 2)) with true
    by (symmetry; apply Nat.leb_le; lia).
  replace (List.length (rev r) + 2 - 2)%nat with (List.length (rev r) + 0)%nat by lia.
  rewrite app_nth2_plus. reflexivity.
Qed.

Lemma lineMovement_pick line :
  lineMovement line
  = if test re_PHP line then
      match findMoneyTokensWithIndex line with
      | [] => None
      | tokens => normalizeMoney (JStr (fst (pickToken tokens)))
      end
    else None.
Proof.
  unfold lineMovement. destruct (test re_PHP line); [|reflexivity].
  destruct (findMoneyTokensWithIndex line) as [|t ts] eqn:E; [reflexivity|].
  rewrite pickToken_rev.
  destruct (rev (t :: ts)) as [|a [|b r]] eqn:Er; [|reflexivity|reflexivity].
  apply (f_equal (@rev _)) in Er. rewrite rev_involutive in Er. discriminate.
Qed.

Lemma extractMovementBackward_find ls :
  extractMovementBackward ls
  = match find (fun l => match lineMovement l with Some _ => true | None => false end) ls with
    | Some line => lineMovement line
    | None => None
    end.
Proof.
  induction ls as [|l ls IH]; simpl; [reflexivity|].
  destruct (lineMovement l) as [mv|] eqn:E; simpl; rewrite ?E;
    rewrite lineMovement_pick in E;
    destruct (test re_PHP l); simpl; try discriminate; try exact IH;
    destruct (findMoneyTokensWithIndex l) as [|t ts]; try discriminate; try exact IH;
    rewrite E; [reflexivity|exact IH].
Qed.

Lemma extractMovement_spec blockLines :
  extractMovementAmountFromPhpLine blockLines = movementSpec blockLines.
Proof. apply extractMovementBackward_find. Qed.

Lemma parseTransactionBlock_no_movement block dc cc row :
  parseTransactionBlock block dc cc = Some row ->
  extractMovementAmountFromPhpLine block = None ->
  getProp row (js "PHP_DEBIT") = JNum zero /\ getProp row (js "PHP_CREDIT") = JNum zero.
Proof.
  unfold parseTransactionBlock. destruct block as [|first rest]; [discriminate|].
  destruct (search re_firstLine first) as [[b m]|]; [|discriminate].
  destruct (parsePdfDateMmDdYyyy _) as [[|t]|]; try discriminate.
  destruct (parseReference _) as [CD NUMBER].
  intros H Hmv. rewrite Hmv in H. unfold debitCredit in H.
  injection H as <-. split; reflexivity.
Qed.

(** *** The scan of the statement *)

Lemma scanLines_app pre : forall st rest,
  sc_currentBlock (scanLines pre st) <> None ->
  scanLines (pre ++ rest) st = scanLines rest (scanLines pre st).
Proof.
  induction pre as [|s pre IH]; intros st rest H; [reflexivity|].
  cbn [scanLines app] in *.
  destruct ((match sc_currentBlock st with Some _ => true | None => false end)
            && shouldEndTransactionSection s).
  - exfalso. apply H. reflexivity.
  - destruct (includes (js "PRICE") s && includes (js "DEBIT") s); [apply IH; exact H|].
    destruct (includes (js "CREDIT") s && includes (js "BALANCE") s); [apply IH; exact H|].
    destruct (isTransactionStartLine s); [apply IH; exact H|].
    destruct (sc_currentBlock st); apply IH; exact H.
Qed.

Lemma scanLines_section_end pre marker post st block :
  sc_currentBlock (scanLines pre st) = Some block ->
  shouldEndTransactionSection marker = true ->
  scanLines (pre ++ marker :: post) st = withBlock (flush (scanLines pre st)) None.
Proof.
  intros Hb Hm. rewrite scanLines_app by (rewrite Hb; discriminate).
  cbn [scanLines]. rewrite Hb, Hm. reflexivity.
Qed.

Lemma statementRows_section_end pre marker post block :
  sc_currentBlock (scanLines pre initialScan) = Some block ->
  shouldEndTransactionSection marker = true ->
  statementRows (pre ++ marker :: post) = statementRows pre.
Proof.
  intros Hb Hm. unfold statementRows.
  rewrite (scanLines_section_end pre marker post initialScan block Hb Hm).
  reflexivity.
Qed.

(** The rows of the scan come from [parseTransactionBlock]. *)
Lemma flush_rows (P : JSObject -> Prop) st :
  (forall block dc cc row, parseTransactionBlock block dc cc = Some row -> P row) ->
  Forall P (sc_rows st) -> Forall P (sc_rows (flush st)).
Proof.
  intros HP H. unfold flush. destruct (sc_currentBlock st) as [[|l b]|]; try exact H.
  cbn [sc_rows].
  destruct (parseTransactionBlock (l :: b) (sc_debitColIndex st) (sc_creditColIndex st))
    as [r|] eqn:E; [|exact H].
  destruct (isCodeBlank r); [exact H|].
  apply Forall_app. split; [exact H|]. constructor; [|constructor]. eapply HP; eauto.
Qed.

Lemma scanLines_rows (P : JSObject -> Prop) lines :
  (forall block dc cc row, parseTransactionBlock block dc cc = Some row -> P row) ->
  forall st, Forall P (sc_rows st) -> Forall P (sc_rows (scanLines lines st)).
Proof.
  intros HP. induction lines as [|s lines IH]; intros st H; cbn [scanLines]; [exact H|].
  destruct (_ && shouldEndTransactionSection s).
  - simpl. apply flush_rows; assumption.
  - destruct (includes (js "PRICE") s && includes (js "DEBIT") s).
    { apply IH. destruct (indexOf _ s); exact H. }
    destruct (includes (js "CREDIT") s && includes (js "BALANCE") s).
    { apply IH. destruct (indexOf _ s); exact H. }
    destruct (isTransactionStartLine s).
    { apply IH. simpl. apply flush_rows; assumption. }
    destruct (sc_currentBlock st); apply IH; exact H.
Qed.

Lemma statementRows_from_blocks (P : JSObject -> Prop) lines :
  (forall block dc cc row, parseTransactionBlock block dc cc = Some row -> P row) ->
  Forall P (statementRows lines).
Proof.
  intros HP. unfold statementRows. apply flush_rows; [exact HP|].
  apply scanLines_rows; [exact HP|constructor].
Qed.

Lemma parsePdfText_rows pdfText rows :
  parseFmsecLedgerRowsFromPdfText pdfText = Ok rows ->
  rows = statementRows
           (splitLines (replaceAll re_formFeed [] (ToString (nullish pdfText (JStr []))))).
Proof.
  unfold parseFmsecLedgerRowsFromPdfText.
  destruct (validateFmsecLedgerHeaders _); [|discriminate]. intros [= <-]. reflexivity.
Qed.

(** *** Locating the header *)

Lemma findIndexFrom_skip (A : Type) (p : A -> bool) pre : forall h rest i,
  forallb (fun x => negb (p x)) pre = true -> p h = true ->
  findIndexFrom p (pre ++ h :: rest) i = Some (i + List.length pre)%nat.
Proof.
  induction pre as [|x pre IH]; intros h rest i Hpre Hh; simpl in *.
  - rewrite Hh. f_equal. lia.
  - apply andb_true_iff in Hpre as [Hx Hpre]. apply negb_true_iff in Hx. rewrite Hx.
    rewrite IH by assumption. f_equal. lia.
Qed.

Lemma findIndexFrom_none (A : Type) (p : A -> bool) l : forall i,
  forallb (fun x => negb (p x)) l = true -> findIndexFrom p l i = None.
Proof.
  induction l as [|x l IH]; intros i H; simpl in *; [reflexivity|].
  apply andb_true_iff in H as [Hx H]. apply negb_true_iff in Hx. rewrite Hx. auto.
Qed.

Lemma nth_middle_app (A : Type) (pre : list A) h rest d :
  nth (List.length pre) (pre ++ h :: rest) d = h.
Proof. induction pre; simpl; auto. Qed.

Lemma skipn_middle_app (A : Type) (pre : list A) h rest :
  skipn (S (List.length pre)) (pre ++ h :: rest) = rest.
Proof. induction pre; simpl; auto. Qed.

Lemma worksheet_header_found pre header rest :
  forallb (fun r => negb (isWorksheetHeader r)) pre = true ->
  isWorksheetHeader header = true ->
  parseLedgerRowsFromWorksheet (pre ++ header :: rest)
  = Ok (worksheetDataRows (map normalizeHeaderCell header) rest).
Proof.
  intros Hpre Hh. unfold parseLedgerRowsFromWorksheet, findIndex.
  rewrite (findIndexFrom_skip _ _ pre header rest 0 Hpre Hh). simpl Nat.add.
  rewrite nth_middle_app, skipn_middle_app.
  destruct (pre ++ header :: rest) eqn:E; [|reflexivity].
  destruct pre; discriminate.
Qed.

Lemma worksheet_header_missing rows :
  rows <> [] ->
  forallb (fun r => negb (isWorksheetHeader r)) rows = true ->
  parseLedgerRowsFromWorksheet rows = Throw headerNotFound.
Proof.
  intros Hne H. unfold parseLedgerRowsFromWorksheet, findIndex.
  rewrite (findIndexFrom_none _ _ rows 0 H). destruct rows; [contradiction|reflexivity].
Qed.

Lemma csv_header_found pre header rest :
  forallb (fun l => negb (isCsvHeaderLine l)) pre = true ->
  isCsvHeaderLine header = true ->
  loadRowsFromCsvLines (pre ++ header :: rest)
  = Ok (csvDataRows (map (fun c => normalizeHeaderCell (JStr c)) (parseCsvLine header)) rest).
Proof.
  intros Hpre Hh. unfold loadRowsFromCsvLines, findIndex.
  rewrite (findIndexFrom_skip _ _ pre header rest 0 Hpre Hh). simpl Nat.add.
  rewrite nth_middle_app, skipn_middle_app. reflexivity.
Qed.

Lemma csv_header_missing lines :
  forallb (fun l => negb (isCsvHeaderLine l)) lines = true ->
  loadRowsFromCsvLines lines = Throw headerNotFound.
Proof.
  intros H. unfold loadRowsFromCsvLines, findIndex.
  rewrite (findIndexFrom_none _ _ lines 0 H). reflexivity.
Qed.

(** *** Dates *)

Lemma TimeClip_small t : Z.abs t <= 8640000000000000 -> TimeClip t = DateAt t.
Proof.
  intros H. unfold TimeClip.
  assert ((8640000000000000 <? Z.abs t) = false) as -> by (apply Z.ltb_ge; exact H).
  reflexivity.
Qed.

Lemma LocalTZA_bound t isUTC : - msPerDay < LocalTZA t isUTC < msPerDay.
Proof.
  pose proof (LocalTZA_range t isUTC) as H. lia.
Qed.

Lemma UTC_bound t : t - msPerDay < UTC t < t + msPerDay.
Proof. unfold UTC. pose proof (LocalTZA_bound t false). lia. Qed.

(** A local time converted to UTC and back is the same time or a later one,
    less than two days later. *)
Lemma LocalTime_UTC t : t <= LocalTime (UTC t) < t + 2 * msPerDay.
Proof.
  unfold LocalTime, UTC. pose proof (LocalTZA_forward t) as Hf.
  pose proof (LocalTZA_bound t false). pose proof (LocalTZA_bound (t - LocalTZA t false) true).
  lia.
Qed.

Lemma hasMidnight_keepsDay day : hasMidnight day -> keepsDay day.
Proof.
  unfold hasMidnight, keepsDay. intros ->. apply Z.div_mul. discriminate.
Qed.

Lemma localMidnight_at y m d :
  Z.abs (daysFromCivil y m d) <= 99999000 ->
  localMidnight y m d = DateAt (UTC (daysFromCivil y m d * msPerDay)).
Proof.
  intros H. unfold localMidnight. apply TimeClip_small.
  pose proof (UTC_bound (daysFromCivil y m d * msPerDay)) as Hb. unfold msPerDay in *. lia.
Qed.


Lemma utcFields_noon day : utcFields (day * msPerDay + 43200000) = civilFromDays day.
Proof.
  unfold utcFields. f_equal. unfold msPerDay.
  rewrite Z.div_add_l by discriminate.
  change (43200000 / 86400000) with 0. lia.
Qed.





(** *** The schema check *)

Lemma filter_negb_nil (A : Type) (p : A -> bool) l :
  filter (fun x => negb (p x)) l = [] <-> forallb p l = true.
Proof.
  induction l as [|x l IH]; simpl; [tauto|].
  destruct (p x); simpl; [exact IH|]. split; discriminate.
Qed.

Lemma validate_sample sample rest :
  validateFmsecLedgerHeaders (sample :: rest)
  = if forallb (hasProp sample) required then Ok tt
    else Throw (js "Missing required columns: "
                ++ join (js ", ") (filter (fun k => negb (hasProp sample k)) required)).
Proof.
  unfold validateFmsecLedgerHeaders.
  destruct (filter (fun k => negb (hasProp sample k)) required) as [|k ks] eqn:E.
  - apply filter_negb_nil in E. rewrite E. reflexivity.
  - destruct (forallb (hasProp sample) required) eqn:F; [|reflexivity].
    apply filter_negb_nil in F. congruence.
Qed.

(** *** The theorems *)

(** C1.  Each round of the aggregation changes the bucket of the row's month
    by the contribution of the row's class, the first matching class
    winning: a dividend row (code CM, description holding "cash dividend" or
    "coupon payment" in any case) adds its credit to the dividends only; a
    trade row (code BI or SI) adds nothing; a deposit row (code OR,
    description starting with FUTURE TRANSACTION) adds its credit to the
    deposits and, in the same round, its debit to the withdrawals; any other
    row adds its debit to the withdrawals.  The code and the description are
    compared in the case mapping of the platform: a code written with the
    long s is the code SI. *)
Theorem cashflow_first_match_wins :
  forall (year : option Z) (dateField : jsstring) (rows : list JSObject)
         (byMonth : MonthMap) (row : JSObject) (b : MonthRow),
    cashflowStep year dateField byMonth row = specStep year dateField byMonth row
    /\ fold_left (cashflowStep year dateField) rows byMonth
       = fold_left (specStep year dateField) rows byMonth
    /\ (classifyRow row = Dividend ->
        contribute b (contributionOf row)
        = mkMonthRow (month b) (deposit b) (withdraw b)
            (plusAmount (dividends b) (amountOf (getProp row (js "PHP_CREDIT")))))
    /\ (str_eqb (rowCode row) (js "BI") || str_eqb (rowCode row) (js "SI") = true ->
        classifyRow row = Trade /\ contribute b (contributionOf row) = b)
    /\ (classifyRow row = Deposit ->
        contribute b (contributionOf row)
        = mkMonthRow (month b)
            (plusAmount (deposit b) (amountOf (getProp row (js "PHP_CREDIT"))))
            (plusAmount (withdraw b) (amountOf (getProp row (js "PHP_DEBIT"))))
            (dividends b))
    /\ (classifyRow row = OtherRow ->
        contribute b (contributionOf row)
        = mkMonthRow (month b) (deposit b)
            (plusAmount (withdraw b) (amountOf (getProp row (js "PHP_DEBIT"))))
            (dividends b))
    /\ map classifyRow scenarioRows = [Deposit; Dividend; Trade]
    /\ classifyRow bothSidesRow = Deposit
    /\ classifyRow couponRow = Dividend
    /\ rowCode longSTrade = js "SI"
    /\ classifyRow longSTrade = Trade
    /\ classifyRow longSDeposit = Deposit.
Proof.
  intros year dateField rows byMonth row b.
  assert (Hrows : map classifyRow scenarioRows = [Deposit; Dividend; Trade]
                  /\ classifyRow bothSidesRow = Deposit
                  /\ classifyRow couponRow = Dividend).
  { unfold scenarioRows. cbn [map]. unfold classifyRow, rowCode.
    rewrite !toUpperCase_ascii by reflexivity.
    rewrite !toLowerCase_ascii by reflexivity.
    repeat split; vm_compute; reflexivity. }
  assert (Hcode : rowCode longSTrade = js "SI").
  { unfold rowCode.
    change (trim (ToString (nullish (getProp longSTrade (js "CD")) (JStr []))))
      with [383%N; 105%N].
    unfold toUpperCase. change (codePoints [383%N; 105%N]) with [383%N; 105%N].
    cbn [flat_map]. rewrite upperPoint_long_s, (upperPoint_ascii 105 eq_refl). reflexivity. }
  assert (Hdesc : toUpperCase (trim (description longSDeposit)) = js "FUTURE TRANSACTION").
  { change (trim (description longSDeposit))
      with (js "future tran" ++ [383%N] ++ js "action").
    unfold toUpperCase.
    change (codePoints (js "future tran" ++ [383%N] ++ js "action"))
      with (js "future tran" ++ [383%N] ++ js "action").
    cbn [js app flat_map]. rewrite upperPoint_long_s.
    rewrite !upperPoint_ascii by reflexivity. reflexivity. }
  split; [apply cashflowStep_spec|].
  split; [apply fold_left_ext_eq; intros; apply cashflowStep_spec|].
  split; [intros H; unfold contributionOf; rewrite H; reflexivity|].
  split.
  - intros H. assert (Hc : classifyRow row = Trade).
    { unfold classifyRow. rewrite H.
      destruct (str_eqb (rowCode row) (js "CM")) eqn:E; [|reflexivity].
      exfalso. unfold str_eqb in *.
      destruct (list_eq_dec N.eq_dec (rowCode row) (js "CM")) as [Heq|]; [|discriminate].
      rewrite Heq in H. vm_compute in H. discriminate. }
    split; [exact Hc|]. unfold contributionOf. rewrite Hc. apply monthRow_eta.
  - split; [intros H; unfold contributionOf; rewrite H; reflexivity|].
    split; [intros H; unfold contributionOf; rewrite H; reflexivity|].
    split; [exact (proj1 Hrows)|]. split; [exact (proj1 (proj2 Hrows))|].
    split; [exact (proj2 (proj2 Hrows))|].
    split; [exact Hcode|]. split.
    + unfold classifyRow. rewrite Hcode. reflexivity.
    + unfold classifyRow. rewrite Hdesc.
      change (rowCode longSDeposit)
        with (toUpperCase (js "OR")).
      rewrite (toUpperCase_ascii (js "OR")) by reflexivity. reflexivity.
Qed.

(** C4.  The movement of a block is the movement offered by the first line,
    scanning from the last line backward, that holds the currency marker and
    a recognizable money token, the token before the last being taken when
    there are two or more and the only token otherwise; when no line offers
    one the movement is absent, and the debit and the credit of the row are
    both zero.  So a line with a quantity, a movement in parentheses, the
    marker and a balance has three tokens and gives the movement, as a
    magnitude; a line with one token gives that token; of two currency lines
    the later one counts, the marker in either case; a marker line without an
    amount is passed over for an earlier one; and the letters of the marker
    inside a longer word are no marker. *)
Theorem movement_extraction :
  (forall blockLines : list jsstring,
     extractMovementAmountFromPhpLine blockLines = movementSpec blockLines
     /\ (forall dc cc row,
           parseTransactionBlock blockLines dc cc = Some row ->
           movementSpec blockLines = None ->
           getProp row (js "PHP_DEBIT") = JNum zero
           /\ getProp row (js "PHP_CREDIT") = JNum zero))
  /\ findMoneyTokensWithIndex (js "   0.0000   (1,000.00)  PHP   1,000.00")
     = [ (js "0.00", 3%nat); (js "(1,000.00)", 12%nat); (js "1,000.00", 30%nat) ]
  /\ extractMovementAmountFromPhpLine blockDeposit = Some 1000%float
  /\ extractMovementAmountFromPhpLine blockSingleToken = Some 7%float
  /\ extractMovementAmountFromPhpLine blockTwoCurrencyLines = Some 4%float
  /\ extractMovementAmountFromPhpLine blockMarkerWithoutAmount = Some 6%float
  /\ extractMovementAmountFromPhpLine blockLongerWord = None
  /\ extractMovementAmountFromPhpLine blockNoAmount = None.
Proof.
  split.
  { intros blockLines. split; [apply extractMovement_spec|].
    intros dc cc row Hrow Hnone. rewrite <- extractMovement_spec in Hnone.
    eapply parseTransactionBlock_no_movement; eauto. }
  repeat split; vm_compute; reflexivity.
Qed.

(** C2, as amended.  The rows of the statement adapter carry a debit and a
    credit that are numbers not below zero; the worksheet and the
    delimited-text adapters store what [parseAmount] gives for the cell, its
    sign included. *)
Theorem statement_amounts_nonnegative :
  (forall pdfText rows row,
     parseFmsecLedgerRowsFromPdfText pdfText = Ok rows -> In row rows ->
     nonNegative (getProp row (js "PHP_DEBIT"))
     /\ nonNegative (getProp row (js "PHP_CREDIT")))
  /\ (forall rawRow,
        getProp (coerceLedgerRow rawRow) (js "PHP_DEBIT")
        = ofAmount (parseAmount (getProp rawRow (js "PHP_DEBIT")))
        /\ getProp (coerceLedgerRow rawRow) (js "PHP_CREDIT")
           = ofAmount (parseAmount (getProp rawRow (js "PHP_CREDIT")))).
Proof.
  split.
  - intros pdfText rows row Hparse Hin. apply parsePdfText_rows in Hparse. subst rows.
    revert row Hin. apply Forall_forall. apply statementRows_from_blocks.
    intros block dc cc row. apply parseTransactionBlock_amounts.
  - intros rawRow. split; reflexivity.
Qed.

(** C5, as amended.  When a block is open and a section-end line arrives,
    the block is finalized as at the end of the text (its row joins the
    result when the block parses to a row with a code) and the scan stops:
    the lines after the marker do not reach the result. *)
Theorem section_end_stops_scan :
  forall (pre : list jsstring) (marker : jsstring) (post block : list jsstring),
    sc_currentBlock (scanLines pre initialScan) = Some block ->
    shouldEndTransactionSection marker = true ->
    statementRows (pre ++ marker :: post) = statementRows pre
    /\ statementRows (pre ++ marker :: post)
       = sc_rows (scanLines pre initialScan)
         ++ match block with
            | [] => []
            | _ :: _ =>
                match parseTransactionBlock block
                        (sc_debitColIndex (scanLines pre initialScan))
                        (sc_creditColIndex (scanLines pre initialScan)) with
                | Some row => if isCodeBlank row then [] else [row]
                | None => []
                end
            end
    /\ (forall pdfText,
          splitLines (replaceAll re_formFeed [] (ToString (nullish pdfText (JStr []))))
          = pre ++ marker :: post ->
          parseFmsecLedgerRowsFromPdfText pdfText
          = match validateFmsecLedgerHeaders (statementRows pre) with
            | Throw msg => Throw msg
            | Ok _ => Ok (statementRows pre)
            end).
Proof.
  intros pre marker post block Hb Hm.
  rewrite (statementRows_section_end pre marker post block Hb Hm).
  split; [reflexivity|]. split.
  2:{ intros pdfText Hlines. unfold parseFmsecLedgerRowsFromPdfText. rewrite Hlines.
      rewrite (statementRows_section_end pre marker post block Hb Hm). reflexivity. }
  unfold statementRows, flush. rewrite Hb.
  destruct block as [|l b]; [symmetry; apply app_nil_r|]. cbn [sc_rows].
  destruct (parseTransactionBlock _ _ _) as [row|]; [|symmetry; apply app_nil_r].
  destruct (isCodeBlank row); [symmetry; apply app_nil_r|reflexivity].
Qed.

(** C6, as amended.  The worksheet adapter takes as header the first row
    holding a cell that reads CD once trimmed and upper-cased, whatever rows
    come before it, and fails when a sheet with rows has none (a sheet with
    no rows gives no rows); the delimited-text adapter takes as header the
    first non-blank line that, trimmed and upper-cased, starts with
    CD,NUMBER,DATE, and fails when there is none. *)
Theorem header_location :
  (forall pre header rest,
     forallb (fun r => negb (existsb isCdCell r)) pre = true ->
     existsb isCdCell header = true ->
     parseLedgerRowsFromWorksheet (pre ++ header :: rest)
     = Ok (worksheetDataRows (map normalizeHeaderCell header) rest))
  /\ (forall rows,
        rows <> [] -> forallb (fun r => negb (existsb isCdCell r)) rows = true ->
        parseLedgerRowsFromWorksheet rows = Throw headerNotFound)
  /\ parseLedgerRowsFromWorksheet [] = Ok []
  /\ (forall pre header rest,
        forallb (fun l => negb (isCsvHeaderLine l)) pre = true ->
        isCsvHeaderLine header = true ->
        loadRowsFromCsvLines (pre ++ header :: rest)
        = Ok (csvDataRows (map (fun c => normalizeHeaderCell (JStr c)) (parseCsvLine header))
                rest))
  /\ (forall lines,
        forallb (fun l => negb (isCsvHeaderLine l)) lines = true ->
        loadRowsFromCsvLines lines = Throw headerNotFound)
  /\ (forall csvText,
        loadFmsecLedgerRowsFromCsvText csvText
        = loadRowsFromCsvLines
            (filter (fun l => negb (isBlankLine l))
               (splitLines (ToString (nullish csvText (JStr [])))))).
Proof.
  split; [exact worksheet_header_found|].
  split; [exact worksheet_header_missing|].
  split; [reflexivity|].
  split; [exact csv_header_found|].
  split; [exact csv_header_missing|].
  reflexivity.
Qed.

(** C7, as amended.  With a target year other than zero the result is the
    twelve buckets January to December, each the total of the rows whose
    valid date falls in that year and month (an idle month being the empty
    bucket); with no year, or the year zero, the result is the buckets of
    the months in which some row with a valid date counts, in ascending
    order of the month number. *)
Theorem months_of_aggregation :
  forall (rows : list JSObject) (year : option Z) (dateFieldOption : option jsstring),
    (yearTruthy year = true ->
     computeMonthlyCashflow rows year dateFieldOption
     = map (monthTotal year (dateFieldOf dateFieldOption) rows) monthIndices
     /\ List.length (computeMonthlyCashflow rows year dateFieldOption) = 12%nat
     /\ map month (computeMonthlyCashflow rows year dateFieldOption) = MONTH_LABELS)
    /\ (yearTruthy year = false ->
        exists months,
          StronglySorted Z.lt months
          /\ (forall m, In m months
                        <-> exists row, In row rows
                              /\ rowMonth year (dateFieldOf dateFieldOption) row = Some m)
          /\ computeMonthlyCashflow rows year dateFieldOption
             = map (monthTotal year (dateFieldOf dateFieldOption) rows) months)
    /\ (forall m,
          (forall row, In row rows ->
                       rowMonth year (dateFieldOf dateFieldOption) row <> Some m) ->
          monthTotal year (dateFieldOf dateFieldOption) rows m = initMonthRow m)
    /\ (forall m, deposit (initMonthRow m) = zero /\ withdraw (initMonthRow m) = zero
                  /\ dividends (initMonthRow m) = zero)
    /\ (forall y dateField row m,
          y <> 0 ->
          (rowMonth (Some y) dateField row = Some m
           <-> exists t, getProp row dateField = JDate (DateAt t)
                         /\ getFullYear t = y /\ getMonth t = m)).
Proof.
  intros rows year dateFieldOption.
  split; [|split; [apply aggregate_no_year|split; [apply monthTotal_idle|split]]].
  - intros Hy. rewrite (aggregate_year rows year dateFieldOption Hy).
    split; [reflexivity|]. split; [reflexivity|].
    rewrite map_map. cbn [map monthIndices]. rewrite !monthTotal_month. reflexivity.
  - intros m. repeat split.
  - intros y dateField row m. apply rowMonth_in_year.
Qed.

(** C10, as amended.  No field of a bucket is ever NaN, and a contribution
    that is falsy or not a finite number leaves the field as it was; a field
    is finite as long as the running sum of its finite contributions stays
    within the range of a double. *)
Theorem buckets_never_nan :
  forall (rows : list JSObject) (year : option Z) (dateFieldOption : option jsstring),
    Forall noNaN (computeMonthlyCashflow rows year dateFieldOption)
    /\ (forall target amount,
          truthy amount = false \/ isFiniteNumber amount = false ->
          addedTo target amount = target)
    /\ (forall target amount,
          addedTo target amount = target
          \/ exists x, amount = JNum x /\ is_finite x = true
                       /\ addedTo target amount = (target + x)%float).
Proof.
  intros rows year dateFieldOption. split; [|split].
  - destruct (yearTruthy year) eqn:Hy.
    + rewrite (aggregate_year rows year dateFieldOption Hy).
      apply Forall_forall. intros b Hb. apply in_map_iff in Hb as [m [<- _]].
      apply monthTotal_noNaN.
    + destruct (aggregate_no_year rows year dateFieldOption Hy) as [months [_ [_ ->]]].
      apply Forall_forall. intros b Hb. apply in_map_iff in Hb as [m [<- _]].
      apply monthTotal_noNaN.
  - apply addedTo_skip.
  - intros target amount. unfold addedTo, addMoney.
    destruct amount as [| |b|x|s|d]; simpl; auto.
    destruct (numberTruthy x); simpl; auto.
    destruct (is_finite x) eqn:Hf; simpl; auto. right. exists x. auto.
Qed.

(** C9.  The loader refuses a missing or empty buffer, hands a csv file to
    the delimited-text adapter and an xlsx or xls file to the worksheet
    adapter, refuses any other extension, and validates the rows of the
    adapter: the check passes when the first row has the five required
    fields, whatever their values, and otherwise fails with a message that
    lists the missing ones. *)
Theorem loader_dispatch_and_schema :
  (forall filename,
     loadFmsecLedgerRowsFromBuffer filename None = Throw (js "Missing file data")
     /\ loadFmsecLedgerRowsFromBuffer filename (Some []) = Throw (js "Missing file data"))
  /\ (forall filename b bs,
        str_eqb (getExtension filename) (js "csv") = true ->
        loadFmsecLedgerRowsFromBuffer filename (Some (b :: bs))
        = andValidate (loadFmsecLedgerRowsFromCsvText (JStr (utf8ToString (b :: bs)))))
  /\ (forall filename b bs,
        str_eqb (getExtension filename) (js "xlsx")
        || str_eqb (getExtension filename) (js "xls") = true ->
        loadFmsecLedgerRowsFromBuffer filename (Some (b :: bs))
        = match XLSX_read (b :: bs) with
          | Throw msg => Throw msg
          | Ok wb => match pickFirstSheet wb with
                     | Throw msg => Throw msg
                     | Ok ws => andValidate (parseLedgerRowsFromWorksheet ws)
                     end
          end)
  /\ (forall filename b bs,
        str_eqb (getExtension filename) (js "csv") = false ->
        str_eqb (getExtension filename) (js "xlsx") = false ->
        str_eqb (getExtension filename) (js "xls") = false ->
        loadFmsecLedgerRowsFromBuffer filename (Some (b :: bs))
        = Throw (js "Unsupported file type. Upload a .csv or .xlsx"))
  /\ (forall rows, andValidate (Ok rows)
                   = match validateFmsecLedgerHeaders rows with
                     | Throw msg => Throw msg
                     | Ok _ => Ok rows
                     end)
  /\ validateFmsecLedgerHeaders [] = Throw (js "No ledger rows found")
  /\ (forall sample rest,
        validateFmsecLedgerHeaders (sample :: rest)
        = if forallb (hasProp sample) required then Ok tt
          else Throw (js "Missing required columns: "
                      ++ join (js ", ")
                           (filter (fun k => negb (hasProp sample k)) required)))
  /\ required = [js "CD"; js "DATE"; js "PARTICULARS"; js "PHP_DEBIT"; js "PHP_CREDIT"]
  /\ (forall rest, validateFmsecLedgerHeaders (map (fun k => (k, JNull)) required :: rest)
                   = Ok tt).
Proof.
  split; [intros filename; split; reflexivity|].
  split.
  { intros filename b bs H. unfold loadFmsecLedgerRowsFromBuffer. rewrite H. reflexivity. }
  split.
  { intros filename b bs H. unfold loadFmsecLedgerRowsFromBuffer. rewrite H.
    destruct (str_eqb (getExtension filename) (js "csv")) eqn:E; [|reflexivity].
    exfalso. unfold str_eqb in *.
    destruct (list_eq_dec N.eq_dec (getExtension filename) (js "csv")) as [Heq|];
      [|discriminate].
    rewrite Heq in H. vm_compute in H. discriminate. }
  split.
  { intros filename b bs H1 H2 H3. unfold loadFmsecLedgerRowsFromBuffer.
    rewrite H1, H2, H3. reflexivity. }
  split; [reflexivity|].
  split; [reflexivity|].
  split; [exact validate_sample|].
  split; reflexivity.
Qed.

Section ReplaceSteps.
Close Scope Z_scope.

(** *** The search and the global replacement, one step at a time *)

Lemma searchFrom_begin r : forall rest prev pos caps b e,
  searchFrom r prev pos caps rest = Some (b, e) ->
  (pos <= ms_pos b)%nat /\ ms_rest b = skipn (ms_pos b - pos) rest
  /\ (ms_pos b - pos <= List.length rest)%nat.
Proof.
  induction rest as [|c t IH]; intros prev pos caps b e; cbn [searchFrom].
  - destruct (matchAt r _); [|discriminate]. intros [= <- _]. cbn.
    rewrite Nat.sub_diag. repeat split; lia.
  - destruct (matchAt r _).
    + intros [= <- _]. cbn. rewrite Nat.sub_diag. repeat split; lia.
    + intros H. apply IH in H as (H1 & H2 & H3).
      replace (ms_pos b - pos)%nat with (S (ms_pos b - S pos)) by lia.
      cbn. repeat split; try lia. exact H2.
Qed.

Lemma replaceAllFrom_skip r by_ f prev pos c t :
  matchAt r (MState prev (c :: t) pos []) = None ->
  replaceAllFrom r by_ (S f) prev pos (c :: t)
  = c :: replaceAllFrom r by_ (S f) (Some c) (S pos) t.
Proof.
  intros H. cbn [replaceAllFrom searchFrom]. rewrite H.
  destruct (searchFrom r (Some c) (S pos) [] t) as [[b e]|] eqn:E; [|reflexivity].
  apply searchFrom_begin in E as (H1 & _ & _).
  replace (ms_pos b - pos)%nat with (S (ms_pos b - S pos)) by lia. reflexivity.
Qed.

Lemma replaceAllFrom_here r by_ f prev pos rest e :
  matchAt r (MState prev rest pos []) = Some e ->
  Nat.eqb (ms_pos e) pos = false ->
  replaceAllFrom r by_ (S f) prev pos rest
  = by_ ++ replaceAllFrom r by_ f (ms_prev e) (ms_pos e) (ms_rest e).
Proof.
  intros H Hne. cbn [replaceAllFrom].
  assert (searchFrom r prev pos [] rest = Some (MState prev rest pos [], e)) as ->.
  { destruct rest; cbn [searchFrom]; rewrite H; reflexivity. }
  cbn [ms_pos]. rewrite Nat.sub_diag, Hne. reflexivity.
Qed.

Lemma replaceAllFrom_nil r by_ f prev pos :
  matchAt r (MState prev [] pos []) = None ->
  replaceAllFrom r by_ f prev pos [] = [].
Proof.
  intros H. destruct f; cbn [replaceAllFrom searchFrom]; [reflexivity|].
  rewrite H. reflexivity.
Qed.

(** *** Expressions of one class *)

Lemma replaceAllFrom_Cls p by_ : forall rest f prev pos,
  (List.length rest < f)%nat ->
  replaceAllFrom (Cls p) by_ f prev pos rest = substitute p by_ rest.
Proof.
  induction rest as [|c t IH]; intros f prev pos Hf.
  - apply replaceAllFrom_nil. reflexivity.
  - destruct f as [|f]; [cbn in Hf; lia|]. cbn in Hf.
    cbn [substitute flat_map]. destruct (p c) eqn:Hc.
    + rewrite (replaceAllFrom_here _ _ _ _ _ _ (MState (Some c) t (S pos) []));
        [|unfold matchAt; cbn; rewrite Hc; reflexivity
         |cbn [ms_pos]; apply Nat.eqb_neq; lia].
      cbn. rewrite IH by lia. reflexivity.
    + rewrite replaceAllFrom_skip by (unfold matchAt; cbn; rewrite Hc; reflexivity).
      rewrite IH by lia. reflexivity.
Qed.

Lemma replaceAll_Cls p by_ s : replaceAll (Cls p) by_ s = substitute p by_ s.
Proof. apply replaceAllFrom_Cls. lia. Qed.

Lemma searchFrom_Cls p : forall rest prev pos caps,
  (match searchFrom (Cls p) prev pos caps rest with Some _ => true | None => false end)
  = existsb p rest.
Proof.
  induction rest as [|c t IH]; intros prev pos caps; [reflexivity|].
  cbn [searchFrom existsb]. unfold matchAt. cbn. destruct (p c); [reflexivity|]. apply IH.
Qed.

Lemma test_Cls p s : test (Cls p) s = existsb p s.
Proof. apply searchFrom_Cls. Qed.

End ReplaceSteps.

Section GreedyIteration.
Close Scope Z_scope.

(** *** Iterating one class *)

(** When what follows the iteration fails wherever the next unit is still
    of the class, the iteration takes the whole run or fails. *)
Lemma rep_Cls_run p k :
  (forall st, nextIs p st = true -> k st = None) ->
  forall fuel lo hi st,
    (lo + List.length (ms_rest st) < fuel)%nat ->
    withinHi hi lo = true ->
    rep (mtch (Cls p)) fuel lo hi st k
    = if Nat.leb lo (runLength p (ms_rest st)) && withinHi hi (runLength p (ms_rest st))
      then k (advance st (runLength p (ms_rest st)))
      else None.
Proof.
  intros Hk. induction fuel as [|f IH]; intros lo hi st Hf Hhi; [lia|].
  destruct st as [prev rest pos caps]. cbn [ms_rest] in *.
  cbn [rep]. destruct lo as [|lo].
  - destruct hi as [[|h]|].
    + cbn [withinHi]. destruct rest as [|c t]; [reflexivity|].
      cbn [runLength]. destruct (p c) eqn:Hc; [|reflexivity].
      cbn. apply Hk. cbn. exact Hc.
    + cbn [mtch ms_rest]. destruct rest as [|c t]; [reflexivity|].
      cbn [runLength]. destruct (p c) eqn:Hc; [|reflexivity].
      cbn [ms_pos]. replace (Nat.eqb (S pos) pos) with false
        by (symmetry; apply Nat.eqb_neq; lia).
      cbn [decHi pred]. rewrite IH by (cbn in *; try lia; reflexivity).
      cbn [ms_rest Nat.leb andb withinHi advance].
      rewrite (Hk (MState prev (c :: t) pos caps)) by (cbn; exact Hc).
      cbn [ms_pos ms_caps].
      destruct (Nat.leb (runLength p t) h); [|reflexivity].
      destruct (k _); reflexivity.
    + cbn [mtch ms_rest]. destruct rest as [|c t]; [reflexivity|].
      cbn [runLength]. destruct (p c) eqn:Hc; [|reflexivity].
      cbn [ms_pos]. replace (Nat.eqb (S pos) pos) with false
        by (symmetry; apply Nat.eqb_neq; lia).
      cbn [decHi]. rewrite IH by (cbn in *; try lia; reflexivity).
      cbn [ms_rest Nat.leb andb withinHi advance].
      rewrite (Hk (MState prev (c :: t) pos caps)) by (cbn; exact Hc).
      cbn [ms_pos ms_caps]. destruct (k _); reflexivity.
  - cbn [mtch ms_rest]. destruct rest as [|c t]; [reflexivity|].
    cbn [runLength]. destruct (p c) eqn:Hc; [|reflexivity].
    destruct hi as [[|h]|]; cbn [withinHi] in Hhi; try discriminate.
    + cbn [decHi pred]. rewrite IH by (cbn in *; try lia; exact Hhi).
      cbn [ms_rest Nat.leb andb withinHi advance]. reflexivity.
    + cbn [decHi]. rewrite IH by (cbn in *; try lia; reflexivity).
      cbn [ms_rest Nat.leb andb withinHi advance]. reflexivity.
Qed.

(** At the end of an expression the iteration takes as much of the run as
    its bound allows. *)
Lemma rep_Cls_last p :
  forall fuel lo st,
    (lo + List.length (ms_rest st) < fuel)%nat ->
    rep (mtch (Cls p)) fuel lo None st Some
    = if Nat.leb lo (runLength p (ms_rest st))
      then Some (advance st (runLength p (ms_rest st)))
      else None.
Proof.
  induction fuel as [|f IH]; intros lo st Hf; [lia|].
  destruct st as [prev rest pos caps]. cbn [ms_rest] in *.
  cbn [rep]. destruct lo as [|lo].
  - cbn [mtch ms_rest]. destruct rest as [|c t]; [reflexivity|].
    cbn [runLength]. destruct (p c) eqn:Hc; [|reflexivity].
    cbn [ms_pos]. replace (Nat.eqb (S pos) pos) with false
      by (symmetry; apply Nat.eqb_neq; lia).
    cbn [decHi]. rewrite IH by (cbn in *; lia). reflexivity.
  - cbn [mtch ms_rest]. destruct rest as [|c t]; [reflexivity|].
    cbn [runLength]. destruct (p c) eqn:Hc; [|reflexivity].
    cbn [decHi]. rewrite IH by (cbn in *; lia). reflexivity.
Qed.

Lemma advance_run p : forall rest prev pos caps,
  ms_rest (advance (MState prev rest pos caps) (runLength p rest))
  = skipn (runLength p rest) rest
  /\ ms_pos (advance (MState prev rest pos caps) (runLength p rest))
     = (pos + runLength p rest)%nat
  /\ ms_caps (advance (MState prev rest pos caps) (runLength p rest)) = caps.
Proof.
  induction rest as [|c t IH]; intros prev pos caps; cbn [runLength].
  - cbn. repeat split. lia.
  - destruct (p c); cbn [advance ms_rest ms_pos ms_caps skipn].
    + destruct (IH (Some c) (S pos) caps) as (H1 & H2 & H3). repeat split; try assumption. lia.
    + repeat split. lia.
Qed.

Lemma skipn_runLength p s : skipn (runLength p s) s = dropWhile p s.
Proof.
  induction s as [|c t IH]; [reflexivity|]. cbn. destruct (p c); [exact IH|reflexivity].
Qed.

Lemma firstn_runLength_all p s : forallb p (firstn (runLength p s) s) = true.
Proof.
  induction s as [|c t IH]; [reflexivity|]. cbn. destruct (p c) eqn:E; [|reflexivity].
  cbn. rewrite E. exact IH.
Qed.

Lemma runLength_le p s : (runLength p s <= List.length s)%nat.
Proof.
  induction s as [|c t IH]; cbn; [lia|]. destruct (p c); cbn; lia.
Qed.

(** The equations of the matcher. *)
Lemma mtch_Cat a b st k : mtch (Cat a b) st k = mtch a st (fun st' => mtch b st' k).
Proof. reflexivity. Qed.

Lemma mtch_Rep lo hi a st k :
  mtch (Rep lo hi a) st k = rep (mtch a) (S (lo + List.length (ms_rest st))) lo hi st k.
Proof. reflexivity. Qed.

Lemma mtch_Bos st k : mtch Bos st k = if Nat.eqb (ms_pos st) 0 then k st else None.
Proof. reflexivity. Qed.

Lemma mtch_Eos st k : mtch Eos st k = match ms_rest st with [] => k st | _ => None end.
Proof. reflexivity. Qed.

Lemma mtch_Cls p st k :
  mtch (Cls p) st k
  = match ms_rest st with
    | c :: t => if p c then k (MState (Some c) t (S (ms_pos st)) (ms_caps st)) else None
    | [] => None
    end.
Proof. reflexivity. Qed.

Lemma mtch_Grp i a st k :
  mtch (Grp i a) st k
  = mtch a st (fun st' =>
      k (MState (ms_prev st') (ms_rest st') (ms_pos st')
           ((i, firstn (ms_pos st' - ms_pos st) (ms_rest st)) :: ms_caps st'))).
Proof. reflexivity. Qed.

End GreedyIteration.

Section Calendar.

(** *** The calendar *)

Lemma civilFromDays_ranges z :
  1 <= snd (fst (civilFromDays z)) <= 12 /\ 1 <= snd (civilFromDays z) <= 31.
Proof.
  unfold civilFromDays. cbn [fst snd].
  set (z' := z + 719468).
  set (era := z' / 146097).
  set (doe := z' - era * 146097).
  assert (Hdoe : 0 <= doe <= 146096) by (subst doe era; Z.div_mod_to_equations; lia).
  clearbody doe. clear z' era.
  set (yoe := (doe - doe / 1460 + doe / 36524 - doe / 146096) / 365).
  assert (Hyoe : 0 <= yoe <= 399) by (subst yoe; Z.div_mod_to_equations; lia).
  set (doy := doe - (365 * yoe + yoe / 4 - yoe / 100)).
  assert (Hdoy : 0 <= doy <= 365) by (subst doy yoe; Z.div_mod_to_equations; lia).
  clearbody doy.
  set (mp := (5 * doy + 2) / 153).
  assert (Hmp : 0 <= mp <= 11) by (subst mp; Z.div_mod_to_equations; lia).
  assert (Hd : 1 <= doy - (153 * mp + 2) / 5 + 1 <= 31)
    by (subst mp; Z.div_mod_to_equations; lia).
  clearbody mp.
  destruct (mp <? 10) eqn:E; [apply Z.ltb_lt in E|apply Z.ltb_ge in E]; split; lia.
Qed.

Lemma civil_of_doe era yoe doy :
  0 <= yoe <= 399 -> 0 <= doy <= 365 ->
  (doy = 365 -> yoe mod 4 = 3 /\ (yoe mod 100 <> 99 \/ yoe = 399)) ->
  (era * 146097 + (yoe * 365 + yoe / 4 - yoe / 100 + doy)) / 146097 = era
  /\ ((yoe * 365 + yoe / 4 - yoe / 100 + doy)
      - (yoe * 365 + yoe / 4 - yoe / 100 + doy) / 1460
      + (yoe * 365 + yoe / 4 - yoe / 100 + doy) / 36524
      - (yoe * 365 + yoe / 4 - yoe / 100 + doy) / 146096) / 365 = yoe.
Proof.
  intros Hy Hd Hl.
  assert (0 <= yoe * 365 + yoe / 4 - yoe / 100 + doy <= 146096)
    by (Z.div_mod_to_equations; lia).
  split; Z.div_mod_to_equations; lia.
Qed.

Lemma daysInMonth_cases y m :
  1 <= m <= 12 ->
  daysInMonth y (m - 1)
  = if m =? 2 then (if isLeapYearIndex y then 29 else 28)
    else if (m =? 4) || (m =? 6) || (m =? 9) || (m =? 11) then 30 else 31.
Proof.
  intros Hm.
  assert (Hcases : m = 1 \/ m = 2 \/ m = 3 \/ m = 4 \/ m = 5 \/ m = 6 \/ m = 7 \/ m = 8
                   \/ m = 9 \/ m = 10 \/ m = 11 \/ m = 12) by lia.
  unfold daysInMonth.
  repeat (destruct Hcases as [->|Hcases]); try subst m;
    destruct (isLeapYearIndex y); reflexivity.
Qed.

(** The day number of a date of the calendar gives the date back. *)
Lemma civil_days_civil y m d :
  1 <= m <= 12 -> 1 <= d <= daysInMonth y (m - 1) ->
  civilFromDays (daysFromCivil y m d) = (y, m, d).
Proof.
  intros Hm Hd. rewrite daysInMonth_cases in Hd by exact Hm.
  assert (Hleap : m = 2 -> d = 29 ->
                  (y - 1 - (y - 1) / 400 * 400) mod 4 = 3
                  /\ ((y - 1 - (y - 1) / 400 * 400) mod 100 <> 99
                      \/ y - 1 - (y - 1) / 400 * 400 = 399)).
  { intros -> ->. cbn in Hd. destruct (isLeapYearIndex y) eqn:H; [|lia].
    unfold isLeapYearIndex in H. apply orb_true_iff in H as [H|H].
    - apply Z.eqb_eq in H. Z.div_mod_to_equations; lia.
    - apply andb_true_iff in H as [H1 H2]. apply Z.eqb_eq in H1.
      apply negb_true_iff, Z.eqb_neq in H2. Z.div_mod_to_equations; lia. }
  assert (Hd1 : 1 <= d) by lia.
  assert (Hd29 : m = 2 -> d <= 29) by (intros ->; cbn in Hd; destruct (isLeapYearIndex y); lia).
  assert (Hd30 : m = 4 \/ m = 6 \/ m = 9 \/ m = 11 -> d <= 30).
  { intros [-> | [-> | [-> | ->]]]; cbn in Hd; lia. }
  assert (Hd31 : d <= 31).
  { destruct (m =? 2); [destruct (isLeapYearIndex y); lia|]. destruct (_ || _); lia. }
  clear Hd.
  unfold daysFromCivil.
  set (y' := if m <=? 2 then y - 1 else y).
  set (era := y' / 400).
  set (yoe := y' - era * 400).
  set (mp := (m + 9) mod 12).
  set (doy := (153 * mp + 2) / 5 + d - 1).
  assert (Hyoe : 0 <= yoe <= 399) by (subst yoe era; Z.div_mod_to_equations; lia).
  assert (Hmp : 0 <= mp <= 11 /\ m = (if mp <? 10 then mp + 3 else mp - 9)
                /\ (m <=? 2) = negb (mp <? 10)).
  { subst mp. destruct (m <=? 2) eqn:E; [apply Z.leb_le in E|apply Z.leb_gt in E].
    - assert ((m + 9) mod 12 = m + 9) as -> by (Z.div_mod_to_equations; lia).
      replace (m + 9 <? 10) with false by (symmetry; apply Z.ltb_ge; lia).
      cbn. repeat split; lia.
    - assert ((m + 9) mod 12 = m - 3) as -> by (Z.div_mod_to_equations; lia).
      replace (m - 3 <? 10) with true by (symmetry; apply Z.ltb_lt; lia).
      cbn. repeat split; lia. }
  destruct Hmp as (Hmp & Hm' & Hle).
  assert (Hdoy : 0 <= doy <= 365 /\ (5 * doy + 2) / 153 = mp
                 /\ (doy = 365 -> m = 2 /\ d = 29)).
  { subst doy.
    assert (Hmpm : mp = (if m <=? 2 then m + 9 else m - 3)).
    { destruct (m <=? 2) eqn:E; [apply Z.leb_le in E|apply Z.leb_gt in E];
        destruct (mp <? 10) eqn:F; [apply Z.ltb_lt in F|apply Z.ltb_ge in F
                                   |apply Z.ltb_lt in F|apply Z.ltb_ge in F]; cbn in Hle;
        try discriminate; lia. }
    clearbody mp. clear Hm' Hle Hleap.
    assert (Hcases : m = 1 \/ m = 2 \/ m = 3 \/ m = 4 \/ m = 5 \/ m = 6 \/ m = 7 \/ m = 8
                     \/ m = 9 \/ m = 10 \/ m = 11 \/ m = 12) by lia.
    repeat (destruct Hcases as [E|Hcases]); try (rename Hcases into E);
      subst m; cbn in Hmpm; subst mp;
      repeat split; try (Z.div_mod_to_equations; lia). }
  destruct Hdoy as (Hdoy & Hmp' & H365).
  assert (Hl : doy = 365 -> yoe mod 4 = 3 /\ (yoe mod 100 <> 99 \/ yoe = 399)).
  { intros H. destruct (H365 H) as [-> ->]. subst yoe era y'. cbn. apply Hleap; reflexivity. }
  destruct (civil_of_doe era yoe doy Hyoe Hdoy Hl) as [Hera Hy].
  unfold civilFromDays.
  replace (era * 146097 + (yoe * 365 + yoe / 4 - yoe / 100 + doy) - 719468 + 719468)
    with (era * 146097 + (yoe * 365 + yoe / 4 - yoe / 100 + doy)) by lia.
  rewrite Hera.
  replace (era * 146097 + (yoe * 365 + yoe / 4 - yoe / 100 + doy) - era * 146097)
    with (yoe * 365 + yoe / 4 - yoe / 100 + doy) by lia.
  rewrite Hy.
  replace (yoe * 365 + yoe / 4 - yoe / 100 + doy - (365 * yoe + yoe / 4 - yoe / 100))
    with doy by lia.
  rewrite Hmp'. rewrite <- Hm'.
  f_equal; [f_equal|].
  - rewrite Hle. subst yoe y'. destruct (mp <? 10); cbn [negb]; rewrite Hle; cbn [negb]; lia.
  - subst doy. lia.
Qed.

Lemma daysFromCivil_bounds y m d :
  -10000 <= y <= 20000 -> 1 <= m <= 12 -> -100 <= d <= 100 ->
  -5000000 <= daysFromCivil y m d <= 8000000.
Proof.
  intros Hy Hm Hd. unfold daysFromCivil. destruct (m <=? 2) eqn:E.
  - apply Z.leb_le in E. split; Z.div_mod_to_equations; lia.
  - apply Z.leb_gt in E. split; Z.div_mod_to_equations; lia.
Qed.

Lemma daysFromCivil_day y m d : daysFromCivil y m d = daysFromCivil y m 1 + d - 1.
Proof. unfold daysFromCivil. lia. Qed.

(** The first day of the next month follows the last day of the month. *)
Lemma daysFromCivil_next_month y m :
  1 <= m <= 12 ->
  daysFromCivil (fst (nextMonth y m)) (snd (nextMonth y m)) 1
  = daysFromCivil y m 1 + daysInMonth y (m - 1).
Proof.
  intros Hm. rewrite daysInMonth_cases by exact Hm. unfold nextMonth.
  assert (Hl : isLeapYearIndex y = true ->
               y mod 4 = 0 /\ (y mod 100 <> 0 \/ y mod 400 = 0)).
  { unfold isLeapYearIndex. intros H. apply orb_true_iff in H as [H|H].
    - apply Z.eqb_eq in H. Z.div_mod_to_equations; lia.
    - apply andb_true_iff in H as [H1 H2]. apply Z.eqb_eq in H1.
      apply negb_true_iff, Z.eqb_neq in H2. lia. }
  assert (Hn : isLeapYearIndex y = false ->
               y mod 4 <> 0 \/ (y mod 100 = 0 /\ y mod 400 <> 0)).
  { unfold isLeapYearIndex. intros H. apply orb_false_iff in H as [H1 H2].
    apply Z.eqb_neq in H1. apply andb_false_iff in H2 as [H2|H2].
    - apply Z.eqb_neq in H2. lia.
    - apply negb_false_iff, Z.eqb_eq in H2. lia. }
  assert (Hcases : m = 1 \/ m = 2 \/ m = 3 \/ m = 4 \/ m = 5 \/ m = 6 \/ m = 7 \/ m = 8
                   \/ m = 9 \/ m = 10 \/ m = 11 \/ m = 12) by lia.
  unfold daysFromCivil.
  repeat (destruct Hcases as [E|Hcases]); try (rename Hcases into E); subst m;
    cbn [Z.eqb Pos.eqb fst snd orb Z.leb Z.compare Pos.compare Pos.compare_cont];
    try (destruct (isLeapYearIndex y) eqn:L;
         [specialize (Hl eq_refl); clear Hn|specialize (Hn eq_refl); clear Hl]);
    repeat match goal with
           | |- context [if ?b then _ else _] =>
               let F := fresh in
               destruct b eqn:F; [apply Z.leb_le in F|apply Z.leb_gt in F]; try lia
           end;
    Z.div_mod_to_equations; lia.
Qed.

Lemma daysInMonth_range y m : 1 <= m <= 12 -> 28 <= daysInMonth y (m - 1) <= 31.
Proof.
  intros Hm. rewrite daysInMonth_cases by exact Hm.
  destruct (m =? 2); [destruct (isLeapYearIndex y); lia|]. destruct (_ || _); lia.
Qed.

Lemma nextMonth_range y m : 1 <= m <= 12 -> 1 <= snd (nextMonth y m) <= 12.
Proof.
  intros Hm. unfold nextMonth. destruct (m =? 12) eqn:E; cbn [snd]; [lia|].
  apply Z.eqb_neq in E. lia.
Qed.

(** A day past the end of the month is a day of the next month. *)
Lemma civil_days_overflow y m d :
  1 <= m <= 12 -> daysInMonth y (m - 1) < d <= 31 ->
  civilFromDays (daysFromCivil y m d)
  = (fst (nextMonth y m), snd (nextMonth y m), d - daysInMonth y (m - 1)).
Proof.
  intros Hm Hd.
  pose proof (daysInMonth_range y m Hm) as Hr.
  pose proof (nextMonth_range y m Hm) as Hn.
  pose proof (daysInMonth_range (fst (nextMonth y m)) (snd (nextMonth y m)) Hn) as Hr'.
  rewrite <- (civil_days_civil (fst (nextMonth y m)) (snd (nextMonth y m))
                (d - daysInMonth y (m - 1))) by lia.
  f_equal. rewrite (daysFromCivil_day y m d).
  rewrite (daysFromCivil_day _ _ (d - _)), daysFromCivil_next_month by exact Hm. lia.
Qed.

End Calendar.

Section RunReplacement.
Close Scope Z_scope.

(** *** Replacing the runs of a class *)

Lemma collapseRun_dropWhile p by_ s :
  collapseRun p by_ true s = collapseRun p by_ false (dropWhile p s).
Proof.
  induction s as [|c t IH]; [reflexivity|]. cbn [collapseRun dropWhile].
  destruct (p c) eqn:E; [exact IH|]. cbn [collapseRun]. rewrite E. reflexivity.
Qed.

Lemma dropWhile_length p s : (List.length (dropWhile p s) <= List.length s)%nat.
Proof.
  induction s as [|c t IH]; cbn; [lia|]. destruct (p c); cbn; lia.
Qed.

Lemma matchAt_plus p prev rest pos caps :
  matchAt (plus (Cls p)) (MState prev rest pos caps)
  = if Nat.leb 1 (runLength p rest)
    then Some (advance (MState prev rest pos caps) (runLength p rest))
    else None.
Proof.
  unfold matchAt, plus. rewrite mtch_Rep, rep_Cls_last by (cbn; lia). reflexivity.
Qed.

Lemma replaceAllFrom_plus p by_ : forall n rest f prev pos,
  (List.length rest <= n)%nat -> (List.length rest < f)%nat ->
  replaceAllFrom (plus (Cls p)) by_ f prev pos rest = collapseRun p by_ false rest.
Proof.
  induction n as [|n IH]; intros rest f prev pos Hn Hf.
  - destruct rest; [|cbn in Hn; lia]. apply replaceAllFrom_nil. reflexivity.
  - destruct rest as [|c t]; [apply replaceAllFrom_nil; reflexivity|].
    destruct f as [|f]; [cbn in Hf; lia|]. cbn [List.length] in Hn, Hf.
    cbn [collapseRun]. destruct (p c) eqn:Hc.
    + pose proof (matchAt_plus p prev (c :: t) pos []) as Hm.
      cbn [runLength] in Hm. rewrite Hc in Hm. cbn [Nat.leb] in Hm.
      destruct (advance_run p (c :: t) prev pos []) as (Hr & Hp & _).
      cbn [runLength] in Hr, Hp. rewrite Hc in Hr, Hp.
      rewrite (replaceAllFrom_here _ _ _ _ _ _ _ Hm) by (rewrite Hp; apply Nat.eqb_neq; lia).
      rewrite Hr. change (skipn (S (runLength p t)) (c :: t)) with (skipn (runLength p t) t).
      rewrite skipn_runLength.
      pose proof (dropWhile_length p t).
      rewrite IH by lia. rewrite collapseRun_dropWhile. reflexivity.
    + rewrite replaceAllFrom_skip.
      * rewrite IH by lia. reflexivity.
      * rewrite matchAt_plus. cbn [runLength]. rewrite Hc. reflexivity.
Qed.

Lemma replaceAll_plus p by_ s :
  replaceAll (plus (Cls p)) by_ s = collapseRun p by_ false s.
Proof. apply (replaceAllFrom_plus p by_ (List.length s)); lia. Qed.

(** Two or more units of the class, replaced by one of them. *)
Lemma matchAt_two p prev rest pos caps :
  matchAt (Cat (Cls p) (plus (Cls p))) (MState prev rest pos caps)
  = if Nat.leb 2 (runLength p rest)
    then Some (advance (MState prev rest pos caps) (runLength p rest))
    else None.
Proof.
  unfold matchAt. rewrite mtch_Cat, mtch_Cls. cbn [ms_rest ms_pos ms_caps].
  destruct rest as [|c t]; [reflexivity|]. cbn [runLength].
  destruct (p c) eqn:Hc; [|reflexivity].
  fold (matchAt (plus (Cls p)) (MState (Some c) t (S pos) caps)).
  rewrite matchAt_plus. reflexivity.
Qed.

Lemma dropWhile_run0 p s : runLength p s = 0%nat -> dropWhile p s = s.
Proof.
  destruct s as [|c t]; [reflexivity|]. cbn. destruct (p c); [discriminate|reflexivity].
Qed.

Lemma replaceAllFrom_two p c0 :
  (forall c, p c = true -> c = c0) ->
  forall n rest f prev pos,
    (List.length rest <= n)%nat -> (List.length rest < f)%nat ->
    replaceAllFrom (Cat (Cls p) (plus (Cls p))) [c0] f prev pos rest
    = collapseRun p [c0] false rest.
Proof.
  intros H0. induction n as [|n IH]; intros rest f prev pos Hn Hf.
  - destruct rest; [|cbn in Hn; lia]. apply replaceAllFrom_nil. reflexivity.
  - destruct rest as [|c t]; [apply replaceAllFrom_nil; reflexivity|].
    destruct f as [|f]; [cbn in Hf; lia|]. cbn [List.length] in Hn, Hf.
    cbn [collapseRun]. pose proof (matchAt_two p prev (c :: t) pos []) as Hm.
    cbn [runLength] in Hm. destruct (p c) eqn:Hc.
    + destruct (runLength p t) as [|r] eqn:Hr.
      * cbn [Nat.leb] in Hm. rewrite replaceAllFrom_skip by exact Hm.
        rewrite IH by lia. rewrite collapseRun_dropWhile, (dropWhile_run0 p t Hr).
        rewrite (H0 c Hc). reflexivity.
      * cbn [Nat.leb] in Hm.
        destruct (advance_run p (c :: t) prev pos []) as (Hrest & Hp & _).
        cbn [runLength] in Hrest, Hp. rewrite Hc, Hr in Hrest, Hp.
        rewrite (replaceAllFrom_here _ _ _ _ _ _ _ Hm) by (rewrite Hp; apply Nat.eqb_neq; lia).
        rewrite Hrest. change (skipn (S (S r)) (c :: t)) with (skipn (S r) t).
        rewrite <- Hr, skipn_runLength.
        pose proof (dropWhile_length p t).
        rewrite IH by lia. rewrite collapseRun_dropWhile. reflexivity.
    + cbn [Nat.leb] in Hm. rewrite replaceAllFrom_skip by exact Hm.
      rewrite IH by lia. reflexivity.
Qed.

Lemma replaceAll_two p c0 s :
  (forall c, p c = true -> c = c0) ->
  replaceAll (Cat (Cls p) (plus (Cls p))) [c0] s = collapseRun p [c0] false s.
Proof. intros H. apply (replaceAllFrom_two p c0 H (List.length s)); lia. Qed.

(** What the replacement keeps. *)
Lemma collapseRun_forall (q : N -> bool) p by_ : forall s b,
  forallb q by_ = true -> forallb q s = true -> forallb q (collapseRun p by_ b s) = true.
Proof.
  intros s b Hby. revert b. induction s as [|c t IH]; intros b Hs; [reflexivity|].
  cbn [forallb] in Hs. apply andb_true_iff in Hs as [Hc Ht].
  cbn [collapseRun]. destruct (p c).
  - destruct b; [apply IH; exact Ht|]. rewrite forallb_app, Hby. apply IH. exact Ht.
  - cbn [forallb]. rewrite Hc. apply IH. exact Ht.
Qed.

Lemma collapseRun_none p by_ : forall s b,
  forallb (fun c => negb (p c)) by_ = true ->
  forallb (fun c => negb (p c)) (collapseRun p by_ b s) = true.
Proof.
  intros s b Hby. revert b. induction s as [|c t IH]; intros b; [reflexivity|].
  cbn [collapseRun]. destruct (p c) eqn:E.
  - destruct b; [apply IH|]. rewrite forallb_app, Hby. apply IH.
  - cbn [forallb]. rewrite E. apply IH.
Qed.

Lemma collapseRun_id p by_ s :
  forallb (fun c => negb (p c)) s = true -> collapseRun p by_ false s = s.
Proof.
  induction s as [|c t IH]; [reflexivity|]. cbn [forallb collapseRun].
  intros H. apply andb_true_iff in H as [Hc Ht]. apply negb_true_iff in Hc.
  rewrite Hc, IH by exact Ht. reflexivity.
Qed.

Lemma substitute_id p by_ s :
  forallb (fun c => negb (p c)) s = true -> substitute p by_ s = s.
Proof.
  induction s as [|c t IH]; [reflexivity|]. cbn [forallb substitute flat_map].
  intros H. apply andb_true_iff in H as [Hc Ht]. apply negb_true_iff in Hc.
  rewrite Hc. cbn [app]. f_equal. apply IH. exact Ht.
Qed.

Lemma substitute_forall (q : N -> bool) p by_ s :
  forallb q by_ = true -> forallb q s = true -> forallb q (substitute p by_ s) = true.
Proof.
  intros Hby. induction s as [|c t IH]; [reflexivity|]. cbn [forallb substitute flat_map].
  intros H. apply andb_true_iff in H as [Hc Ht].
  rewrite forallb_app. destruct (p c); [rewrite Hby|cbn; rewrite Hc]; apply IH; exact Ht.
Qed.

Lemma substitute_none p s : forallb (fun c => negb (p c)) (substitute p [] s) = true.
Proof.
  induction s as [|c t IH]; [reflexivity|]. cbn [substitute flat_map].
  destruct (p c) eqn:E; [exact IH|]. cbn. rewrite E. exact IH.
Qed.

Lemma collapseRun_noPair p c0 :
  p c0 = true ->
  forall s,
    noPair p (collapseRun p [c0] false s) = true
    /\ noPair p (collapseRun p [c0] true s) = true
    /\ match collapseRun p [c0] true s with d :: _ => p d | [] => false end = false.
Proof.
  intros H0. induction s as [|c t (IH1 & IH2 & IH3)]; [repeat split|].
  cbn [collapseRun]. destruct (p c) eqn:E.
  - repeat split; try assumption. cbn [app noPair]. rewrite IH3, IH2, andb_false_r. reflexivity.
  - repeat split.
    + cbn [noPair]. rewrite E, IH1. reflexivity.
    + cbn [noPair]. rewrite E, IH1. reflexivity.
    + exact E.
Qed.

Lemma collapseRun_pair_id p c0 :
  (forall c, p c = true -> c = c0) ->
  forall s, noPair p s = true ->
    collapseRun p [c0] false s = s
    /\ (match s with d :: _ => p d | [] => false end = false ->
        collapseRun p [c0] true s = s).
Proof.
  intros H0. induction s as [|c t IH]; intros Hs; [split; reflexivity|].
  cbn [noPair] in Hs. apply andb_true_iff in Hs as [Hc Ht].
  destruct (IH Ht) as [IH1 IH2]. cbn [collapseRun]. destruct (p c) eqn:E.
  - cbn [andb] in Hc. apply negb_true_iff in Hc. split; [|discriminate].
    rewrite (IH2 Hc), (H0 c E). reflexivity.
  - split; [|intros _]; rewrite IH1; reflexivity.
Qed.

End RunReplacement.

Section DelimitedLines.
Close Scope Z_scope.

(** *** Delimited lines *)

Lemma parseCsvLineFrom_plain : forall s tail out cur,
  forallb (fun c => negb (N.eqb c 34 || N.eqb c 44)) s = true ->
  parseCsvLineFrom (s ++ tail) out cur false = parseCsvLineFrom tail out (rev s ++ cur) false.
Proof.
  induction s as [|c s IH]; intros tail out cur H; [reflexivity|].
  cbn [forallb] in H. apply andb_true_iff in H as [Hc Hs].
  apply negb_true_iff, orb_false_iff in Hc as [Hq Hk].
  cbn [app parseCsvLineFrom]. rewrite Hq, Hk, IH by exact Hs.
  cbn [rev]. rewrite <- app_assoc. reflexivity.
Qed.

Lemma parseCsvLineFrom_quoted : forall s tail out cur,
  match tail with c :: _ => N.eqb c 34 | [] => false end = false ->
  parseCsvLineFrom (substitute (N.eqb 34) [34%N; 34%N] s ++ 34%N :: tail) out cur true
  = parseCsvLineFrom tail out (rev s ++ cur) false.
Proof.
  induction s as [|c s IH]; intros tail out cur H.
  - cbn [substitute flat_map app parseCsvLineFrom rev]. cbn [N.eqb Pos.eqb].
    destruct tail as [|d tail]; [reflexivity|]. rewrite H. reflexivity.
  - cbn [substitute flat_map]. fold (substitute (N.eqb 34) [34%N; 34%N] s).
    destruct (N.eqb 34 c) eqn:E.
    + apply N.eqb_eq in E. subst c. cbn [app parseCsvLineFrom]. cbn [N.eqb Pos.eqb].
      rewrite IH by exact H. cbn [rev]. rewrite <- app_assoc. reflexivity.
    + cbn [app parseCsvLineFrom]. rewrite N.eqb_sym, E, IH by exact H.
      cbn [rev]. rewrite <- app_assoc. reflexivity.
Qed.

Lemma parseCsvLineFrom_cell c tail out :
  match tail with d :: _ => N.eqb d 44 | [] => true end = true ->
  parseCsvLineFrom (csvEscape (JStr c) ++ tail) out [] false
  = parseCsvLineFrom tail out (rev c) false.
Proof.
  intros Htail. unfold csvEscape. destruct c as [|c0 c']; [reflexivity|].
  unfold re_needsQuotes. rewrite test_Cls.
  destruct (existsb _ (c0 :: c')) eqn:E.
  - unfold re_quote, chr. rewrite replaceAll_Cls.
    cbn [app]. cbn [parseCsvLineFrom]. cbn [N.eqb Pos.eqb].
    rewrite <- app_assoc. cbn [app]. rewrite parseCsvLineFrom_quoted.
    + rewrite app_nil_r. reflexivity.
    + destruct tail as [|d tail]; [reflexivity|]. apply N.eqb_eq in Htail. subst d. reflexivity.
  - rewrite parseCsvLineFrom_plain; [rewrite app_nil_r; reflexivity|].
    apply forallb_forall. intros x Hx. apply negb_true_iff.
    destruct (N.eqb x 34 || N.eqb x 44) eqn:F; [|reflexivity].
    assert (existsb (fun c => N.eqb c 34 || N.eqb c 44 || N.eqb c 10 || N.eqb c 13) (c0 :: c') = true).
    { apply existsb_exists. exists x. split; [exact Hx|]. rewrite F. reflexivity. }
    congruence.
Qed.

Lemma parseCsvLineFrom_cells : forall cells c out,
  parseCsvLineFrom (join [44%N] (map (fun x => csvEscape (JStr x)) (c :: cells))) out [] false
  = rev out ++ c :: cells.
Proof.
  induction cells as [|d cells IH]; intros c out.
  - cbn [map join]. rewrite <- (app_nil_r (csvEscape (JStr c))).
    rewrite parseCsvLineFrom_cell by reflexivity.
    cbn [parseCsvLineFrom rev]. rewrite rev_involutive. reflexivity.
  - change (join [44%N] (map (fun x => csvEscape (JStr x)) (c :: d :: cells)))
      with (csvEscape (JStr c) ++ [44%N]
            ++ join [44%N] (map (fun x => csvEscape (JStr x)) (d :: cells))).
    rewrite parseCsvLineFrom_cell by reflexivity.
    cbn [app parseCsvLineFrom]. cbn [N.eqb Pos.eqb].
    rewrite IH. rewrite rev_involutive. cbn [rev]. rewrite <- app_assoc. reflexivity.
Qed.

(** X1.  A line that [csvEscape] writes is read back by [parseCsvLine]: for
    a row of one or more text cells, escaped one by one and joined with
    commas, the parser returns the cells as they were, whatever commas,
    quotes or line breaks they hold. *)
Theorem csv_line_round_trip :
  forall (cell : jsstring) (cells : list jsstring),
    parseCsvLine (join (js ",") (map (fun x => csvEscape (JStr x)) (cell :: cells)))
    = cell :: cells.
Proof.
  intros cell cells. unfold parseCsvLine.
  apply (parseCsvLineFrom_cells cells cell []).
Qed.

End DelimitedLines.

Section UnquotedLines.
Close Scope Z_scope.

Lemma join_snoc_app sep : forall (l : list jsstring) x y,
  join sep (l ++ [x ++ y]) = join sep (l ++ [x]) ++ y.
Proof.
  induction l as [|a l IH]; intros x y; [reflexivity|].
  destruct l as [|b l].
  - cbn. rewrite <- !app_assoc. reflexivity.
  - change (join sep ((a :: b :: l) ++ [x ++ y]))
      with (a ++ sep ++ join sep ((b :: l) ++ [x ++ y])).
    rewrite IH. change (join sep ((a :: b :: l) ++ [x]))
      with (a ++ sep ++ join sep ((b :: l) ++ [x])).
    rewrite <- !app_assoc. reflexivity.
Qed.

Lemma join_snoc sep : forall (l : list jsstring) x y,
  join sep ((l ++ [x]) ++ [y]) = join sep (l ++ [x]) ++ sep ++ y.
Proof.
  induction l as [|a l IH]; intros x y; [reflexivity|].
  destruct l as [|b l].
  - cbn. rewrite <- !app_assoc. reflexivity.
  - change (join sep (((a :: b :: l) ++ [x]) ++ [y]))
      with (a ++ sep ++ join sep (((b :: l) ++ [x]) ++ [y])).
    rewrite IH. change (join sep ((a :: b :: l) ++ [x]))
      with (a ++ sep ++ join sep ((b :: l) ++ [x])).
    rewrite <- !app_assoc. reflexivity.
Qed.

Lemma parseCsvLineFrom_unquoted : forall s out cur,
  existsb (N.eqb 34) s = false ->
  join [44%N] (parseCsvLineFrom s out cur false) = join [44%N] (rev out ++ [rev cur]) ++ s
  /\ List.length (parseCsvLineFrom s out cur false) = (List.length out + S (commas s))%nat
  /\ (Forall (fun cell => existsb (N.eqb 44) cell = false) (rev cur :: out) ->
      Forall (fun cell => existsb (N.eqb 44) cell = false) (parseCsvLineFrom s out cur false)).
Proof.
  induction s as [|c s IH]; intros out cur H.
  - cbn [parseCsvLineFrom rev]. rewrite app_nil_r.
    split; [reflexivity|]. split.
    + rewrite length_app, length_rev. unfold commas. cbn.
      reflexivity.
    + intros HF. apply Forall_app. split.
      * apply Forall_rev. inversion HF; assumption.
      * constructor; [inversion HF; assumption|constructor].
  - cbn [existsb] in H. apply orb_false_iff in H as [Hq Hs].
    rewrite N.eqb_sym in Hq. cbn [parseCsvLineFrom]. rewrite Hq.
    destruct (N.eqb c 44) eqn:Hc.
    + apply N.eqb_eq in Hc. subst c.
      destruct (IH (rev cur :: out) [] Hs) as (H1 & H2 & H3).
      split; [|split].
      * rewrite H1. cbn [rev]. rewrite join_snoc. rewrite <- app_assoc. reflexivity.
      * rewrite H2. unfold commas. cbn [filter N.eqb Pos.eqb List.length]. lia.
      * intros HF. apply H3. constructor; [reflexivity|exact HF].
    + destruct (IH out (c :: cur) Hs) as (H1 & H2 & H3).
      split; [|split].
      * rewrite H1. cbn [rev]. rewrite join_snoc_app. rewrite <- app_assoc. reflexivity.
      * rewrite H2. unfold commas. cbn [filter]. rewrite N.eqb_sym, Hc. reflexivity.
      * intros HF. apply H3. inversion HF as [|? ? Hcur Hout]; subst.
        constructor; [|exact Hout]. cbn [rev]. rewrite existsb_app, Hcur.
        cbn [existsb orb]. rewrite N.eqb_sym, Hc. reflexivity.
Qed.

(** X2.  On a line with no double quote [parseCsvLine] splits at every
    comma: joining the cells with commas gives the line back, no cell holds
    a comma, and there is one cell more than there are commas. *)
Theorem parseCsvLine_unquoted :
  forall line : jsstring,
    existsb (N.eqb 34) line = false ->
    join (js ",") (parseCsvLine line) = line
    /\ Forall (fun cell => existsb (N.eqb 44) cell = false) (parseCsvLine line)
    /\ List.length (parseCsvLine line) = S (List.length (filter (N.eqb 44) line)).
Proof.
  intros line H. unfold parseCsvLine.
  destruct (parseCsvLineFrom_unquoted line [] [] H) as (H1 & H2 & H3).
  split; [exact H1|]. split; [|exact H2].
  apply H3. constructor; [reflexivity|constructor].
Qed.

Lemma parseCsvLineFrom_length : forall n s out cur q,
  (List.length s <= n)%nat ->
  (List.length out < List.length (parseCsvLineFrom s out cur q))%nat
  /\ (List.length (parseCsvLineFrom s out cur q) <= List.length out + S (commas s))%nat.
Proof.
  unfold jsstring.
  induction n as [|n IH]; intros s out cur q Hn.
  - destruct s; [|cbn in Hn; lia].
    cbn [parseCsvLineFrom]. rewrite length_rev. unfold commas. cbn. lia.
  - destruct s as [|c s].
    { cbn [parseCsvLineFrom]. rewrite length_rev. unfold commas. cbn. lia. }
    cbn [List.length] in Hn.
    cbn [parseCsvLineFrom]. unfold commas. cbn [filter].
    fold (commas s). destruct q.
    + destruct (N.eqb c 34) eqn:Hq.
      * apply N.eqb_eq in Hq. subst c. cbn [N.eqb Pos.eqb].
        destruct s as [|d s'].
        -- apply (IH [] out cur false). cbn. lia.
        -- destruct (N.eqb d 34) eqn:Hd.
           ++ apply N.eqb_eq in Hd. subst d. unfold commas. cbn [filter N.eqb Pos.eqb].
              fold (commas s'). apply (IH s' out (34%N :: cur) true). cbn in Hn. lia.
           ++ apply (IH (d :: s') out cur false). lia.
      * destruct (IH s out (c :: cur) true ltac:(lia)) as [H1 H2].
        unfold commas in *. destruct (N.eqb 44 c); cbn [List.length]; lia.
    + destruct (N.eqb c 44) eqn:Hc.
      * rewrite N.eqb_sym, Hc. cbn [List.length].
        destruct (IH s (rev cur :: out) [] false ltac:(lia)) as [H1 H2].
        unfold commas in *. cbn [List.length] in *. lia.
      * rewrite (N.eqb_sym 44 c), Hc.
        destruct (N.eqb c 34);
          [apply (IH s out cur true)|apply (IH s out (c :: cur) false)]; lia.
Qed.

Lemma parseCsvLineFrom_open : forall s out cur,
  existsb (N.eqb 34) s = false ->
  parseCsvLineFrom s out cur true = rev (rev (rev s ++ cur) :: out).
Proof.
  induction s as [|c s IH]; intros out cur H; [reflexivity|].
  cbn [existsb] in H. apply orb_false_iff in H as [Hq Hs].
  rewrite N.eqb_sym in Hq. cbn [parseCsvLineFrom]. rewrite Hq, IH by exact Hs.
  cbn [rev]. rewrite <- app_assoc. reflexivity.
Qed.

(** X3.  [parseCsvLine] never returns an empty list, and never more cells
    than the line has commas, plus one. *)
Theorem parseCsvLine_cell_count :
  forall line : jsstring,
    (1 <= List.length (parseCsvLine line)
     <= S (List.length (filter (N.eqb 44) line)))%nat.
Proof.
  intros line. unfold parseCsvLine.
  destruct (parseCsvLineFrom_length (List.length line) line [] [] false (le_n _)) as [H1 H2].
  cbn [List.length] in *. unfold commas in H2. lia.
Qed.

Lemma parseCsvLineFrom_unclosed : forall before after out cur,
  existsb (N.eqb 34) before = false ->
  existsb (N.eqb 34) after = false ->
  parseCsvLineFrom (before ++ 34%N :: after) out cur false
  = removelast (parseCsvLineFrom before out cur false)
    ++ [last (parseCsvLineFrom before out cur false) [] ++ after].
Proof.
  induction before as [|c s IH]; intros after out cur Hb Ha.
  - cbn [app parseCsvLineFrom]. cbn [N.eqb Pos.eqb].
    rewrite parseCsvLineFrom_open by exact Ha.
    cbn [rev]. rewrite removelast_last, last_last, rev_app_distr, rev_involutive.
    reflexivity.
  - cbn [existsb] in Hb. apply orb_false_iff in Hb as [Hq Hs].
    rewrite N.eqb_sym in Hq. cbn [app parseCsvLineFrom]. rewrite Hq.
    destruct (N.eqb c 44); apply IH; assumption.
Qed.

(** X4.  A quote that is never closed takes the rest of the line into its
    cell, commas included: when neither the text before the quote nor the
    text after it holds a quote, the cells are those of the text before,
    the last of them extended by the whole text after. *)
Theorem parseCsvLine_unclosed_quote :
  forall before after : jsstring,
    existsb (N.eqb 34) before = false ->
    existsb (N.eqb 34) after = false ->
    parseCsvLine (before ++ [34%N] ++ after)
    = removelast (parseCsvLine before) ++ [last (parseCsvLine before) [] ++ after].
Proof.
  intros before after Hb Ha. unfold parseCsvLine.
  apply parseCsvLineFrom_unclosed; assumption.
Qed.

End UnquotedLines.

Section HeaderCells.
Close Scope Z_scope.

(** *** Header cells *)

Lemma dropWhile_id p s :
  match s with c :: _ => p c | [] => false end = false -> dropWhile p s = s.
Proof. destruct s as [|c t]; [reflexivity|]. cbn. intros ->. reflexivity. Qed.

Lemma forallb_rev (p : N -> bool) s : forallb p (rev s) = forallb p s.
Proof.
  induction s as [|c t IH]; [reflexivity|].
  cbn [rev forallb]. rewrite forallb_app, IH. cbn. rewrite andb_true_r. apply andb_comm.
Qed.

Lemma trim_id s : forallb (fun c => negb (isWhiteSpace c)) s = true -> trim s = s.
Proof.
  intros H. unfold trim, trimEnd, trimStart.
  rewrite (dropWhile_id isWhiteSpace s).
  - rewrite dropWhile_id; [apply rev_involutive|].
    rewrite <- forallb_rev in H. destruct (rev s) as [|c t]; [reflexivity|].
    cbn in H. apply andb_true_iff in H as [H _]. apply negb_true_iff in H. exact H.
  - destruct s as [|c t]; [reflexivity|].
    cbn in H. apply andb_true_iff in H as [H _]. apply negb_true_iff in H. exact H.
Qed.

Lemma forallb_and (p q : N -> bool) s :
  forallb (fun c => p c && q c) s = forallb p s && forallb q s.
Proof.
  induction s as [|c t IH]; [reflexivity|]. cbn [forallb]. rewrite IH.
  destruct (p c), (q c), (forallb p t), (forallb q t); reflexivity.
Qed.

Lemma normalizeHeaderCell_cases value :
  normalizeHeaderCell value = []
  \/ normalizeHeaderCell value = js "PHP_DEBIT"
  \/ normalizeHeaderCell value = js "PHP_CREDIT"
  \/ exists upper,
       normalizeHeaderCell value
       = collapseRun (N.eqb 95) (js "_") false
           (collapseRun isWhiteSpace (js "_") false
              (substitute (N.eqb 46) [] (toUpperCase upper))).
Proof.
  unfold normalizeHeaderCell.
  destruct (trim (ToString (nullish value (JStr [])))) as [|c raw]; [left; reflexivity|].
  cbv zeta.
  destruct (str_eqb _ (js "PHP D E B I T")); [right; left; reflexivity|].
  destruct (str_eqb _ (js "PHP C R E D I T")); [right; right; left; reflexivity|].
  right. right. right. eexists.
  unfold re_underscores, re_spaces, re_dot, chr, space.
  rewrite (replaceAll_two (N.eqb 95) 95%N) by (intros x Hx; apply N.eqb_eq in Hx; auto).
  rewrite replaceAll_plus, replaceAll_Cls. reflexivity.
Qed.

Lemma normalized_shape upper :
  let y := collapseRun (N.eqb 95) (js "_") false
             (collapseRun isWhiteSpace (js "_") false
                (substitute (N.eqb 46) [] (toUpperCase upper))) in
  forallb isHeaderChar y = true /\ noPair (N.eqb 95) y = true.
Proof.
  cbv zeta. split; [|apply (collapseRun_noPair (N.eqb 95) 95%N); reflexivity].
  unfold isHeaderChar. rewrite !forallb_and. repeat (apply andb_true_iff; split).
  - apply collapseRun_forall; [reflexivity|]. apply collapseRun_none. reflexivity.
  - apply collapseRun_forall; [reflexivity|]. apply collapseRun_forall; [reflexivity|].
    apply substitute_none.
  - apply collapseRun_forall; [reflexivity|]. apply collapseRun_forall; [reflexivity|].
    apply substitute_forall; [reflexivity|]. apply toUpperCase_no_lower.
Qed.

(** X5.  A normalized header holds no blank, no dot and no small letter,
    and no two underscores in a row: a key such as NO._OF_SHARES cannot come
    out of [normalizeHeaderCell]. *)
Theorem normalizeHeaderCell_shape :
  forall value : JSValue,
    forallb isHeaderChar (normalizeHeaderCell value) = true
    /\ noPair (N.eqb 95) (normalizeHeaderCell value) = true.
Proof.
  intros value.
  destruct (normalizeHeaderCell_cases value) as [->|[->|[->|[upper ->]]]];
    try (split; reflexivity).
  apply normalized_shape.
Qed.

Lemma forallb_differ (q : N -> bool) a b :
  forallb q a = true -> forallb q b = false -> str_eqb a b = false.
Proof.
  intros Ha Hb. unfold str_eqb. destruct (list_eq_dec N.eq_dec a b); [|reflexivity].
  subst. congruence.
Qed.

(** X6.  Normalizing a normalized header that is made of ASCII characters
    changes nothing. *)
Theorem normalizeHeaderCell_idempotent :
  forall value : JSValue,
    forallb isAscii (normalizeHeaderCell value) = true ->
    normalizeHeaderCell (JStr (normalizeHeaderCell value)) = normalizeHeaderCell value.
Proof.
  intros value Hascii.
  assert (H : forallb isHeaderChar (normalizeHeaderCell value) = true
              /\ noPair (N.eqb 95) (normalizeHeaderCell value) = true).
  { destruct (normalizeHeaderCell_cases value) as [->|[->|[->|[upper ->]]]];
      try (split; reflexivity).
    apply normalized_shape. }
  destruct H as [Hc Hp].
  set (y := normalizeHeaderCell value) in *. clearbody y.
  unfold isHeaderChar in Hc. rewrite !forallb_and in Hc.
  apply andb_true_iff in Hc as [Hc Hlow]. apply andb_true_iff in Hc as [Hws Hdot].
  unfold normalizeHeaderCell. cbn [nullish ToString]. rewrite (trim_id y Hws).
  destruct y as [|c y']; [reflexivity|]. set (y := c :: y') in *. cbv zeta.
  unfold re_underscores, re_spaces, re_dot, chr, space.
  rewrite !replaceAll_plus, replaceAll_Cls.
  rewrite (replaceAll_two (N.eqb 95) 95%N) by (intros x Hx; apply N.eqb_eq in Hx; auto).
  rewrite (collapseRun_id isWhiteSpace (js " ") y Hws).
  rewrite (toUpperCase_id y Hascii Hlow).
  rewrite (forallb_differ (fun c => negb (isWhiteSpace c)) y (js "PHP D E B I T") Hws eq_refl).
  rewrite (forallb_differ (fun c => negb (isWhiteSpace c)) y (js "PHP C R E D I T") Hws eq_refl).
  rewrite (substitute_id (N.eqb 46) [] y Hdot).
  rewrite (collapseRun_id isWhiteSpace (js "_") y Hws).
  apply (collapseRun_pair_id (N.eqb 95) 95%N); [|exact Hp].
  intros x Hx. apply N.eqb_eq in Hx. auto.
Qed.

End HeaderCells.

Section References.
Close Scope Z_scope.

(** *** References *)

Lemma split_at_first c : forall x y l1 l2 : jsstring,
  x ++ c :: l1 = y ++ c :: l2 ->
  existsb (N.eqb c) x = false -> existsb (N.eqb c) y = false -> x = y.
Proof.
  induction x as [|d x IH]; intros [|e y] l1 l2 H Hx Hy.
  - reflexivity.
  - cbn in H. injection H as <- _. cbn in Hy. rewrite N.eqb_refl in Hy. discriminate.
  - cbn in H. injection H as -> _. cbn in Hx. rewrite N.eqb_refl in Hx. discriminate.
  - cbn in H. injection H as -> H. f_equal. apply (IH y l1 l2 H).
    + cbn in Hx. apply orb_false_iff in Hx. tauto.
    + cbn in Hy. apply orb_false_iff in Hy. tauto.
Qed.

Lemma dropWhile_suffix p s : exists a, s = a ++ dropWhile p s.
Proof.
  induction s as [|c s [a IH]]; [exists []; reflexivity|].
  cbn. destruct (p c); [exists (c :: a); cbn; f_equal; exact IH | exists []; reflexivity].
Qed.

Lemma dropWhile_head p s :
  match dropWhile p s with c :: _ => negb (p c) | [] => true end = true.
Proof.
  induction s as [|c s IH]; [reflexivity|]. cbn. destruct (p c) eqn:E; [exact IH|].
  rewrite E. reflexivity.
Qed.

Lemma firstn_skipn_run p s : s = firstn (runLength p s) s ++ dropWhile p s.
Proof. rewrite <- skipn_runLength. symmetry. apply firstn_skipn. Qed.

Lemma search_reference raw b e :
  search re_reference raw = Some (b, e) ->
  exists U D,
    raw = U ++ 45%N :: D
    /\ forallb isUpper U = true /\ forallb isDigit D = true
    /\ capture 1 (ms_caps e) = Some U /\ capture 2 (ms_caps e) = Some D.
Proof.
  unfold re_reference. cbn [seq]. rewrite search_Bos. unfold matchAt.
  rewrite mtch_Cat, mtch_Bos. cbn [ms_pos Nat.eqb].
  rewrite mtch_Cat, mtch_Grp, mtch_Rep.
  rewrite rep_Cls_run; [| |cbn; lia|reflexivity].
  2:{ intros st H. rewrite mtch_Cat. unfold chr. rewrite mtch_Cls. cbn [ms_rest].
      unfold nextIs in H. destruct (ms_rest st) as [|c t]; [discriminate|].
      destruct (N.eqb 45 c) eqn:E; [|reflexivity].
      apply N.eqb_eq in E. subst c. discriminate. }
  cbn [ms_rest withinHi].
  destruct (advance_run isUpper raw None 0 []) as (Hr & Hp & Hc).
  destruct (_ && _); [|discriminate].
  rewrite mtch_Cat. unfold chr at 1. rewrite mtch_Cls.
  cbn [ms_rest ms_pos ms_caps ms_prev]. rewrite Hr, Hp, Hc, skipn_runLength.
  destruct (dropWhile isUpper raw) as [|c t] eqn:Hd; [discriminate|].
  destruct (N.eqb 45 c) eqn:E; [|discriminate]. apply N.eqb_eq in E. subst c.
  rewrite mtch_Cat, mtch_Grp. unfold plus, digit. rewrite mtch_Rep.
  rewrite rep_Cls_run; [| |cbn; lia|reflexivity].
  2:{ intros st H. rewrite mtch_Eos. cbn [ms_rest]. unfold nextIs in H.
      destruct (ms_rest st); [discriminate|reflexivity]. }
  cbn [ms_rest withinHi ms_pos].
  match goal with
  | |- context [advance (MState ?a ?b ?c ?d) _] =>
      destruct (advance_run isDigit b a c d) as (Hr2 & Hp2 & Hc2)
  end.
  destruct (_ && _); [|discriminate].
  rewrite mtch_Eos. cbn [ms_rest]. rewrite Hr2, skipn_runLength.
  destruct (dropWhile isDigit t) eqn:Hd2; [|discriminate].
  intros [= _ <-]. cbn [ms_caps]. clear Hr2 Hp2 Hc2.
  match goal with
  | |- context [advance (MState ?a ?b ?c ?d) _] =>
      destruct (advance_run isDigit b a c d) as (_ & Hp2 & Hc2)
  end.
  rewrite Hp2, Hc2.
  exists (firstn (runLength isUpper raw) raw), t.
  split; [|split; [|split; [|split]]].
  - rewrite (firstn_skipn_run isUpper raw) at 1. rewrite Hd. reflexivity.
  - apply firstn_runLength_all.
  - clear -Hd2. induction t as [|d t IH]; [reflexivity|]. cbn in *.
    destruct (isDigit d); [auto|discriminate].
  - cbn. rewrite Nat.sub_0_r. reflexivity.
  - cbn. f_equal.
    match goal with |- context [firstn ?n t] =>
      replace n with (runLength isDigit t) by lia end.
    transitivity (firstn (runLength isDigit t) t ++ dropWhile isDigit t);
      [rewrite Hd2, app_nil_r; reflexivity|symmetry; apply firstn_skipn_run].
Qed.


Ltac decide_class :=
  repeat match goal with
         | |- context [N.eqb ?a ?b] =>
             replace (N.eqb a b) with false by (symmetry; apply N.eqb_neq; lia)
         | |- context [N.leb ?a ?b] =>
             first [ replace (N.leb a b) with false by (symmetry; apply N.leb_gt; lia)
                   | replace (N.leb a b) with true by (symmetry; apply N.leb_le; lia) ]
         end.

Lemma isUpper_not_blank c :
  isUpper c = true -> isWhiteSpace c = false /\ N.eqb 45 c = false.
Proof.
  unfold isUpper, inRange. intros H. apply andb_true_iff in H as [H1 H2].
  apply N.leb_le in H1, H2. unfold isWhiteSpace, inRange. split; decide_class; reflexivity.
Qed.

Lemma isDigit_not_blank c : isDigit c = true -> isWhiteSpace c = false.
Proof.
  unfold isDigit, inRange. intros H. apply andb_true_iff in H as [H1 H2].
  apply N.leb_le in H1, H2. unfold isWhiteSpace, inRange. decide_class; reflexivity.
Qed.

Lemma forallb_impl (p q : N -> bool) s :
  (forall c, p c = true -> q c = true) -> forallb p s = true -> forallb q s = true.
Proof.
  intros H. induction s as [|c t IH]; [reflexivity|]. cbn. intros Hs.
  apply andb_true_iff in Hs as [Hc Ht]. rewrite (H c Hc). auto.
Qed.

Lemma indexOfFrom_char c : forall s i,
  match indexOfFrom [c] s i with
  | None => existsb (N.eqb c) s = false
  | Some idx => exists a b, s = a ++ c :: b /\ existsb (N.eqb c) a = false
                            /\ idx = (i + List.length a)%nat
  end.
Proof.
  induction s as [|d t IH]; intros i.
  - cbn. reflexivity.
  - cbn [indexOfFrom startsWith existsb]. rewrite andb_true_r.
    destruct (N.eqb c d) eqn:E.
    + apply N.eqb_eq in E. subst d. exists [], t. repeat split. cbn. lia.
    + specialize (IH (S i)). destruct (indexOfFrom [c] t (S i)) as [idx|].
      * destruct IH as (a & b & -> & Ha & ->). exists (d :: a), b.
        repeat split; [cbn; rewrite E; exact Ha|cbn; lia].
      * cbn. exact IH.
Qed.

Lemma firstn_prefix (a : jsstring) b : firstn (List.length a) (a ++ b) = a.
Proof. induction a; cbn; [destruct b; reflexivity|f_equal; auto]. Qed.

Lemma skipn_after (a : jsstring) c b : skipn (S (List.length a)) (a ++ c :: b) = b.
Proof. induction a; cbn; auto. Qed.

Lemma dropWhile_existsb (q p : N -> bool) s :
  existsb q s = false -> existsb q (dropWhile p s) = false.
Proof.
  induction s as [|c t IH]; [reflexivity|]. cbn. intros H.
  apply orb_false_iff in H as [Hc Ht]. destruct (p c); [auto|]. cbn. rewrite Hc. exact Ht.
Qed.

Lemma existsb_rev (p : N -> bool) s : existsb p (rev s) = existsb p s.
Proof.
  induction s as [|c s IH]; [reflexivity|].
  cbn [rev existsb]. rewrite existsb_app, IH. cbn. rewrite orb_false_r. apply orb_comm.
Qed.

Lemma trim_existsb (q : N -> bool) s : existsb q s = false -> existsb q (trim s) = false.
Proof.
  intros H. unfold trim, trimEnd, trimStart. rewrite existsb_rev.
  apply dropWhile_existsb. rewrite existsb_rev. apply dropWhile_existsb. exact H.
Qed.

Lemma trim_trimmed s :
  match trim s with c :: _ => isWhiteSpace c | [] => false end = false
  /\ match rev (trim s) with c :: _ => isWhiteSpace c | [] => false end = false.
Proof.
  unfold trim, trimEnd, trimStart. split.
  - pose proof (dropWhile_head isWhiteSpace s) as H0.
    set (u := dropWhile isWhiteSpace s) in *.
    destruct u as [|c t]; [reflexivity|]. apply negb_true_iff in H0.
    pose proof (dropWhile_suffix isWhiteSpace (rev (c :: t))) as [a Ha].
    apply (f_equal (@rev N)) in Ha. rewrite rev_involutive, rev_app_distr in Ha.
    destruct (rev (dropWhile isWhiteSpace (rev (c :: t)))) as [|d r]; [reflexivity|].
    cbn in Ha. injection Ha as <- _. exact H0.
  - rewrite rev_involutive.
    pose proof (dropWhile_head isWhiteSpace (rev (dropWhile isWhiteSpace s))) as H0.
    destruct (dropWhile isWhiteSpace (rev (dropWhile isWhiteSpace s))); [reflexivity|].
    apply negb_true_iff in H0. exact H0.
Qed.

(** X7.  [parseReference] gives the trimmed text before the first hyphen as
    the code and the trimmed text after it as the number (the whole text as
    the code when there is no hyphen): the branch of the regular expression
    gives what the generic split gives.  The code therefore never holds a
    hyphen, and neither starts nor ends with a blank. *)
Theorem parseReference_split :
  forall ref : JSValue,
    parseReference ref = splitAtHyphen (trim (ToString (nullish ref (JStr []))))
    /\ existsb (N.eqb 45) (fst (parseReference ref)) = false
    /\ match fst (parseReference ref) with c :: _ => isWhiteSpace c | [] => false end = false
    /\ match rev (fst (parseReference ref)) with c :: _ => isWhiteSpace c | [] => false end
       = false.
Proof.
  intros ref.
  assert (E : parseReference ref = splitAtHyphen (trim (ToString (nullish ref (JStr []))))).
  { unfold parseReference, splitAtHyphen.
    destruct (trim (ToString (nullish ref (JStr [])))) as [|c raw]; [reflexivity|].
    destruct (search re_reference (c :: raw)) as [[b e]|] eqn:S; [|reflexivity].
    apply search_reference in S as (U & D & HU & Hup & Hdig & -> & ->).
    rewrite HU. unfold indexOf.
    pose proof (indexOfFrom_char 45 (U ++ 45%N :: D) 0) as H.
    change (js "-") with [45%N].
    destruct (indexOfFrom [45%N] (U ++ 45%N :: D) 0) as [idx|].
    - destruct H as (a & b' & Hab & Ha & ->).
      assert (HUa : U = a).
      { apply (split_at_first 45 U a D b' Hab); [|exact Ha].
        apply not_true_is_false. intros Hx. apply existsb_exists in Hx as (x & Hx & Hx').
        rewrite forallb_forall in Hup. apply Hup, isUpper_not_blank in Hx as [_ Hx].
        congruence. }
      subst a. apply app_inv_head in Hab. injection Hab as <-.
      unfold slice, sliceFrom. cbn [Nat.add]. rewrite Nat.sub_0_r, skipn_O.
      rewrite firstn_prefix, skipn_after.
      rewrite !trim_id; [reflexivity| |].
      + eapply forallb_impl; [|exact Hdig]. intros x Hx.
        apply isDigit_not_blank in Hx. rewrite Hx. reflexivity.
      + eapply forallb_impl; [|exact Hup]. intros x Hx.
        apply isUpper_not_blank in Hx as [Hx _]. rewrite Hx. reflexivity.
    - rewrite existsb_app in H. cbn in H. rewrite orb_true_r in H. discriminate. }
  split; [exact E|]. rewrite E. unfold splitAtHyphen.
  pose proof (trim_trimmed (ToString (nullish ref (JStr [])))) as [Ht1 Ht2].
  destruct (trim (ToString (nullish ref (JStr [])))) as [|c raw] eqn:Hraw;
    [repeat split|].
  unfold indexOf. pose proof (indexOfFrom_char 45 (c :: raw) 0) as H.
  change (js "-") with [45%N].
  destruct (indexOfFrom [45%N] (c :: raw) 0) as [idx|].
  - destruct H as (a & b' & Hab & Ha & ->). cbn [fst]. rewrite Hab.
    unfold slice. cbn [Nat.add]. rewrite Nat.sub_0_r, skipn_O, firstn_prefix.
    split; [apply trim_existsb; exact Ha|]. apply trim_trimmed.
  - cbn [fst]. split; [exact H|]. split; assumption.
Qed.

End References.

Section Loader.

(** *** The rows of the loader *)

Lemma str_eqb_true a b : str_eqb a b = true <-> a = b.
Proof.
  unfold str_eqb. destruct (list_eq_dec N.eq_dec a b); split; auto; discriminate.
Qed.

Lemma str_eqb_false a b : str_eqb a b = false <-> a <> b.
Proof.
  unfold str_eqb. destruct (list_eq_dec N.eq_dec a b); split; auto; try discriminate.
  intros H. contradiction.
Qed.

Lemma getProp_setProp o k v k' :
  getProp (setProp o k v) k' = if str_eqb k k' then v else getProp o k'.
Proof.
  induction o as [|[k0 v0] o IH]; cbn [setProp getProp].
  - reflexivity.
  - destruct (str_eqb k0 k) eqn:E0; cbn [getProp].
    + apply str_eqb_true in E0. subst k0. destruct (str_eqb k k'); reflexivity.
    + rewrite IH. destruct (str_eqb k0 k') eqn:E1; [|reflexivity].
      apply str_eqb_true in E1. subst k0.
      destruct (str_eqb k k') eqn:E2; [|reflexivity].
      apply str_eqb_true in E2. subst k'. apply str_eqb_false in E0. contradiction.
Qed.

Lemma buildRowObject_absent : forall headers cells obj k,
  ~ In k headers -> getProp (buildRowObject headers cells obj) k = getProp obj k.
Proof.
  induction headers as [|h hs IH]; intros cells obj k Hk; [reflexivity|].
  cbn [buildRowObject]. rewrite IH by (intros H; apply Hk; right; exact H).
  destruct h as [|c h']; [reflexivity|]. rewrite getProp_setProp.
  destruct (str_eqb (c :: h') k) eqn:E; [|reflexivity].
  apply str_eqb_true in E. exfalso. apply Hk. left. exact E.
Qed.

Lemma buildRowObject_last : forall before cells obj k after,
  k <> [] -> ~ In k after ->
  getProp (buildRowObject (before ++ k :: after) cells obj) k
  = nth (List.length before) cells JUndefined.
Proof.
  induction before as [|h hs IH]; intros cells obj k after Hk Hafter.
  - cbn [app buildRowObject List.length]. rewrite buildRowObject_absent by exact Hafter.
    destruct k as [|c k']; [contradiction|]. rewrite getProp_setProp.
    assert (str_eqb (c :: k') (c :: k') = true) as -> by (apply str_eqb_true; reflexivity).
    destruct cells; reflexivity.
  - cbn [app buildRowObject List.length]. rewrite IH by assumption.
    destruct cells; [destruct (List.length hs)|]; reflexivity.
Qed.

(** X8.  In the object built for a data row, a column name reads the cell
    of the last column with that name: when two columns have the same
    normalized header the later one wins; a cell past the end of the row
    reads [undefined], and so does a name no column has. *)
Theorem row_object_last_column_wins :
  forall (before after : list jsstring) (k : jsstring) (cells : list JSValue),
    k <> [] ->
    (~ In k after ->
     getProp (buildRowObject (before ++ k :: after) cells []) k
     = nth (List.length before) cells JUndefined)
    /\ (~ In k before -> ~ In k after ->
        getProp (buildRowObject (before ++ after) cells []) k = JUndefined).
Proof.
  intros before after k cells Hk. split.
  - intros Hafter. apply buildRowObject_last; assumption.
  - intros H1 H2. rewrite buildRowObject_absent; [reflexivity|].
    intros H. apply in_app_or in H as [H|H]; contradiction.
Qed.

Lemma coerceLedgerRow_loaded obj : isCodeBlank obj = false -> loadedRow (coerceLedgerRow obj).
Proof.
  intros H. split; [reflexivity|].
  exists (trim (ToString (nullish (getProp obj (js "CD")) (JStr [])))).
  split; [reflexivity|]. unfold isCodeBlank in H. intros E. rewrite E in H. discriminate.
Qed.

Lemma csvDataRows_loaded hs lines : Forall loadedRow (csvDataRows hs lines).
Proof.
  induction lines as [|l lines IH]; cbn [csvDataRows]; [constructor|].
  destruct (isCodeBlank _) eqn:E; [exact IH|].
  constructor; [apply coerceLedgerRow_loaded; exact E|exact IH].
Qed.

Lemma worksheetDataRows_loaded hs rows : Forall loadedRow (worksheetDataRows hs rows).
Proof.
  induction rows as [|r rows IH]; cbn [worksheetDataRows]; [constructor|].
  destruct r as [|c r]; [exact IH|].
  destruct (isCodeBlank _) eqn:E; [exact IH|].
  constructor; [apply coerceLedgerRow_loaded; exact E|exact IH].
Qed.

Lemma andValidate_loaded r :
  match r with Ok rows => Forall loadedRow rows | Throw msg => In msg loaderMessages end ->
  match andValidate r with
  | Ok rows => rows <> [] /\ Forall loadedRow rows
  | Throw msg => In msg loaderMessages
  end.
Proof.
  destruct r as [rows|msg]; cbn [andValidate]; [|auto].
  intros H. destruct rows as [|row rows].
  - cbn. right. right. right. left. reflexivity.
  - rewrite validate_sample. inversion H as [|? ? [Hrow _] _]; subst. rewrite Hrow.
    split; [discriminate|exact H].
Qed.

(** X9.  The loader either returns at least one row, every row having the
    required columns and a code that is not empty, or fails with one of six
    messages (missing file data, unsupported file type, header row not
    found, no ledger rows found, no sheets, first sheet missing) or with the
    error of the workbook reader: the check of the required columns cannot
    fail on the rows the adapters build. *)
Theorem loader_outcomes :
  forall (filename : JSValue) (buffer : option (list N)),
    match loadFmsecLedgerRowsFromBuffer filename buffer with
    | Ok rows =>
        rows <> []
        /\ Forall (fun row => forallb (hasProp row) required = true
                              /\ exists cd, getProp row (js "CD") = JStr cd /\ cd <> []) rows
    | Throw msg =>
        In msg loaderMessages
        \/ exists buf, buffer = Some buf /\ XLSX_read buf = Throw msg
    end.
Proof.
  intros filename buffer. unfold loadFmsecLedgerRowsFromBuffer.
  destruct buffer as [[|b bs]|]; try (left; left; reflexivity).
  destruct (str_eqb (getExtension filename) (js "csv")).
  { pose proof (andValidate_loaded
                  (loadFmsecLedgerRowsFromCsvText (JStr (utf8ToString (b :: bs))))) as H.
    destruct (andValidate _) as [rows|msg]; [apply H|left; apply H].
    - unfold loadFmsecLedgerRowsFromCsvText, loadRowsFromCsvLines.
      destruct (findIndex _ _); [apply csvDataRows_loaded|].
      right. right. left. reflexivity.
    - unfold loadFmsecLedgerRowsFromCsvText, loadRowsFromCsvLines.
      destruct (findIndex _ _); [apply csvDataRows_loaded|].
      right. right. left. reflexivity. }
  destruct (_ || _); [|left; right; left; reflexivity].
  destruct (XLSX_read (b :: bs)) as [wb|msg] eqn:R; [|right; exists (b :: bs); auto].
  assert (Hp : match pickFirstSheet wb with Ok _ => True | Throw m => In m loaderMessages end).
  { unfold pickFirstSheet. destruct (SheetNames wb) as [|[|c n] ns].
    - do 4 right. left. reflexivity.
    - do 4 right. left. reflexivity.
    - destruct (find _ _) as [[? ?]|]; [exact I|]. do 5 right. left. reflexivity. }
  destruct (pickFirstSheet wb) as [ws|msg]; [|left; exact Hp].
  pose proof (andValidate_loaded (parseLedgerRowsFromWorksheet ws)) as H.
  assert (Hw : match parseLedgerRowsFromWorksheet ws with
               | Ok rows => Forall loadedRow rows
               | Throw msg => In msg loaderMessages
               end).
  { unfold parseLedgerRowsFromWorksheet. destruct ws as [|r ws]; [constructor|].
    destruct (findIndex _ _); [apply worksheetDataRows_loaded|].
    right. right. left. reflexivity. }
  destruct (andValidate _) as [rows|msg]; [apply H; exact Hw|left; apply H; exact Hw].
Qed.

End Loader.

Section SerialFloor.
Close Scope Z_scope.

(** *** The integer part of a serial *)

Lemma digits2_pos_bound m : (Z.pos m < 2 ^ Z.pos (digits2_pos m))%Z.
Proof.
  induction m as [p IH|p IH|]; cbn [digits2_pos]; [| |reflexivity];
    rewrite Pos2Z.inj_succ, Z.pow_succ_r by lia; lia.
Qed.

Lemma valid_mantissa_bound s m e :
  valid_binary (S754_finite s m e) = true -> (Z.pos m < 2 ^ 53)%Z.
Proof.
  unfold SpecFloat.valid_binary, bounded, canonical_mantissa, fexp.
  intros H. apply andb_true_iff in H as [H _]. apply Z.eqb_eq in H.
  pose proof (digits2_pos_bound m) as Hd.
  assert (Z.pos (digits2_pos m) <= 53)%Z by (unfold prec in H; lia).
  eapply Z.lt_le_trans; [exact Hd|]. apply Z.pow_le_mono_r; lia.
Qed.

Lemma floorZ_serial x :
  (2958465 <? x)%float = false -> (x <? 0)%float = false ->
  (0 <= floorZ x <= 2958465)%Z.
Proof.
  rewrite !ltb_spec. unfold floorZ. pose proof (Prim2SF_valid x) as Hv.
  change (Prim2SF 2958465%float) with (S754_finite false 6353255210680320 (-31)).
  change (Prim2SF 0%float) with (S754_zero false).
  destruct (Prim2SF x) as [s|s| |s m e]; try lia.
  intros Hhi Hlo. destruct s; [discriminate|].
  apply valid_mantissa_bound in Hv.
  unfold SFltb, SFcompare in Hhi.
  destruct (Z.compare_spec (-31) e) as [He|He|He]; try discriminate.
  - subst e. 
    replace (0 <=? -31)%Z with false by reflexivity.
    assert (Hm : (Z.pos m <= 6353255210680320)%Z).
    { change (PosDef.Pos.compare_cont Eq 6353255210680320 m)
        with (Pos.compare 6353255210680320 m) in Hhi.
      clear Hv Hlo.
      destruct (Pos.compare 6353255210680320 m) eqn:Hc; try discriminate.
      - apply Pos.compare_eq in Hc. subst m. apply Z.le_refl.
      - apply Pos.compare_gt_iff in Hc. apply Pos2Z.pos_lt_pos in Hc.
        apply Z.lt_le_incl. exact Hc. }
    change (- -31)%Z with 31%Z.
    change (2 ^ 31)%Z with 2147483648%Z.
    clear Hhi Hlo Hv.
    split; Z.div_mod_to_equations; lia.
  -
    assert ((0 <=? e)%Z = false) as -> by (apply Z.leb_gt; lia).
    assert (Hp : (2 ^ 32 <= 2 ^ (- e))%Z) by (apply Z.pow_le_mono_r; lia).
    clear Hhi Hlo.
    assert (H0 : (0 < 2 ^ (- e))%Z) by (apply Z.pow_pos_nonneg; lia).
    generalize dependent (2 ^ (- e))%Z. intros q Hp H0.
    change (2 ^ 53)%Z with 9007199254740992%Z in Hv.
    change (2 ^ 32)%Z with 4294967296%Z in Hp.
    split; [apply Z.div_pos; lia|].
    transitivity (Z.pos m / 4294967296)%Z.
    + apply Z.div_le_compat_l; lia.
    + Z.div_mod_to_equations; lia.
Qed.

End SerialFloor.

Section Serials.

Lemma daysFromCivil_before_1900 y m d :
  1 <= m <= 12 -> 1 <= d <= 31 -> y <= 1899 -> daysFromCivil y m d < -25567.
Proof.
  intros Hm Hd Hy. unfold daysFromCivil. destruct (m <=? 2) eqn:E.
  - apply Z.leb_le in E. Z.div_mod_to_equations; lia.
  - apply Z.leb_gt in E. Z.div_mod_to_equations; lia.
Qed.

Lemma days_civil_days z :
  let '(y, m, d) := civilFromDays z in daysFromCivil y m d = z.
Proof.
  unfold civilFromDays.
  set (z' := z + 719468).
  set (era := z' / 146097).
  set (doe := z' - era * 146097).
  assert (Hdoe : 0 <= doe <= 146096) by (subst doe era; Z.div_mod_to_equations; lia).
  assert (Hz : z = era * 146097 + doe - 719468) by (subst doe z'; lia).
  clearbody doe. clearbody era. clear z'. subst z.
  set (yoe := (doe - doe / 1460 + doe / 36524 - doe / 146096) / 365).
  assert (Hyoe : 0 <= yoe <= 399) by (subst yoe; Z.div_mod_to_equations; lia).
  set (doy := doe - (365 * yoe + yoe / 4 - yoe / 100)).
  assert (Hdoy : 0 <= doy <= 365).
  { subst doy yoe. Z.div_mod_to_equations; lia. }
  assert (Hdoe2 : doe = 365 * yoe + yoe / 4 - yoe / 100 + doy) by (subst doy; lia).
  clearbody doy. clearbody yoe. subst doe.
  set (mp := (5 * doy + 2) / 153).
  assert (Hmp : 0 <= mp <= 11) by (subst mp; Z.div_mod_to_equations; lia).
  set (d := doy - (153 * mp + 2) / 5 + 1).
  assert (Hd : 1 <= d <= 31) by (subst d mp; Z.div_mod_to_equations; lia).
  assert (Hdoy2 : doy = (153 * mp + 2) / 5 + d - 1) by (subst d; lia).
  (* leap day at the end of the era year: yoe = 399 needs doy <= 365; a common year doy <= 364 *)
  assert (Hleap : mp = 11 -> d <= 29) by (subst d mp; Z.div_mod_to_equations; lia).
  clearbody d. clearbody mp. subst doy.
  unfold daysFromCivil.
  destruct (mp <? 10) eqn:E; [apply Z.ltb_lt in E|apply Z.ltb_ge in E].
  - replace (mp + 3 <=? 2) with false by (symmetry; apply Z.leb_gt; lia).
    replace ((mp + 3 + 9) mod 12) with mp by (Z.div_mod_to_equations; lia).
    replace ((yoe + era * 400) / 400) with era by (Z.div_mod_to_equations; lia).
    replace (yoe + era * 400 - era * 400) with yoe by lia. lia.
  - replace (mp - 9 <=? 2) with true by (symmetry; apply Z.leb_le; lia).
    replace ((mp - 9 + 9) mod 12) with mp by (Z.div_mod_to_equations; lia).
    replace (yoe + era * 400 + 1 - 1) with (yoe + era * 400) by lia.
    replace ((yoe + era * 400) / 400) with era by (Z.div_mod_to_equations; lia).
    replace (yoe + era * 400 - era * 400) with yoe by lia. lia.
Qed.

Lemma civil_from_1900 z :
  -25567 <= z ->
  1900 <= fst (fst (civilFromDays z)).
Proof.
  intros Hz. pose proof (days_civil_days z) as Hr.
  pose proof (civilFromDays_ranges z) as [Hm Hd].
  destruct (civilFromDays z) as [[y m] d]. cbn [fst snd] in *.
  destruct (Z_le_gt_dec 1900 y) as [H|H]; [exact H|].
  pose proof (@daysFromCivil_before_1900 y m d Hm Hd ltac:(lia)). lia.
Qed.

Lemma DateUTC_noon_of_day z :
  -25567 <= z <= 99999000 ->
  (let '(y, m, d) := civilFromDays z in DateUTC y (m - 1) d 12 0 0) = noonUTC z.
Proof.
  intros Hz. pose proof (days_civil_days z) as Hr.
  pose proof (civilFromDays_ranges z) as [Hm Hd].
  pose proof (civil_from_1900 z ltac:(lia)) as Hy.
  destruct (civilFromDays z) as [[y m] d]. cbn [fst snd] in Hm, Hd, Hy.
  unfold DateUTC, MakeDay.
  replace ((0 <=? y) && (y <=? 99)) with false
    by (symmetry; apply andb_false_iff; right; apply Z.leb_gt; lia).
  replace ((m - 1) / 12) with 0 by (Z.div_mod_to_equations; lia).
  replace ((m - 1) mod 12 + 1) with m by (Z.div_mod_to_equations; lia).
  rewrite (Z.add_0_r y), <- (daysFromCivil_day y m d), Hr.
  unfold TimeClip, noonUTC, msPerDay.
  replace (8640000000000000 <? _) with false by (symmetry; apply Z.ltb_ge; lia).
  f_equal. lia.
Qed.

(** MakeDay on the fields of a day, the day of the month moved by [n]. *)
Lemma MakeDay_civil z n :
  MakeDay (fst (fst (civilFromDays z))) (snd (fst (civilFromDays z)) - 1)
    (snd (civilFromDays z) + n) = z + n.
Proof.
  pose proof (days_civil_days z) as Hr.
  pose proof (civilFromDays_ranges z) as [Hm Hd].
  destruct (civilFromDays z) as [[y m] d]. cbn [fst snd] in *.
  unfold MakeDay.
  replace ((m - 1) / 12) with 0 by (Z.div_mod_to_equations; lia).
  replace ((m - 1) mod 12 + 1) with m by (Z.div_mod_to_equations; lia).
  rewrite (Z.add_0_r y). rewrite (daysFromCivil_day y m d) in Hr. lia.
Qed.

Lemma localFields_triple t :
  (getFullYear t, getMonth t + 1, getDate t) = localFields t.
Proof.
  unfold getFullYear, getMonth, getDate. destruct (localFields t) as [[y m] d].
  cbn [fst snd]. f_equal. f_equal. lia.
Qed.

(** The fields [parse_date_code] reads for the day count [n]: those of the
    local day reached from the local time of [new Date(1900, 0, 1)], moved
    by [n - 1] days and converted to UTC and back. *)
Lemma serial_fields n :
  1 <= n <= 2958465 ->
  exists day,
    match localMidnight 1900 1 1 with
    | DateAt t0 =>
        match setDate t0 (getDate t0 + n - 1) with
        | DateAt t => Some (getFullYear t, getMonth t + 1, getDate t)
        | InvalidDate => None
        end
    | InvalidDate => None
    end = Some (civilFromDays day)
    /\ day = LocalTime (UTC (LocalTime (UTC (-25567 * msPerDay)) + (n - 1) * msPerDay))
             / msPerDay
    /\ -25567 + n - 1 <= day <= -25567 + n + 2.
Proof.
  intros Hn.
  rewrite localMidnight_at by (vm_compute; discriminate).
  change (daysFromCivil 1900 1 1) with (-25567).
  set (t0 := UTC (-25567 * msPerDay)).
  pose proof (LocalTime_UTC (-25567 * msPerDay)) as H0. fold t0 in H0.
  unfold setDate, getDate, localFields.
  set (L0 := LocalTime t0) in *.
  replace (snd (civilFromDays (L0 / msPerDay)) + n - 1)
    with (snd (civilFromDays (L0 / msPerDay)) + (n - 1)) by lia.
  rewrite MakeDay_civil.
  replace ((L0 / msPerDay + (n - 1)) * msPerDay + L0 mod msPerDay)
    with (L0 + (n - 1) * msPerDay)
    by (pose proof (Z.div_mod L0 msPerDay ltac:(discriminate)); lia).
  set (newLocal := L0 + (n - 1) * msPerDay).
  pose proof (UTC_bound newLocal) as Hu.
  pose proof (LocalTime_UTC newLocal) as H1.
  rewrite TimeClip_small by (unfold newLocal, msPerDay in *; lia).
  rewrite localFields_triple. unfold localFields.
  exists (LocalTime (UTC newLocal) / msPerDay).
  split; [reflexivity|]. split; [reflexivity|].
  unfold newLocal, msPerDay in *. split.
  - apply Z.div_le_lower_bound; lia.
  - apply Z.lt_succ_r. apply Z.div_lt_upper_bound; lia.
Qed.


Lemma parse_date_code_serialDay v :
  parse_date_code v
  = match serialDay v with
    | None => None
    | Some date =>
        if date =? 60 then Some (1900, 2, 29)
        else if date =? 0 then Some (1900, 1, 0)
        else
          let n := if 60 <? date then date - 1 else date in
          match localMidnight 1900 1 1 with
          | DateAt t0 =>
              match setDate t0 (getDate t0 + n - 1) with
              | DateAt t => Some (getFullYear t, getMonth t + 1, getDate t)
              | InvalidDate => None
              end
          | InvalidDate => None
          end
    end.
Proof.
  unfold parse_date_code, serialDay.
  destruct ((2958465 <? v)%float || (v <? 0)%float); reflexivity.
Qed.

Lemma serialDay_range v date : serialDay v = Some date -> 0 <= date <= 2958466.
Proof.
  unfold serialDay.
  destruct ((2958465 <? v)%float || (v <? 0)%float) eqn:Hr; [discriminate|].
  apply orb_false_iff in Hr as [Hhi Hlo].
  pose proof (floorZ_serial v Hhi Hlo) as Hf.
  intros [= <-]. destruct (_ && _); lia.
Qed.

(** The date of a serial: noon UTC of the day whose fields
    [parse_date_code] gives. *)
Lemma serialToDate_day x dt :
  serialToDate x = Some dt ->
  dt = noonUTC (-25508)
  \/ exists n day,
       1 <= n <= 2958465
       /\ day = LocalTime (UTC (LocalTime (UTC (-25567 * msPerDay)) + (n - 1) * msPerDay))
                / msPerDay
       /\ -25567 + n - 1 <= day <= -25567 + n + 2
       /\ dt = noonUTC day.
Proof.
  unfold serialToDate. rewrite parse_date_code_serialDay.
  destruct (serialDay x) as [date|] eqn:Hs; [|discriminate].
  apply serialDay_range in Hs.
  destruct (date =? 60) eqn:E60.
  { intros [= <-]. left. reflexivity. }
  destruct (date =? 0) eqn:E0; [discriminate|].
  apply Z.eqb_neq in E60, E0. cbv zeta.
  set (n := if 60 <? date then date - 1 else date).
  assert (Hn : 1 <= n <= 2958465).
  { subst n. destruct (60 <? date) eqn:E; [apply Z.ltb_lt in E|apply Z.ltb_ge in E]; lia. }
  clearbody n.
  destruct (serial_fields n Hn) as (day & -> & Hday & Hb).
  pose proof (DateUTC_noon_of_day day ltac:(lia)) as Hd.
  pose proof (civilFromDays_ranges day) as [Hm Hdd].
  pose proof (civil_from_1900 day ltac:(lia)) as Hy.
  destruct (civilFromDays day) as [[y m] d]. cbn [fst snd] in Hm, Hdd, Hy.
  replace (y =? 0) with false by (symmetry; apply Z.eqb_neq; lia).
  replace (m =? 0) with false by (symmetry; apply Z.eqb_neq; lia).
  replace (d =? 0) with false by (symmetry; apply Z.eqb_neq; lia).
  cbn [negb andb]. intros [= <-]. right. exists n, day.
  split; [exact Hn|]. split; [exact Hday|]. split; [exact Hb|]. exact Hd.
Qed.

Lemma serialToDate_noon x dt :
  serialToDate x = Some dt ->
  exists day,
    dt = noonUTC day /\ -25567 <= day <= 2932900
    /\ ((forall t, LocalTime (UTC t) = t) -> day <= 2932897).
Proof.
  intros H. apply serialToDate_day in H as [->|(n & day & Hn & Hday & Hb & ->)].
  - exists (-25508). split; [reflexivity|]. split; lia.
  - exists day. split; [reflexivity|]. split; [lia|].
    intros Hg. rewrite !Hg in Hday.
    replace (-25567 * msPerDay + (n - 1) * msPerDay) with ((-25567 + n - 1) * msPerDay)
      in Hday by lia.
    rewrite Z.div_mul in Hday by discriminate. lia.
Qed.

Lemma firstValidPattern_valid ps raw dt :
  firstValidPattern ps raw = Some dt -> isValidDate dt = true.
Proof.
  induction ps as [|p ps IH]; [discriminate|]. cbn [firstValidPattern].
  destruct (isValidDate (dateFnsParse p raw)) eqn:E; [|exact IH].
  intros [= <-]. exact E.
Qed.

Lemma serialToDate_valid x dt : serialToDate x = Some dt -> isValidDate dt = true.
Proof. intros H. apply serialToDate_noon in H as (day & -> & _). reflexivity. Qed.

Lemma parseLedgerDate_valid value dt :
  parseLedgerDate value = Some dt -> isValidDate dt = true.
Proof.
  unfold parseLedgerDate.
  set (fromText := match trim (ToString value) with [] => None | _ => _ end).
  assert (Ht : fromText = Some dt -> isValidDate dt = true).
  { subst fromText. destruct (trim (ToString value)) as [|c r]; [discriminate|].
    destruct (test re_numeric (c :: r)).
    - destruct (is_finite (StringToNumber (c :: r))).
      + destruct (serialToDate (StringToNumber (c :: r))) as [d|] eqn:E.
        * intros [= <-]. exact (serialToDate_valid _ _ E).
        * apply firstValidPattern_valid.
      + apply firstValidPattern_valid.
    - apply firstValidPattern_valid. }
  clearbody fromText.
  destruct (negb (truthy value)); [discriminate|].
  destruct value as [| |b|x|s|d]; try exact Ht.
  - destruct (is_finite x); [|exact Ht].
    destruct (serialToDate x) as [d|] eqn:E; [|exact Ht].
    intros [= <-]. exact (serialToDate_valid _ _ E).
  - destruct (isValidDate d) eqn:E; [|exact Ht]. intros [= <-]. exact E.
Qed.

End Serials.

Section DateConventions.

(** *** The conventions of the two date parsers *)












End DateConventions.

Section CoercedRows.

Lemma trim_idempotent s : trim (trim s) = trim s.
Proof.
  pose proof (trim_trimmed s) as [Hh Hl]. set (t := trim s) in *. clearbody t.
  unfold trim, trimEnd, trimStart.
  rewrite (dropWhile_id isWhiteSpace t Hh), (dropWhile_id isWhiteSpace (rev t) Hl).
  apply rev_involutive.
Qed.

Lemma trimmedText_again row k :
  JStr (trim (ToString (nullish (trimmedText row k) (JStr [])))) = trimmedText row k.
Proof. unfold trimmedText. cbn [nullish ToString]. rewrite trim_idempotent. reflexivity. Qed.

Lemma parseAmount_again v : parseAmount (ofAmount (parseAmount v)) = parseAmount v.
Proof.
  destruct (parseAmount v) as [x|] eqn:E; [|reflexivity].
  apply parseAmount_finite in E. cbn [ofAmount]. unfold parseAmount. rewrite E. reflexivity.
Qed.

Lemma parseLedgerDate_again v :
  parseLedgerDate (ofDate (parseLedgerDate v)) = parseLedgerDate v.
Proof.
  destruct (parseLedgerDate v) as [d|] eqn:E; [|reflexivity].
  apply parseLedgerDate_valid in E. cbn [ofDate]. unfold parseLedgerDate.
  cbn [truthy negb]. rewrite E. reflexivity.
Qed.

(** X10. [coerceLedgerRow] applied to a row it produced gives the same row:
    the texts are trimmed already, the amounts are finite numbers or [null],
    and the dates are valid dates or [null]. *)
Theorem coerceLedgerRow_idempotent (rawRow : JSObject) :
  coerceLedgerRow (coerceLedgerRow rawRow) = coerceLedgerRow rawRow.
Proof.
  set (row := coerceLedgerRow rawRow).
  assert (H1 : getProp row (js "CD") = trimmedText rawRow (js "CD")) by reflexivity.
  assert (H2 : getProp row (js "NUMBER") = trimmedText rawRow (js "NUMBER")) by reflexivity.
  assert (H3 : getProp row (js "DATE")
               = ofDate (parseLedgerDate (getProp rawRow (js "DATE")))) by reflexivity.
  assert (H4 : getProp row (js "DUE_DATE")
               = ofDate (parseLedgerDate (getProp rawRow (js "DUE_DATE")))) by reflexivity.
  assert (H5 : getProp row (js "PARTICULARS") = trimmedText rawRow (js "PARTICULARS"))
    by reflexivity.
  assert (H6 : getProp row (js "SECURITY") = trimmedText rawRow (js "SECURITY")) by reflexivity.
  assert (H7 : getProp row (js "NO._OF_SHARES") = JUndefined) by reflexivity.
  assert (H8 : getProp row (js "NO_Of_SHARES") = JUndefined) by reflexivity.
  assert (H9 : getProp row (js "NO_OF_SHARES")
               = ofAmount (parseAmount
                   (nullish (getProp rawRow (js "NO._OF_SHARES"))
                      (nullish (getProp rawRow (js "NO_OF_SHARES"))
                         (getProp rawRow (js "NO_Of_SHARES")))))) by reflexivity.
  assert (H10 : getProp row (js "CURRENCY") = trimmedText rawRow (js "CURRENCY")) by reflexivity.
  assert (H11 : getProp row (js "UNIT_PRICE")
                = ofAmount (parseAmount (getProp rawRow (js "UNIT_PRICE")))) by reflexivity.
  assert (H12 : getProp row (js "FX_AMT")
                = ofAmount (parseAmount (getProp rawRow (js "FX_AMT")))) by reflexivity.
  assert (H13 : getProp row (js "FX_RUNNING_BAL")
                = ofAmount (parseAmount (getProp rawRow (js "FX_RUNNING_BAL")))) by reflexivity.
  assert (H14 : getProp row (js "PHP_DEBIT")
                = ofAmount (parseAmount (getProp rawRow (js "PHP_DEBIT")))) by reflexivity.
  assert (H15 : getProp row (js "PHP_CREDIT")
                = ofAmount (parseAmount (getProp rawRow (js "PHP_CREDIT")))) by reflexivity.
  assert (H16 : getProp row (js "PHP_RUNNING_BAL")
                = ofAmount (parseAmount (getProp rawRow (js "PHP_RUNNING_BAL")))) by reflexivity.
  assert (Hs : parseAmount
                 (nullish (getProp row (js "NO._OF_SHARES"))
                    (nullish (getProp row (js "NO_OF_SHARES"))
                       (getProp row (js "NO_Of_SHARES"))))
               = parseAmount (getProp row (js "NO_OF_SHARES"))).
  { rewrite H7, H8. cbn [nullish]. destruct (getProp row (js "NO_OF_SHARES")); reflexivity. }
  unfold coerceLedgerRow at 1. rewrite Hs. unfold trimmedText at 1 2 3 4 5.
  rewrite H1, H2, H3, H4, H5, H6, H9, H10, H11, H12, H13, H14, H15, H16.
  rewrite !trimmedText_again, !parseAmount_again, !parseLedgerDate_again.
  reflexivity.
Qed.

(** X11. A spreadsheet serial that converts to a date converts to noon UTC of
    a calendar day, from the first of January 1900 to the first of January
    10000 in a zone that skips no local time; a zone that skips local times
    can move the day forward, by three days at most. *)
Theorem serial_date_noon :
  forall (num : float) (dt : JSDate),
    serialToDate num = Some dt ->
    exists day,
      dt = DateAt (day * msPerDay + 43200000)
      /\ daysFromCivil 1900 1 1 <= day <= daysFromCivil 10000 1 1 + 3
      /\ ((forall t, LocalTime (UTC t) = t) -> day <= daysFromCivil 10000 1 1).
Proof.
  intros num dt H. apply serialToDate_noon in H as (day & -> & Hd & Hg).
  exists day. split; [reflexivity|]. split; [exact Hd|exact Hg].
Qed.

(** X12. [parseLedgerDate] returns [null] or a valid date, never an invalid
    [Date]; so the DATE and the DUE_DATE of a coerced row are [null] or valid
    dates. *)
Theorem ledger_dates_valid :
  (forall value : JSValue,
     parseLedgerDate value = None \/ exists t, parseLedgerDate value = Some (DateAt t))
  /\ (forall rawRow : JSObject,
        (getProp (coerceLedgerRow rawRow) (js "DATE") = JNull
         \/ exists t, getProp (coerceLedgerRow rawRow) (js "DATE") = JDate (DateAt t))
        /\ (getProp (coerceLedgerRow rawRow) (js "DUE_DATE") = JNull
            \/ exists t, getProp (coerceLedgerRow rawRow) (js "DUE_DATE") = JDate (DateAt t))).
Proof.
  assert (H : forall value : JSValue,
            parseLedgerDate value = None
            \/ exists t, parseLedgerDate value = Some (DateAt t)).
  { intros value. destruct (parseLedgerDate value) as [[|t]|] eqn:E.
    - apply parseLedgerDate_valid in E. discriminate.
    - right. exists t. reflexivity.
    - left. reflexivity. }
  split; [exact H|]. intros rawRow.
  change (getProp (coerceLedgerRow rawRow) (js "DATE"))
    with (ofDate (parseLedgerDate (getProp rawRow (js "DATE")))).
  change (getProp (coerceLedgerRow rawRow) (js "DUE_DATE"))
    with (ofDate (parseLedgerDate (getProp rawRow (js "DUE_DATE")))).
  split.
  - destruct (H (getProp rawRow (js "DATE"))) as [-> | [t ->]];
      [left; reflexivity | right; exists t; reflexivity].
  - destruct (H (getProp rawRow (js "DUE_DATE"))) as [-> | [t ->]];
      [left; reflexivity | right; exists t; reflexivity].
Qed.

End CoercedRows.

Section StatementDates.

(** *** The dates of the statement *)

Lemma isDigit_decVal c : isDigit c = true -> 0 <= decVal c <= 9.
Proof.
  unfold isDigit, inRange, decVal. intros H. apply andb_true_iff in H as [H1 H2].
  apply N.leb_le in H1, H2. lia.
Qed.

Lemma pdfDateShape_year s month day year :
  pdfDateShape s = Some (month, day, year) -> 0 <= year <= 9999.
Proof.
  unfold pdfDateShape.
  destruct s as [|m1 [|m2 [|s1 [|d1 [|d2 [|s2 [|y1 [|y2 [|y3 [|y4 [|x s]]]]]]]]]]];
    try discriminate.
  destruct (forallb isDigit _ && N.eqb s1 47 && N.eqb s2 47) eqn:H; [|discriminate].
  intros [= _ _ <-].
  apply andb_true_iff in H as [H _]. apply andb_true_iff in H as [H _].
  cbn [forallb] in H. repeat (apply andb_true_iff in H as [?H H]).
  repeat match goal with Hd : isDigit _ = true |- _ => apply isDigit_decVal in Hd end.
  unfold digitsToZ. cbn [fold_left]. lia.
Qed.

Lemma DateUTC_noon year month day :
  0 <= year <= 9999 -> 1 <= month <= 12 -> 1 <= day <= 31 ->
  DateUTC year (month - 1) day 12 0 0 = noonUTC (daysFromCivil (centuryYear year) month day).
Proof.
  intros Hy Hm Hd. unfold DateUTC, MakeDay, noonUTC, centuryYear.
  replace ((0 <=? year) && (year <=? 99)) with (year <=? 99)
    by (replace (0 <=? year) with true by (symmetry; apply Z.leb_le; lia); reflexivity).
  set (y := if year <=? 99 then 1900 + year else year).
  assert (Hy' : 100 <= y <= 9999)
    by (subst y; destruct (year <=? 99) eqn:E;
        [apply Z.leb_le in E|apply Z.leb_gt in E]; lia).
  replace ((month - 1) / 12) with 0 by (Z.div_mod_to_equations; lia).
  replace ((month - 1) mod 12 + 1) with month by (Z.div_mod_to_equations; lia).
  replace (y + 0) with y by lia.
  rewrite <- (daysFromCivil_day y month day).
  pose proof (daysFromCivil_bounds y month day ltac:(lia) Hm ltac:(lia)) as Hb.
  rewrite TimeClip_small by (unfold msPerDay; lia).
  f_equal. unfold msPerDay. lia.
Qed.

(** X13.  Whenever the statement's date parser returns a date, the date is
    valid: it is noon UTC of the day that the month, the day and the year of
    the text name, a year below 100 standing for 1900 plus that year.  When
    the month has that day, the UTC calendar fields of the date are the
    year, the month and the day of the text; when it has not (the parser
    accepts any day up to 31), the date is the day of the next month that
    lies as many days after the end of the month. *)
Theorem parsePdfDate_day :
  forall (value : jsstring) (d : JSDate),
    parsePdfDateMmDdYyyy value = Some d ->
    exists month day year t,
      pdfDateShape (trim value) = Some (month, day, year)
      /\ d = DateAt t
      /\ t = daysFromCivil (centuryYear year) month day * msPerDay + 43200000
      /\ (day <= daysInMonth (centuryYear year) (month - 1) ->
          utcFields t = (centuryYear year, month, day))
      /\ (daysInMonth (centuryYear year) (month - 1) < day ->
          utcFields t
          = (fst (nextMonth (centuryYear year) month), snd (nextMonth (centuryYear year) month),
             day - daysInMonth (centuryYear year) (month - 1))).
Proof.
  intros value d H. apply parsePdfDate_strict in H as (month & day & year & Hs & Hm & Hd & ->).
  exists month, day, year,
    (daysFromCivil (centuryYear year) month day * msPerDay + 43200000).
  split; [exact Hs|].
  pose proof (pdfDateShape_year _ _ _ _ Hs) as Hy.
  split; [apply DateUTC_noon; assumption|]. split; [reflexivity|]. split.
  - intros Hdim. rewrite utcFields_noon. apply civil_days_civil; lia.
  - intros Hdim. rewrite utcFields_noon. apply civil_days_overflow; lia.
Qed.

(** The local calendar fields of noon UTC, for a zone that is less than
    twelve hours from UTC at that time. *)
Lemma localFields_noon day :
  - 43200000 <= LocalTZA (day * msPerDay + 43200000) true < 43200000 ->
  localFields (day * msPerDay + 43200000) = civilFromDays day.
Proof.
  intros Htz. unfold localFields, LocalTime. f_equal. unfold msPerDay in *.
  Z.div_mod_to_equations; lia.
Qed.

(** X14.  In a zone that is less than twelve hours from UTC at that time,
    the date the statement's parser gives for a day of the calendar falls, in
    local time, in the year and the month of the text: the aggregation counts
    the row in that month. *)
Theorem parsePdfDate_local_month :
  forall (value : jsstring) (t month day year : Z),
    - 43200000 <= LocalTZA t true < 43200000 ->
    parsePdfDateMmDdYyyy value = Some (DateAt t) ->
    pdfDateShape (trim value) = Some (month, day, year) ->
    day <= daysInMonth (centuryYear year) (month - 1) ->
    getFullYear t = centuryYear year /\ getMonth t = month - 1 /\ getDate t = day.
Proof.
  intros value t month day year Htz H Hs Hdim.
  apply parsePdfDate_strict in H as (month' & day' & year' & Hs' & Hm & Hd & Ht).
  rewrite Hs in Hs'. injection Hs' as <- <- <-.
  pose proof (pdfDateShape_year _ _ _ _ Hs) as Hy.
  rewrite DateUTC_noon in Ht by assumption. unfold noonUTC in Ht. injection Ht as Ht.
  subst t. unfold getFullYear, getMonth, getDate.
  rewrite localFields_noon by exact Htz.
  rewrite civil_days_civil by lia. cbn [fst snd]. repeat split; lia.
Qed.

(** *** The rows of the scan *)

Lemma flush_rows_coded (P : JSObject -> Prop) st :
  (forall block dc cc row,
     parseTransactionBlock block dc cc = Some row -> isCodeBlank row = false -> P row) ->
  Forall P (sc_rows st) -> Forall P (sc_rows (flush st)).
Proof.
  intros HP H. unfold flush. destruct (sc_currentBlock st) as [[|l b]|]; try exact H.
  cbn [sc_rows].
  destruct (parseTransactionBlock (l :: b) (sc_debitColIndex st) (sc_creditColIndex st))
    as [r|] eqn:E; [|exact H].
  destruct (isCodeBlank r) eqn:B; [exact H|].
  apply Forall_app. split; [exact H|]. constructor; [|constructor]. eapply HP; eauto.
Qed.

Lemma scanLines_rows_coded (P : JSObject -> Prop) lines :
  (forall block dc cc row,
     parseTransactionBlock block dc cc = Some row -> isCodeBlank row = false -> P row) ->
  forall st, Forall P (sc_rows st) -> Forall P (sc_rows (scanLines lines st)).
Proof.
  intros HP. induction lines as [|s lines IH]; intros st H; cbn [scanLines]; [exact H|].
  destruct (_ && shouldEndTransactionSection s).
  - change (sc_rows (withBlock (flush st) None)) with (sc_rows (flush st)).
    apply flush_rows_coded; assumption.
  - destruct (includes (js "PRICE") s && includes (js "DEBIT") s).
    { apply IH. destruct (indexOf _ s); exact H. }
    destruct (includes (js "CREDIT") s && includes (js "BALANCE") s).
    { apply IH. destruct (indexOf _ s); exact H. }
    destruct (isTransactionStartLine s).
    { apply IH. change (sc_rows (withBlock (flush st) (Some [s]))) with (sc_rows (flush st)).
      apply flush_rows_coded; assumption. }
    destruct (sc_currentBlock st); apply IH; exact H.
Qed.

Lemma parseTransactionBlock_dated block dc cc row :
  parseTransactionBlock block dc cc = Some row -> isCodeBlank row = false ->
  exists t cd, getProp row (js "DATE") = JDate (DateAt t)
               /\ getProp row (js "CD") = JStr cd /\ cd <> [].
Proof.
  unfold parseTransactionBlock. destruct block as [|first rest]; [discriminate|].
  destruct (search re_firstLine first) as [[b m]|]; [|discriminate].
  destruct (parsePdfDateMmDdYyyy _) as [[|t]|]; try discriminate.
  destruct (parseReference _) as [CD NUMBER].
  destruct (debitCredit _ _ _) as [debit credit]. intros [= <-] Hb.
  exists t, (trim CD). split; [reflexivity|]. split; [reflexivity|].
  intros E. unfold isCodeBlank in Hb. cbn [getProp] in Hb.
  change (str_eqb (js "CD") (js "CD")) with true in Hb. cbn [nullish ToString] in Hb.
  rewrite E in Hb. discriminate.
Qed.

(** X15.  Every row of the statement adapter has a valid date and a code
    that is not empty; with no target year the aggregation therefore counts
    each of them in the month of its date. *)
Theorem statement_rows_dated :
  forall (pdfText : JSValue) (rows : list JSObject) (row : JSObject),
    parseFmsecLedgerRowsFromPdfText pdfText = Ok rows -> In row rows ->
    exists t cd,
      getProp row (js "DATE") = JDate (DateAt t)
      /\ getProp row (js "CD") = JStr cd /\ cd <> []
      /\ rowMonth None (js "DATE") row = Some (getMonth t).
Proof.
  intros pdfText rows row Hparse Hin. apply parsePdfText_rows in Hparse. subst rows.
  revert row Hin. apply Forall_forall. unfold statementRows.
  apply flush_rows_coded.
  - intros block dc cc row Hrow Hb.
    destruct (parseTransactionBlock_dated _ _ _ _ Hrow Hb) as (t & cd & Hd & Hc & Hne).
    exists t, cd. repeat split; try assumption. unfold rowMonth. rewrite Hd. reflexivity.
  - apply scanLines_rows_coded; [|constructor].
    intros block dc cc row Hrow Hb.
    destruct (parseTransactionBlock_dated _ _ _ _ Hrow Hb) as (t & cd & Hd & Hc & Hne).
    exists t, cd. repeat split; try assumption. unfold rowMonth. rewrite Hd. reflexivity.
Qed.

End StatementDates.

Section StatementRows.

(** *** The rows of the statement adapter *)

Lemma normalizeMoney_finite v x : normalizeMoney v = Some x -> is_finite x = true.
Proof.
  unfold normalizeMoney. destruct (parseAmount v) as [num|]; [|discriminate].
  destruct (is_finite num) eqn:Hfin; [|discriminate]. cbn. intros [= <-].
  destruct (num <? 0)%float; [rewrite is_finite_opp|]; exact Hfin.
Qed.

Lemma extractMovementBackward_finite ls x :
  extractMovementBackward ls = Some x -> is_finite x = true.
Proof.
  induction ls as [|l ls IH]; cbn [extractMovementBackward]; [discriminate|].
  destruct (test re_PHP l); cbn [negb]; auto.
  destruct (findMoneyTokensWithIndex l) as [|t ts]; auto.
  destruct (normalizeMoney _) as [mv|] eqn:E; auto.
  intros [= <-]. eapply normalizeMoney_finite; eauto.
Qed.

Lemma debitCredit_oneSided CD P mv :
  (forall x, mv = Some x -> is_finite x = true) ->
  is_finite (fst (debitCredit CD P mv)) = true
  /\ is_finite (snd (debitCredit CD P mv)) = true
  /\ (fst (debitCredit CD P mv) = zero \/ snd (debitCredit CD P mv) = zero).
Proof.
  intros H. unfold debitCredit. destruct mv as [x|]; [|repeat split; left; reflexivity].
  specialize (H x eq_refl).
  destruct (_ && _); [|repeat split; left; reflexivity].
  destruct (_ || _); [repeat split; left; reflexivity|].
  destruct (_ || _); cbn [fst snd]; repeat split; auto.
Qed.

Lemma parseTransactionBlock_oneSided block dc cc row :
  parseTransactionBlock block dc cc = Some row -> oneSided row.
Proof.
  unfold parseTransactionBlock. destruct block as [|first rest]; [discriminate|].
  destruct (search re_firstLine first) as [[b m]|]; [|discriminate].
  destruct (parsePdfDateMmDdYyyy _) as [[|t]|]; try discriminate.
  destruct (parseReference _) as [CD NUMBER].
  set (P := extractParticulars _ _).
  set (mv := extractMovementAmountFromPhpLine _).
  pose proof (debitCredit_oneSided CD P mv) as H.
  destruct (debitCredit CD P mv) as [debit credit]. intros [= <-].
  destruct H as (Hd & Hc & Hz).
  { intros x Hx. eapply extractMovementBackward_finite. exact Hx. }
  exists debit, credit. repeat split; assumption.
Qed.

(** X16.  Every row of the statement adapter carries a debit and a credit
    that are finite numbers, and at least one of the two is zero: a movement
    goes to one side only. *)
Theorem statement_rows_one_sided :
  forall (pdfText : JSValue) (rows : list JSObject) (row : JSObject),
    parseFmsecLedgerRowsFromPdfText pdfText = Ok rows -> In row rows ->
    exists d c,
      getProp row (js "PHP_DEBIT") = JNum d /\ getProp row (js "PHP_CREDIT") = JNum c
      /\ is_finite d = true /\ is_finite c = true
      /\ (d = zero \/ c = zero).
Proof.
  intros pdfText rows row Hparse Hin. apply parsePdfText_rows in Hparse. subst rows.
  revert row Hin. apply Forall_forall.
  apply (statementRows_from_blocks oneSided). intros block dc cc row.
  apply parseTransactionBlock_oneSided.
Qed.

Lemma parseTransactionBlock_keys block dc cc row :
  parseTransactionBlock block dc cc = Some row -> forallb (hasProp row) required = true.
Proof.
  unfold parseTransactionBlock. destruct block as [|first rest]; [discriminate|].
  destruct (search re_firstLine first) as [[b m]|]; [|discriminate].
  destruct (parsePdfDateMmDdYyyy _) as [[|t]|]; try discriminate.
  destruct (parseReference _) as [CD NUMBER].
  destruct (debitCredit _ _ _) as [debit credit]. intros [= <-]. reflexivity.
Qed.

(** X17.  The statement adapter either returns at least one row or fails
    with the message that no ledger rows were found: its rows always have
    the required columns, so the column check cannot fail. *)
Theorem statement_adapter_outcomes :
  forall pdfText : JSValue,
    (exists row rows, parseFmsecLedgerRowsFromPdfText pdfText = Ok (row :: rows))
    \/ parseFmsecLedgerRowsFromPdfText pdfText = Throw (js "No ledger rows found").
Proof.
  intros pdfText. unfold parseFmsecLedgerRowsFromPdfText.
  set (lines := splitLines _).
  pose proof (statementRows_from_blocks (fun row => forallb (hasProp row) required = true)
                lines parseTransactionBlock_keys) as H.
  destruct (statementRows lines) as [|row rows]; [right; reflexivity|].
  left. exists row, rows. rewrite validate_sample.
  inversion H as [|? ? Hrow _]; subst. rewrite Hrow. reflexivity.
Qed.

Lemma flush_measure st :
  (List.length (sc_rows (flush st)) + pending (flush st)
   <= List.length (sc_rows st) + pending st)%nat.
Proof.
  unfold flush, pending. destruct (sc_currentBlock st) as [[|l b]|] eqn:E; rewrite ?E; try lia.
  cbn [sc_rows sc_currentBlock].
  destruct (parseTransactionBlock _ _ _) as [r|]; [|lia].
  destruct (isCodeBlank r); [lia|]. rewrite length_app. cbn. lia.
Qed.

Lemma flush_measure_rows st :
  (List.length (sc_rows (flush st)) <= List.length (sc_rows st) + pending st)%nat.
Proof. pose proof (flush_measure st). lia. Qed.

Lemma scanLines_measure lines : forall st,
  (List.length (sc_rows (scanLines lines st)) + pending (scanLines lines st)
   <= List.length (sc_rows st) + pending st
      + List.length (filter isTransactionStartLine lines))%nat.
Proof.
  induction lines as [|s lines IH]; intros st; cbn [scanLines filter]; [lia|].
  destruct (_ && shouldEndTransactionSection s).
  - pose proof (flush_measure_rows st) as H.
    change (sc_rows (withBlock (flush st) None)) with (sc_rows (flush st)).
    change (pending (withBlock (flush st) None)) with 0%nat. lia.
  - destruct (includes (js "PRICE") s && includes (js "DEBIT") s).
    { etransitivity; [apply IH|].
      assert (forall idx, pending (ScanState (sc_rows st) (Some idx) (sc_creditColIndex st)
                                     (sc_currentBlock st)) = pending st) as Hp by reflexivity.
      destruct (indexOf _ s); rewrite ?Hp; cbn [sc_rows];
        destruct (isTransactionStartLine s); cbn [List.length]; lia. }
    destruct (includes (js "CREDIT") s && includes (js "BALANCE") s).
    { etransitivity; [apply IH|].
      assert (forall idx, pending (ScanState (sc_rows st) (sc_debitColIndex st) (Some idx)
                                     (sc_currentBlock st)) = pending st) as Hp by reflexivity.
      destruct (indexOf _ s); rewrite ?Hp; cbn [sc_rows];
        destruct (isTransactionStartLine s); cbn [List.length]; lia. }
    destruct (isTransactionStartLine s).
    { etransitivity; [apply IH|]. pose proof (flush_measure_rows st) as H.
      change (sc_rows (withBlock (flush st) (Some [s]))) with (sc_rows (flush st)).
      change (pending (withBlock (flush st) (Some [s]))) with 1%nat.
      cbn [List.length]. lia. }
    destruct (sc_currentBlock st) as [block|] eqn:E.
    + etransitivity; [apply IH|].
      change (sc_rows (withBlock st (Some (block ++ [s])))) with (sc_rows st).
      change (pending (withBlock st (Some (block ++ [s])))) with 1%nat.
      unfold pending. rewrite E. lia.
    + etransitivity; [apply IH|]. lia.
Qed.

(** X18.  The statement adapter returns at most one row for each line that
    starts a transaction (a date, blanks and a reference at the start of the
    line); a text with no such line fails with the message that no ledger
    rows were found. *)
Theorem statement_rows_bounded :
  (forall lines : list jsstring,
     (List.length (statementRows lines)
      <= List.length (filter isTransactionStartLine lines))%nat)
  /\ (forall pdfText : JSValue,
        filter isTransactionStartLine
          (splitLines (replaceAll re_formFeed [] (ToString (nullish pdfText (JStr []))))) = [] ->
        parseFmsecLedgerRowsFromPdfText pdfText = Throw (js "No ledger rows found")).
Proof.
  assert (H : forall lines : list jsstring,
    (List.length (statementRows lines)
     <= List.length (filter isTransactionStartLine lines))%nat).
  { intros lines. unfold statementRows.
    pose proof (flush_measure_rows (scanLines lines initialScan)) as H1.
    pose proof (scanLines_measure lines initialScan) as H2.
    change (List.length (sc_rows initialScan) + pending initialScan)%nat with 0%nat in H2.
    lia. }
  split; [exact H|].
  intros pdfText Hnone. unfold parseFmsecLedgerRowsFromPdfText.
  specialize (H (splitLines (replaceAll re_formFeed [] (ToString (nullish pdfText (JStr [])))))).
  rewrite Hnone in H.
  destruct (statementRows _); [reflexivity|cbn [List.length] in H; lia].
Qed.

End StatementRows.

Section BucketLabels.

(** *** The labels of the buckets *)

Lemma getMonth_range t : 0 <= getMonth t <= 11.
Proof.
  unfold getMonth, localFields.
  pose proof (civilFromDays_ranges (LocalTime t / msPerDay)) as [H _]. lia.
Qed.

Lemma rowMonth_range year dateField row m :
  rowMonth year dateField row = Some m -> 0 <= m <= 11.
Proof.
  unfold rowMonth. destruct (getProp row dateField) as [| | | | |[|t]]; try discriminate.
  destruct (_ && _); [discriminate|]. intros [= <-]. apply getMonth_range.
Qed.

Lemma initMonthRow_label m :
  0 <= m <= 11 -> month (initMonthRow m) = nth (Z.to_nat m) MONTH_LABELS []
                  /\ In (month (initMonthRow m)) MONTH_LABELS.
Proof.
  intros Hm. unfold initMonthRow. cbn [month].
  replace ((0 <=? m) && (m <? 12)) with true
    by (symmetry; apply andb_true_iff; split; [apply Z.leb_le|apply Z.ltb_lt]; lia).
  split; [reflexivity|]. apply nth_In.
  change (List.length MONTH_LABELS) with 12%nat. lia.
Qed.

Lemma sorted_length : forall (l : list Z) lo,
  lo <= 12 -> StronglySorted Z.lt l -> Forall (fun m => lo <= m <= 11) l ->
  Z.of_nat (List.length l) <= 12 - lo.
Proof.
  induction l as [|a l IH]; intros lo Hlo Hs Hr; [cbn [List.length Z.of_nat]; lia|].
  inversion Hs as [|? ? Hs' Hall]; subst. inversion Hr as [|? ? Ha Hr']; subst.
  assert (Hl : Z.of_nat (List.length l) <= 12 - (a + 1)).
  { apply IH; [lia|exact Hs'|]. rewrite Forall_forall in *. intros m Hm.
    specialize (Hall m Hm). specialize (Hr' m Hm). lia. }
  cbn [List.length]. lia.
Qed.

(** X19.  Every bucket of the aggregation is labelled with one of the
    twelve month names: the numeric fallback label is never used.  With no
    target year the buckets are those of distinct months in calendar order,
    so there are at most twelve of them. *)
Theorem bucket_labels :
  forall (rows : list JSObject) (year : option Z) (dateFieldOption : option jsstring),
    Forall (fun b => In (month b) MONTH_LABELS)
      (computeMonthlyCashflow rows year dateFieldOption)
    /\ (yearTruthy year = false ->
        exists months,
          StronglySorted Z.lt months
          /\ Forall (fun m => 0 <= m <= 11) months
          /\ map month (computeMonthlyCashflow rows year dateFieldOption)
             = map (fun m => nth (Z.to_nat m) MONTH_LABELS []) months)
    /\ (List.length (computeMonthlyCashflow rows year dateFieldOption) <= 12)%nat.
Proof.
  intros rows year dateFieldOption.
  destruct (yearTruthy year) eqn:Hy.
  - rewrite (aggregate_year rows year dateFieldOption Hy). split; [|split].
    + apply Forall_forall. intros b Hb. apply in_map_iff in Hb as (m & <- & Hm).
      rewrite monthTotal_month. apply initMonthRow_label.
      unfold monthIndices in Hm. cbn in Hm. lia.
    + discriminate.
    + rewrite length_map. cbn. lia.
  - destruct (aggregate_no_year rows year dateFieldOption Hy) as (months & Hs & Hin & ->).
    assert (Hr : Forall (fun m => 0 <= m <= 11) months).
    { apply Forall_forall. intros m Hm. apply Hin in Hm as (row & _ & Hrow).
      eapply rowMonth_range; eauto. }
    split; [|split].
    + apply Forall_forall. intros b Hb. apply in_map_iff in Hb as (m & <- & Hm).
      rewrite monthTotal_month. apply initMonthRow_label.
      rewrite Forall_forall in Hr. auto.
    + intros _. exists months. split; [exact Hs|]. split; [exact Hr|].
      rewrite map_map. apply map_ext_in. intros m Hm. rewrite monthTotal_month.
      apply initMonthRow_label. rewrite Forall_forall in Hr. auto.
    + rewrite length_map.
      pose proof (sorted_length months 0 ltac:(lia) Hs Hr). lia.
Qed.

End BucketLabels.

Section SignOfSums.
Close Scope Z_scope.

(** *** Sums of numbers that are not negative *)

Lemma notNegative_spec x :
  (0 <=? x)%float = match Prim2SF x with
                    | S754_zero _ => true
                    | S754_infinity s | S754_finite s _ _ => negb s
                    | S754_nan => false
                    end.
Proof.
  rewrite leb_spec. change (Prim2SF 0%float) with (S754_zero false).
  destruct (Prim2SF x) as [s|s| |s m e]; try reflexivity; destruct s; reflexivity.
Qed.

Lemma binary_round_aux_sign prec emax sx mx ex lx :
  (0 <= mx)%Z ->
  match binary_round_aux prec emax sx mx ex lx with
  | S754_zero s | S754_infinity s | S754_finite s _ _ => s = sx
  | S754_nan => False
  end.
Proof.
  intros H. unfold binary_round_aux.
  pose proof (shr_fexp_nonneg prec emax mx ex lx H) as H1.
  destruct (shr_fexp prec emax mx ex lx) as [mrs' e']. simpl in H1.
  pose proof (shr_fexp_nonneg prec emax
                (round_nearest_even (shr_m mrs') (loc_of_shr_record mrs')) e' loc_Exact
                (round_nearest_even_nonneg _ _ H1)) as H2.
  destruct (shr_fexp prec emax _ e' loc_Exact) as [mrs'' e'']. simpl in H2.
  destruct (shr_m mrs'') as [|p|p]; try reflexivity; try lia.
  destruct (e'' <=? emax - prec)%Z; reflexivity.
Qed.

Lemma add_notNegative a b : notNegative a -> notNegative b -> notNegative (a + b).
Proof.
  unfold notNegative. rewrite !notNegative_spec, add_spec. unfold SF64add, SFadd.
  destruct (Prim2SF a) as [sa|sa| |sa ma ea]; try discriminate;
    destruct (Prim2SF b) as [sb|sb| |sb mb eb]; try discriminate;
    try (destruct sa; try discriminate); try (destruct sb; try discriminate);
    intros _ _; try reflexivity.
  cbn [cond_Zopp].
  set (m := (Z.pos (fst (shl_align ma ea (Z.min ea eb)))
             + Z.pos (fst (shl_align mb eb (Z.min ea eb))))%Z).
  assert (Hm : (0 < m)%Z) by (subst m; lia).
  unfold binary_normalize. destruct m as [|p|p]; try lia.
  unfold binary_round. destruct (shl_align _ _ _) as [mz ez].
  pose proof (binary_round_aux_sign prec emax false (Z.pos mz) ez loc_Exact ltac:(lia)) as H.
  destruct (binary_round_aux _ _ _ _ _ _) as [s|s| |s m e]; try contradiction;
    subst s; reflexivity.
Qed.

End SignOfSums.

Section Signs.

Lemma plusAmount_notNegative t v :
  amountNotNegative v -> notNegative t -> notNegative (plusAmount t (amountOf v)).
Proof.
  intros Hv Ht. unfold amountNotNegative in Hv.
  destruct (amountOf v) as [x|]; [|exact Ht].
  cbn. apply add_notNegative; auto.
Qed.

Lemma contribute_notNegative b row :
  amountNotNegative (getProp row (js "PHP_DEBIT")) ->
  amountNotNegative (getProp row (js "PHP_CREDIT")) ->
  bucketNotNegative b -> bucketNotNegative (contribute b (contributionOf row)).
Proof.
  intros Hd Hc (H1 & H2 & H3). unfold contributionOf.
  destruct (classifyRow row); repeat split; cbn; auto using plusAmount_notNegative.
Qed.

Lemma monthTotal_notNegative year dateField rows m :
  (forall row, In row rows ->
     amountNotNegative (getProp row (js "PHP_DEBIT"))
     /\ amountNotNegative (getProp row (js "PHP_CREDIT"))) ->
  bucketNotNegative (monthTotal year dateField rows m).
Proof.
  unfold monthTotal.
  assert (H : bucketNotNegative (initMonthRow m)) by (repeat split).
  revert H. generalize (initMonthRow m) as b.
  induction rows as [|row rows IH]; intros b H Hrows; cbn [fold_left]; [exact H|].
  apply IH; [|intros r Hr; apply Hrows; right; exact Hr].
  unfold monthStep.
  destruct (rowMonth year dateField row) as [m'|]; [|exact H].
  destruct (m' =? m); [|exact H].
  destruct (Hrows row (or_introl eq_refl)). apply contribute_notNegative; assumption.
Qed.

Lemma totals_notNegative months :
  Forall bucketNotNegative months ->
  notNegative (t_deposit (computeCashflowTotals months))
  /\ notNegative (t_withdraw (computeCashflowTotals months))
  /\ notNegative (t_dividends (computeCashflowTotals months)).
Proof.
  unfold computeCashflowTotals.
  assert (H : notNegative (t_deposit (mkTotals zero zero zero))
              /\ notNegative (t_withdraw (mkTotals zero zero zero))
              /\ notNegative (t_dividends (mkTotals zero zero zero))) by (repeat split).
  revert H. generalize (mkTotals zero zero zero) as acc.
  induction months as [|b months IH]; intros acc H Hm; cbn [fold_left]; [exact H|].
  inversion Hm as [|? ? (Hb1 & Hb2 & Hb3) Hm']; subst.
  destruct H as (H1 & H2 & H3).
  apply IH; [|exact Hm']. cbn. repeat split; apply add_notNegative; assumption.
Qed.

Lemma buckets_notNegative rows year dateFieldOption :
  (forall row, In row rows ->
     amountNotNegative (getProp row (js "PHP_DEBIT"))
     /\ amountNotNegative (getProp row (js "PHP_CREDIT"))) ->
  Forall bucketNotNegative (computeMonthlyCashflow rows year dateFieldOption).
Proof.
  intros Hrows. destruct (yearTruthy year) eqn:Hy.
  - rewrite (aggregate_year rows year _ Hy).
    apply Forall_forall. intros b Hb. apply in_map_iff in Hb as [m [<- _]].
    apply monthTotal_notNegative. exact Hrows.
  - destruct (aggregate_no_year rows year dateFieldOption Hy) as [months [_ [_ ->]]].
    apply Forall_forall. intros b Hb. apply in_map_iff in Hb as [m [<- _]].
    apply monthTotal_notNegative. exact Hrows.
Qed.

(** X20.  When the amounts of the rows that count (finite and not zero) are
    not negative, no field of a bucket and no total of the report is
    negative or NaN: each is zero, a positive number or positive infinity. *)
Theorem report_not_negative :
  forall (rows : list JSObject) (year : option Z),
    (forall row, In row rows ->
       amountNotNegative (getProp row (js "PHP_DEBIT"))
       /\ amountNotNegative (getProp row (js "PHP_CREDIT"))) ->
    Forall bucketNotNegative (fst (buildCashflowReportModelFromRows rows year))
    /\ notNegative (t_deposit (snd (buildCashflowReportModelFromRows rows year)))
    /\ notNegative (t_withdraw (snd (buildCashflowReportModelFromRows rows year)))
    /\ notNegative (t_dividends (snd (buildCashflowReportModelFromRows rows year))).
Proof.
  intros rows year Hrows. unfold buildCashflowReportModelFromRows. cbn [fst snd].
  pose proof (buckets_notNegative rows year (Some (js "DATE")) Hrows) as Hb.
  split; [exact Hb|]. apply totals_notNegative. exact Hb.
Qed.

Lemma nonNegative_amount v : nonNegative v -> amountNotNegative v.
Proof.
  intros [x [-> Hx]] y. unfold amountOf. cbn [nullish].
  destruct (numberTruthy x && is_finite x); [|discriminate]. intros [= <-]. exact Hx.
Qed.

(** X21.  The report built from the rows of a statement has no negative
    field and no NaN: every bucket field and every total is zero, positive
    or positive infinity. *)
Theorem statement_report_not_negative :
  forall (pdfText : JSValue) (rows : list JSObject) (year : option Z),
    parseFmsecLedgerRowsFromPdfText pdfText = Ok rows ->
    Forall bucketNotNegative (fst (buildCashflowReportModelFromRows rows year))
    /\ notNegative (t_deposit (snd (buildCashflowReportModelFromRows rows year)))
    /\ notNegative (t_withdraw (snd (buildCashflowReportModelFromRows rows year)))
    /\ notNegative (t_dividends (snd (buildCashflowReportModelFromRows rows year))).
Proof.
  intros pdfText rows year Hparse.
  assert (Hrows : forall row, In row rows ->
            amountNotNegative (getProp row (js "PHP_DEBIT"))
            /\ amountNotNegative (getProp row (js "PHP_CREDIT"))).
  { apply parsePdfText_rows in Hparse. subst rows.
    apply Forall_forall. apply statementRows_from_blocks.
    intros block dc cc row Hrow.
    destruct (parseTransactionBlock_amounts _ _ _ _ Hrow) as [Hd Hc].
    split; apply nonNegative_amount; assumption. }
  unfold buildCashflowReportModelFromRows. cbn [fst snd].
  pose proof (buckets_notNegative rows year (Some (js "DATE")) Hrows) as Hb.
  split; [exact Hb|]. apply totals_notNegative. exact Hb.
Qed.

End Signs.

Section Extensions.
Close Scope Z_scope.

(** *** The extension of a file name *)

Lemma lastIndexOfChar_spec c : forall s i found,
  match lastIndexOfChar c s i found with
  | None => found = None /\ existsb (N.eqb c) s = false
  | Some idx =>
      (exists a b, s = a ++ c :: b /\ existsb (N.eqb c) b = false
                   /\ idx = (i + List.length a)%nat)
      \/ (found = Some idx /\ existsb (N.eqb c) s = false)
  end.
Proof.
  induction s as [|d r IH]; intros i found; cbn [lastIndexOfChar].
  - destruct found; [right|]; split; reflexivity.
  - specialize (IH (S i) (if N.eqb d c then Some i else found)).
    destruct (lastIndexOfChar c r (S i) _) as [idx|].
    + destruct IH as [(a & b & -> & Hb & ->)|[Hf Hr]].
      * left. exists (d :: a), b. repeat split; [exact Hb|cbn; lia].
      * destruct (N.eqb d c) eqn:E.
        -- apply N.eqb_eq in E. subst d. injection Hf as <-.
           left. exists [], r. repeat split; [exact Hr|cbn; lia].
        -- right. split; [exact Hf|]. cbn [existsb]. rewrite N.eqb_sym, E. exact Hr.
    + destruct IH as [Hf Hr]. destruct (N.eqb d c) eqn:E; [discriminate|].
      split; [exact Hf|]. cbn [existsb]. rewrite N.eqb_sym, E. exact Hr.
Qed.

Lemma getExtension_char name :
  (existsb (N.eqb 46) name = false /\ getExtension (JStr name) = [])
  \/ exists a b, name = a ++ 46%N :: b /\ existsb (N.eqb 46) b = false
                 /\ getExtension (JStr name) = toLowerCase b.
Proof.
  unfold getExtension. cbn [nullish ToString].
  pose proof (lastIndexOfChar_spec 46 name 0 None) as H.
  destruct (lastIndexOfChar 46 name 0 None) as [idx|].
  - destruct H as [(a & b & -> & Hb & ->)|[Hf _]]; [|discriminate].
    right. exists a, b. repeat split; [exact Hb|].
    unfold sliceFrom. cbn [Nat.add]. rewrite skipn_after. reflexivity.
  - left. destruct H as [_ H]. split; [exact H|reflexivity].
Qed.

(** X22.  The extension of a name that ends with a dot and a text without
    dots is that text in lower case, whatever comes before the dot. *)
Theorem getExtension_of_suffix :
  forall base ext : jsstring,
    existsb (N.eqb 46) ext = false ->
    getExtension (JStr (base ++ [46%N] ++ ext)) = toLowerCase ext.
Proof.
  intros base ext Hext.
  destruct (getExtension_char (base ++ [46%N] ++ ext)) as [[Hno _]|(a & b & E & Hb & ->)].
  - rewrite existsb_app in Hno. cbn in Hno. rewrite orb_true_r in Hno. discriminate.
  - f_equal.
    assert (Hrev : rev b ++ 46%N :: rev a = rev ext ++ 46%N :: rev base).
    { apply (f_equal (@rev N)) in E. rewrite !rev_app_distr in E. cbn [rev app] in E.
      rewrite <- !app_assoc in E. symmetry. exact E. }
    apply split_at_first in Hrev; [|rewrite existsb_rev; assumption..].
    apply (f_equal (@rev N)) in Hrev. rewrite !rev_involutive in Hrev. exact Hrev.
Qed.

Lemma existsb_none (p : N -> bool) s :
  existsb p s = false -> forallb (fun c => negb (p c)) s = true.
Proof.
  induction s as [|c s IH]; [reflexivity|]. cbn [existsb forallb]. intros H.
  apply orb_false_iff in H as [-> H]. rewrite (IH H). reflexivity.
Qed.

(** X23.  The extension never holds a dot nor a capital letter, and a name
    without a dot has the empty extension. *)
Theorem getExtension_shape :
  (forall filename : JSValue,
     forallb (fun c => negb (N.eqb 46 c) && negb (isUpper c)) (getExtension filename) = true)
  /\ (forall name : jsstring,
        existsb (N.eqb 46) name = false -> getExtension (JStr name) = []).
Proof.
  split.
  - intros filename.
    assert (E : getExtension filename = getExtension (JStr (ToString (nullish filename (JStr [])))))
      by reflexivity.
    rewrite E.
    destruct (getExtension_char (ToString (nullish filename (JStr []))))
      as [[_ ->]|(a & b & _ & Hb & ->)]; [reflexivity|].
    rewrite forallb_and. apply andb_true_iff. split.
    + apply existsb_none. rewrite toLowerCase_dot. exact Hb.
    + apply toLowerCase_no_upper.
  - intros name Hno. destruct (getExtension_char name) as [[_ H]|(a & b & -> & _ & _)].
    + exact H.
    + rewrite existsb_app in Hno. cbn in Hno. rewrite orb_true_r in Hno. discriminate.
Qed.

End Extensions.

Section SheetNames.

Lemma str_eqb_eq a b : str_eqb a b = true -> a = b.
Proof. unfold str_eqb. destruct (list_eq_dec N.eq_dec a b); [auto|discriminate]. Qed.

Lemma str_eqb_refl a : str_eqb a a = true.
Proof. unfold str_eqb. destruct (list_eq_dec N.eq_dec a a); [reflexivity|contradiction]. Qed.

(** X24.  The sheet name [resolveSheetName] returns is always one of the
    names of the workbook: a name that is asked for is returned only when the
    workbook has it, an index only when it is within the list, and without
    either the first name is taken. *)
Theorem resolveSheetName_member :
  forall (names : list jsstring) (sheet : JSValue) (name : jsstring),
    resolveSheetName names sheet = Ok name -> In name names.
Proof.
  intros names sheet name. unfold resolveSheetName.
  destruct names as [|first rest]; [discriminate|].
  remember (first :: rest) as names eqn:Hnames.
  assert (Hfirst : In first names) by (subst names; left; reflexivity).
  assert (Hidx : forall x,
    (if isInteger x
     then if (floorZ x <? 0) || (Z.of_nat (List.length names) <=? floorZ x)
          then Throw (js "Sheet index out of range: " ++ ToString (JNum x))
          else Ok (nth (Z.to_nat (floorZ x)) names [])
     else Ok first) = Ok name -> In name names).
  { intros x. destruct (isInteger x); [|intros [= <-]; exact Hfirst].
    destruct (_ || _) eqn:E; [discriminate|]. intros [= <-].
    apply orb_false_iff in E as [E1 E2]. apply Z.ltb_ge in E1. apply Z.leb_gt in E2.
    apply nth_In. lia. }
  destruct sheet as [| |b|x|s|d]; try (intros [= <-]; exact Hfirst); try apply Hidx.
  destruct (trim s) as [|c t] eqn:Et; [intros [= <-]; exact Hfirst|].
  destruct (existsb (str_eqb (c :: t)) names) eqn:E; [|discriminate].
  intros [= <-]. apply existsb_exists in E as (n & Hn & Heq).
  apply str_eqb_eq in Heq. subst n. exact Hn.
Qed.

End SheetNames.

Section Markup.
Close Scope Z_scope.

(** *** Escaping markup *)

Lemma substitute_app p by_ a b :
  substitute p by_ (a ++ b) = substitute p by_ a ++ substitute p by_ b.
Proof. apply flat_map_app. Qed.

Lemma substitute_flat_map p by_ (f : N -> jsstring) s :
  substitute p by_ (flat_map f s) = flat_map (fun c => substitute p by_ (f c)) s.
Proof.
  induction s as [|c s IH]; [reflexivity|].
  cbn [flat_map]. rewrite substitute_app, IH. reflexivity.
Qed.

Lemma escapeHtml_chars text :
  escapeHtml text = flat_map escapeChar (ToString (nullish text (JStr []))).
Proof.
  unfold escapeHtml, chr. rewrite !replaceAll_Cls.
  generalize (ToString (nullish text (JStr []))) as s. intros s.
  unfold substitute at 5.
  rewrite !substitute_flat_map. apply flat_map_ext. intros c.
  unfold escapeChar.
  destruct (N.eqb 38 c) eqn:E38.
  { apply N.eqb_eq in E38. subst c. reflexivity. }
  rewrite (N.eqb_sym c 38), E38.
  cbn [substitute flat_map app].
  destruct (N.eqb 60 c) eqn:E60.
  { apply N.eqb_eq in E60. subst c. reflexivity. }
  rewrite (N.eqb_sym c 60), E60.
  cbn [substitute flat_map app].
  destruct (N.eqb 62 c) eqn:E62.
  { apply N.eqb_eq in E62. subst c. reflexivity. }
  rewrite (N.eqb_sym c 62), E62.
  cbn [substitute flat_map app].
  destruct (N.eqb 34 c) eqn:E34.
  { apply N.eqb_eq in E34. subst c. reflexivity. }
  rewrite (N.eqb_sym c 34), E34.
  cbn [substitute flat_map app].
  rewrite (N.eqb_sym c 39).
  destruct (N.eqb 39 c) eqn:E39; reflexivity.
Qed.

Lemma escapeChar_markup c : forallb (fun d => negb (isMarkup d)) (escapeChar c) = true.
Proof.
  unfold escapeChar.
  destruct (N.eqb c 38); [reflexivity|].
  destruct (N.eqb c 60) eqn:E60; [reflexivity|].
  destruct (N.eqb c 62) eqn:E62; [reflexivity|].
  destruct (N.eqb c 34) eqn:E34; [reflexivity|].
  destruct (N.eqb c 39) eqn:E39; [reflexivity|].
  cbn. unfold isMarkup. rewrite E60, E62, E34, E39. reflexivity.
Qed.

(** X25.  The text [escapeHtml] returns holds no angle bracket, no double
    quote and no apostrophe, whatever value it is given. *)
Theorem escapeHtml_no_markup :
  forall text : JSValue,
    forallb (fun c => negb (isMarkup c)) (escapeHtml text) = true.
Proof.
  intros text. rewrite escapeHtml_chars.
  induction (ToString (nullish text (JStr []))) as [|c s IH]; [reflexivity|].
  cbn [flat_map]. rewrite forallb_app, escapeChar_markup, IH. reflexivity.
Qed.

Lemma escapeChar_head c s : exists d r, escapeChar c ++ s = d :: r
  /\ (d = 38%N \/ (d = c /\ r = s /\ escapeChar c = [c])).
Proof.
  unfold escapeChar.
  destruct (N.eqb c 38); [do 2 eexists; split; [reflexivity|left; reflexivity]|].
  destruct (N.eqb c 60); [do 2 eexists; split; [reflexivity|left; reflexivity]|].
  destruct (N.eqb c 62); [do 2 eexists; split; [reflexivity|left; reflexivity]|].
  destruct (N.eqb c 34); [do 2 eexists; split; [reflexivity|left; reflexivity]|].
  destruct (N.eqb c 39); [do 2 eexists; split; [reflexivity|left; reflexivity]|].
  do 2 eexists; split; [reflexivity|right; auto].
Qed.

Lemma escapeChar_inj c d s t :
  escapeChar c ++ s = escapeChar d ++ t -> c = d /\ s = t.
Proof.
  unfold escapeChar.
  destruct (N.eqb c 38) eqn:C38; [apply N.eqb_eq in C38; subst c|];
  [|destruct (N.eqb c 60) eqn:C60; [apply N.eqb_eq in C60; subst c|];
    [|destruct (N.eqb c 62) eqn:C62; [apply N.eqb_eq in C62; subst c|];
      [|destruct (N.eqb c 34) eqn:C34; [apply N.eqb_eq in C34; subst c|];
        [|destruct (N.eqb c 39) eqn:C39; [apply N.eqb_eq in C39; subst c|]]]]];
  (destruct (N.eqb d 38) eqn:D38; [apply N.eqb_eq in D38; subst d|];
   [|destruct (N.eqb d 60) eqn:D60; [apply N.eqb_eq in D60; subst d|];
     [|destruct (N.eqb d 62) eqn:D62; [apply N.eqb_eq in D62; subst d|];
       [|destruct (N.eqb d 34) eqn:D34; [apply N.eqb_eq in D34; subst d|];
         [|destruct (N.eqb d 39) eqn:D39; [apply N.eqb_eq in D39; subst d|]]]]]);
  cbn [js app N_of_ascii]; intros H;
  try (injection H as H; subst; try discriminate; split; congruence);
  try discriminate.
Qed.

(** X26.  [escapeHtml] writes each ampersand, angle bracket, double quote and
    apostrophe as its entity and every other character as it is, in one
    pass: an ampersand the function wrote itself is not escaped again; and
    two texts with the same escaped form are the same text. *)
Theorem escapeHtml_entities :
  (forall text : JSValue,
     escapeHtml text = flat_map escapeChar (ToString (nullish text (JStr []))))
  /\ (forall a b : jsstring, escapeHtml (JStr a) = escapeHtml (JStr b) -> a = b).
Proof.
  split; [exact escapeHtml_chars|].
  intros a b. rewrite !escapeHtml_chars. cbn [nullish ToString].
  revert b. induction a as [|c a IH]; intros [|d b] H; cbn [flat_map] in H.
  - reflexivity.
  - destruct (escapeChar_head d (flat_map escapeChar b)) as (x & r & E & _).
    rewrite E in H. discriminate.
  - destruct (escapeChar_head c (flat_map escapeChar a)) as (x & r & E & _).
    rewrite E in H. discriminate.
  - apply escapeChar_inj in H as [-> H]. f_equal. apply IH. exact H.
Qed.

End Markup.

Section StoredNames.
Close Scope Z_scope.

(** *** The stored name of an upload *)

Lemma replaceFirst_leading p s :
  replaceFirst (Cat Bos (plus (Cls p))) [] s = dropWhile p s.
Proof.
  unfold replaceFirst. rewrite search_Bos. unfold matchAt, plus.
  rewrite mtch_Cat, mtch_Bos. cbn [ms_pos Nat.eqb]. rewrite mtch_Rep.
  rewrite rep_Cls_last by (cbn; lia). cbn [ms_rest].
  destruct (advance_run p s None 0 []) as (Hr & _ & _).
  destruct (Nat.leb 1 (runLength p s)) eqn:E.
  - cbn [ms_pos firstn app]. rewrite Hr. apply skipn_runLength.
  - apply Nat.leb_gt in E. rewrite <- skipn_runLength.
    replace (runLength p s) with 0%nat by lia. reflexivity.
Qed.

Lemma forallb_firstn (p : N -> bool) n s : forallb p s = true -> forallb p (firstn n s) = true.
Proof.
  revert n. induction s as [|c s IH]; intros [|n] H; try reflexivity.
  cbn in *. apply andb_true_iff in H as [-> H]. cbn. apply IH. exact H.
Qed.

(** X27.  The name under which an upload is stored is never empty, has at
    most 120 characters, holds only letters, digits, dots, underscores and
    hyphens (so no slash and no backslash), and does not start with an
    underscore. *)
Theorem safeName_shape :
  forall filename : JSValue,
    safeName filename <> []
    /\ (List.length (safeName filename) <= 120)%nat
    /\ forallb isNameChar (safeName filename) = true
    /\ existsb (fun c => N.eqb c 47 || N.eqb c 92) (safeName filename) = false
    /\ match safeName filename with c :: _ => N.eqb c 95 | [] => true end = false.
Proof.
  intros filename. unfold safeName.
  set (name := ToString (nullish filename (JStr (js "upload")))).
  unfold re_leadingUnderscores, chr, re_notNameChar, re_pathSeparator.
  rewrite replaceFirst_leading, !replaceAll_Cls.
  set (mapped := substitute _ (js "_") (substitute _ (js "_") name)).
  assert (Hm : forallb isNameChar mapped = true).
  { subst mapped. generalize (substitute (fun c => N.eqb c 47 || N.eqb c 92) (js "_") name).
    intros s. induction s as [|c s IH]; [reflexivity|].
    cbn [substitute flat_map]. fold (substitute (fun c => negb (isLower c || isUpper c || isDigit c
                      || N.eqb c 46 || N.eqb c 95 || N.eqb c 45)) (js "_") s).
    rewrite forallb_app, IH, andb_true_r.
    fold (isNameChar c). destruct (isNameChar c) eqn:E; cbn; [rewrite E|]; reflexivity. }
  unfold slice. cbn [Nat.sub skipn].
  set (cut := firstn 120 mapped).
  assert (Hc : forallb isNameChar cut = true) by (apply forallb_firstn; exact Hm).
  assert (Hl : (List.length cut <= 120)%nat) by (apply firstn_le_length).
  destruct (dropWhile_suffix (N.eqb 95) cut) as [a Ha].
  pose proof (dropWhile_head (N.eqb 95) cut) as Hh.
  assert (Hslash : forall s, forallb isNameChar s = true ->
                             existsb (fun c => N.eqb c 47 || N.eqb c 92) s = false).
  { intros s. induction s as [|c s IH]; [reflexivity|]. cbn [forallb existsb].
    intros H. apply andb_true_iff in H as [H1 H2]. rewrite (IH H2), orb_false_r.
    destruct (N.eqb c 47) eqn:E47; [apply N.eqb_eq in E47; subst c; discriminate|].
    destruct (N.eqb c 92) eqn:E92; [apply N.eqb_eq in E92; subst c; discriminate|].
    reflexivity. }
  destruct (dropWhile (N.eqb 95) cut) as [|c r] eqn:E.
  - repeat split; try reflexivity; try discriminate. cbn. lia.
  - assert (Hcr : forallb isNameChar (c :: r) = true).
    { rewrite Ha, forallb_app in Hc. apply andb_true_iff in Hc. tauto. }
    split; [discriminate|]. split.
    { rewrite Ha, length_app in Hl. lia. }
    split; [exact Hcr|]. split; [apply Hslash; exact Hcr|].
    apply negb_true_iff in Hh. rewrite N.eqb_sym. exact Hh.
Qed.

End StoredNames.

Section BasePaths.
Close Scope Z_scope.

(** *** Base path and base address *)

Lemma runLength_all p s : forallb p s = true -> runLength p s = List.length s.
Proof.
  induction s as [|c s IH]; [reflexivity|]. cbn. destruct (p c); [|discriminate].
  cbn. intros H. f_equal. auto.
Qed.

Lemma dropWhile_nil_all p s : dropWhile p s = [] -> forallb p s = true.
Proof.
  induction s as [|c s IH]; [reflexivity|]. cbn. destruct (p c); [exact IH|discriminate].
Qed.

Lemma dropWhile_all p s : forallb p s = true -> dropWhile p s = [].
Proof.
  induction s as [|c s IH]; [reflexivity|]. cbn. destruct (p c); [exact IH|discriminate].
Qed.

Lemma matchAt_trailing p prev rest pos caps :
  match matchAt (Cat (plus (Cls p)) Eos) (MState prev rest pos caps) with
  | Some e => rest <> [] /\ forallb p rest = true /\ ms_rest e = []
  | None => rest = [] \/ forallb p rest = false
  end.
Proof.
  unfold matchAt, plus. rewrite mtch_Cat, mtch_Rep.
  rewrite rep_Cls_run; [| |cbn; lia|reflexivity].
  2:{ intros st H. rewrite mtch_Eos. unfold nextIs in H. destruct (ms_rest st); [discriminate|reflexivity]. }
  cbn [ms_rest withinHi]. rewrite andb_true_r.
  destruct (advance_run p rest prev pos caps) as (Hr & _ & _).
  destruct (Nat.leb 1 (runLength p rest)) eqn:E.
  - rewrite mtch_Eos, Hr, skipn_runLength.
    destruct (dropWhile p rest) eqn:D.
    + apply dropWhile_nil_all in D. split; [|split; [exact D|]].
      * intros ->. cbn in E. discriminate.
      * rewrite Hr, skipn_runLength. apply dropWhile_all. exact D.
    + right. apply not_true_is_false. intros H. apply dropWhile_all in H. congruence.
  - destruct rest as [|c t]; [left; reflexivity|]. right. cbn in *.
    destruct (p c); [discriminate|reflexivity].
Qed.

Lemma searchFrom_trailing p : forall rest prev pos,
  match searchFrom (Cat (plus (Cls p)) Eos) prev pos [] rest with
  | Some (b, e) => firstn (ms_pos b - pos) rest = stripEnd p rest /\ ms_rest e = []
  | None => stripEnd p rest = rest
  end.
Proof.
  induction rest as [|c t IH]; intros prev pos; cbn [searchFrom].
  - pose proof (matchAt_trailing p prev [] pos []) as H.
    destruct (matchAt _ _); [|reflexivity]. destruct H as [H _]. contradiction.
  - pose proof (matchAt_trailing p prev (c :: t) pos []) as H.
    destruct (matchAt _ _) as [e|].
    + destruct H as (_ & Hall & He). cbn [ms_pos]. rewrite Nat.sub_diag.
      cbn [stripEnd firstn]. rewrite Hall. auto.
    + destruct H as [H|H]; [discriminate|].
      cbn [stripEnd]. rewrite H.
      specialize (IH (Some c) (S pos)).
      destruct (searchFrom _ (Some c) (S pos) [] t) as [[b e]|] eqn:E.
      * destruct IH as [IH1 IH2]. apply searchFrom_begin in E as (Hpos & _).
        replace (ms_pos b - pos)%nat with (S (ms_pos b - S pos)) by lia.
        cbn [firstn]. rewrite IH1. auto.
      * rewrite IH. reflexivity.
Qed.

Lemma replaceFirst_trailing p s :
  replaceFirst (Cat (plus (Cls p)) Eos) [] s = stripEnd p s.
Proof.
  unfold replaceFirst, search.
  pose proof (searchFrom_trailing p s None 0) as H.
  destruct (searchFrom _ None 0 [] s) as [[b e]|].
  - destruct H as [H1 H2]. rewrite Nat.sub_0_r in H1. rewrite H1, H2, app_nil_r. reflexivity.
  - symmetry. exact H.
Qed.

Lemma stripEnd_end p s : match rev (stripEnd p s) with c :: _ => p c | [] => false end = false.
Proof.
  induction s as [|c t IH]; [reflexivity|].
  cbn [stripEnd]. destruct (forallb p (c :: t)) eqn:E; [reflexivity|].
  cbn [rev]. destruct (rev (stripEnd p t)) as [|d r] eqn:R; [|exact IH].
  cbn. apply (f_equal (@rev N)) in R. rewrite rev_involutive in R. cbn in R.
  cbn in E. destruct (p c); [|reflexivity]. cbn in E.
  clear IH. exfalso. revert R E. clear. induction t as [|d t IH]; [discriminate|].
  cbn. destruct (p d) eqn:Hd; cbn.
  - destruct (forallb p t) eqn:F; [discriminate|]. discriminate.
  - discriminate.
Qed.

Lemma stripEnd_head p s : match stripEnd p s with c :: _ => Some c | [] => None end
  = match stripEnd p s with _ :: _ => hd_error s | [] => None end.
Proof.
  destruct s as [|c t]; [reflexivity|]. cbn [stripEnd].
  destruct (forallb p (c :: t)); reflexivity.
Qed.

Lemma endsWith_slash s :
  endsWith (js "/") s = match rev s with c :: _ => N.eqb 47 c | [] => false end.
Proof.
  unfold endsWith. cbn [js rev app N_of_ascii]. destruct (rev s) as [|c r]; [reflexivity|].
  cbn. rewrite andb_true_r. reflexivity.
Qed.

(** X28.  The base path is empty or starts with a slash, and neither the
    base path nor the base address ends with a slash. *)
Theorem base_path_shape :
  forall value : JSValue,
    (normalizeBasePath value = [] \/ startsWith (js "/") (normalizeBasePath value) = true)
    /\ endsWith (js "/") (normalizeBasePath value) = false
    /\ endsWith (js "/") (normalizeBaseUrl value) = false.
Proof.
  intros value. unfold normalizeBasePath, normalizeBaseUrl, re_trailingSlashes, chr.
  cbv zeta. destruct (trim (ToString (orEmpty value))) as [|c raw]; [repeat split; left; reflexivity|].
  rewrite !replaceFirst_trailing.
  split; [|split].
  - destruct (str_eqb (c :: raw) (js "/")); [left; reflexivity|].
    match goal with |- context [stripEnd _ ?x] => set (w := x) end.
    assert (Hw : startsWith (js "/") w = true).
    { subst w. destruct (startsWith (js "/") (c :: raw)) eqn:E; [exact E|reflexivity]. }
    clearbody w.
    destruct (str_eqb (stripEnd (N.eqb 47) w) (js "/")); [left; reflexivity|].
    pose proof (stripEnd_head (N.eqb 47) w) as H.
    destruct (stripEnd (N.eqb 47) w) as [|d r]; [left; reflexivity|]. right.
    destruct w as [|e w']; [discriminate|]. cbn in H. injection H as ->.
    cbn in Hw |- *. exact Hw.
  - destruct (str_eqb (c :: raw) (js "/")); [reflexivity|].
    match goal with |- context [stripEnd _ ?w] => set (s := stripEnd (N.eqb 47) w);
      pose proof (stripEnd_end (N.eqb 47) w) as H; fold s in H end.
    destruct (str_eqb s (js "/")); [reflexivity|].
    rewrite endsWith_slash. exact H.
  - rewrite endsWith_slash. apply stripEnd_end.
Qed.

End BasePaths.

End WithHost.

(* ================================================================== *)
(** ** Examples, witnesses and counterexamples *)

#[local] Existing Instance manilaHost.
#[local] Open Scope Z_scope.

(** The end-to-end scenario of the specification, for the year 2024. *)
Example scenario_2024 :
  map (fun b => (month b, deposit b, withdraw b, dividends b))
      (firstn 3 (computeMonthlyCashflow scenarioRows (Some 2024) None))
  = [ (js "Jan", 10000%float, 0%float, 0%float);
      (js "Feb", 0%float, 0%float, 250%float);
      (js "Mar", 0%float, 0%float, 0%float) ]
  /\ computeCashflowTotals (computeMonthlyCashflow scenarioRows (Some 2024) None)
     = mkTotals 10000 0 250.
Proof. split; vm_compute; reflexivity. Qed.

(** C1, at a row with both a credit and a debit: one round adds the credit
    to the deposits and the debit to the withdrawals. *)
Lemma cashflow_first_match_wins_witness :
  classifyRow bothSidesRow = Deposit
  /\ contribute (initMonthRow 0) (contributionOf bothSidesRow)
     = mkMonthRow (js "Jan") 10000 40 0
  /\ computeMonthlyCashflow [bothSidesRow] None None = [mkMonthRow (js "Jan") 10000 40 0]
  /\ computeMonthlyCashflow [longSTrade] None None = [mkMonthRow (js "Jan") 0 0 0]
  /\ computeMonthlyCashflow [longSDeposit] None None = [mkMonthRow (js "Jan") 500 0 0].
Proof.
  assert (Hc : classifyRow bothSidesRow = Deposit) by (vm_compute; reflexivity).
  split; [exact Hc|]. split; [|repeat split; vm_compute; reflexivity].
  destruct (cashflow_first_match_wins None (js "DATE") [] [] bothSidesRow (initMonthRow 0))
    as (_ & _ & _ & _ & Hdeposit & _).
  rewrite (Hdeposit Hc). vm_compute. reflexivity.
Defined.

(** C2: the worksheet adapter and the delimited-text adapter keep the sign
    of an amount in parentheses. *)
Lemma worksheet_debit_is_negative :
  match parseLedgerRowsFromWorksheet (sheetPreamble ++ sheetHeader :: sheetData) with
  | Ok [row] => getProp row (js "PHP_DEBIT") = JNum (-1234.56)%float
                /\ ((-1234.56) <? 0)%float = true
                /\ ~ nonNegative (getProp row (js "PHP_DEBIT"))
  | _ => False
  end
  /\ match loadFmsecLedgerRowsFromCsvText (JStr csvParenthesized) with
     | Ok [row] => getProp row (js "PHP_DEBIT") = JNum (-1234.56)%float
     | _ => False
     end.
Proof.
  split; vm_compute; [|reflexivity]. split; [reflexivity|]. split; [reflexivity|].
  intros [x [Hx Hle]]. injection Hx as <-. vm_compute in Hle. discriminate.
Qed.

(** C2, at a statement of one block: its row has a credit of 1000 from the
    amount printed in parentheses, and a debit of zero. *)
Lemma statement_amounts_nonnegative_witness :
  exists rows row,
    parseFmsecLedgerRowsFromPdfText
      (JStr (join [10%N] (statementHead ++ blockDeposit ++ endingBanner :: afterBanner)))
    = Ok rows
    /\ In row rows
    /\ nonNegative (getProp row (js "PHP_DEBIT"))
    /\ nonNegative (getProp row (js "PHP_CREDIT")).
Proof.
  pose (rows := statementRows (statementHead ++ blockDeposit)).
  assert (E : parseFmsecLedgerRowsFromPdfText
                (JStr (join [10%N]
                         (statementHead ++ blockDeposit ++ endingBanner :: afterBanner)))
              = Ok rows) by (vm_compute; reflexivity).
  assert (Hin : In (hd [] rows) rows) by (vm_compute; left; reflexivity).
  exists rows, (hd [] rows). split; [exact E|]. split; [exact Hin|].
  exact (proj1 statement_amounts_nonnegative _ _ _ E Hin).
Defined.



(** C4, at a block whose currency line has three tokens, whose row is a
    deposit of the movement, and at a block with no currency line. *)
Lemma movement_extraction_witness :
  movementSpec blockDeposit = Some 1000%float
  /\ (exists row,
        parseTransactionBlock blockDeposit None None = Some row
        /\ getProp row (js "PHP_DEBIT") = JNum 0
        /\ getProp row (js "PHP_CREDIT") = JNum 1000)
  /\ exists row,
       parseTransactionBlock blockNoAmount None None = Some row
       /\ movementSpec blockNoAmount = None
       /\ getProp row (js "PHP_DEBIT") = JNum zero
       /\ getProp row (js "PHP_CREDIT") = JNum zero.
Proof.
  destruct movement_extraction as (Hspec & _ & Hdeposit & _).
  split; [rewrite <- (proj1 (Hspec blockDeposit)); exact Hdeposit|].
  split.
  { destruct (parseTransactionBlock blockDeposit None None) as [row|] eqn:E;
      [|vm_compute in E; discriminate].
    exists row. split; [reflexivity|].
    vm_compute in E. injection E as <-. split; reflexivity. }
  destruct (parseTransactionBlock blockNoAmount None None) as [row|] eqn:E;
    [|vm_compute in E; discriminate].
  assert (Hn : movementSpec blockNoAmount = None) by (vm_compute; reflexivity).
  exists row. split; [reflexivity|]. split; [exact Hn|].
  exact (proj2 (Hspec blockNoAmount) None None row E Hn).
Defined.

(** C5: a pending block whose date has no such month is open when the banner
    arrives and does not reach the result. *)
Lemma pending_block_not_included :
  sc_currentBlock (scanLines (statementHead ++ blockDeposit ++ blockBadMonth) initialScan)
  = Some blockBadMonth
  /\ shouldEndTransactionSection endingBanner = true
  /\ map (fun r => getProp r (js "NUMBER"))
       (statementRows (statementHead ++ blockDeposit ++ blockBadMonth
                       ++ endingBanner :: afterBanner))
     = [JStr (js "1")]
  /\ parseFmsecLedgerRowsFromPdfText
       (JStr (join [10%N] (blockBadMonth ++ endingBanner :: afterBanner)))
     = Throw (js "No ledger rows found").
Proof. repeat split; vm_compute; reflexivity. Qed.

(** C5, at a statement whose banner follows a block of two lines: the block
    is in the result and the transaction after the banner is not. *)
Lemma section_end_stops_scan_witness :
  statementRows ((statementHead ++ blockDeposit) ++ endingBanner :: afterBanner)
  = statementRows (statementHead ++ blockDeposit)
  /\ List.length (statementRows (statementHead ++ blockDeposit)) = 1%nat.
Proof.
  split; [|vm_compute; reflexivity].
  apply (section_end_stops_scan (host := manilaHost) (statementHead ++ blockDeposit) endingBanner afterBanner
           blockDeposit); vm_compute; reflexivity.
Defined.

(** C6: a header line that starts with CD is not found by the delimited-text
    adapter when NUMBER and DATE do not follow. *)
Lemma csv_header_needs_exact_prefix :
  existsb (fun field => str_eqb (toUpperCase (trim field)) (js "CD"))
    (parseCsvLine (js "CD,DATE,PARTICULARS,PHP_DEBIT,PHP_CREDIT")) = true
  /\ loadFmsecLedgerRowsFromCsvText (JStr csvOtherHeader) = Throw headerNotFound.
Proof. split; vm_compute; reflexivity. Qed.

(** C6, at a worksheet with three rows of preamble before the header. *)
Lemma header_location_witness :
  parseLedgerRowsFromWorksheet (sheetPreamble ++ sheetHeader :: sheetData)
  = Ok (worksheetDataRows (map normalizeHeaderCell sheetHeader) sheetData)
  /\ List.length (worksheetDataRows (map normalizeHeaderCell sheetHeader) sheetData) = 1%nat.
Proof.
  split; [|vm_compute; reflexivity].
  apply (proj1 header_location); vm_compute; reflexivity.
Defined.

(** C7: the year zero is treated as no year. *)
Lemma year_zero_is_no_year :
  List.length (computeMonthlyCashflow scenarioRows (Some 0) None) = 2%nat
  /\ computeMonthlyCashflow [] (Some 0) None = [].
Proof. split; vm_compute; reflexivity. Qed.

(** C7, at the scenario for the year 2024: twelve buckets, January to
    December. *)
Lemma months_of_aggregation_witness :
  List.length (computeMonthlyCashflow scenarioRows (Some 2024) None) = 12%nat
  /\ map month (computeMonthlyCashflow scenarioRows (Some 2024) None) = MONTH_LABELS.
Proof.
  destruct (months_of_aggregation scenarioRows (Some 2024) None) as (Hyear & _).
  destruct (Hyear eq_refl) as (_ & Hlen & Hlabels). split; assumption.
Defined.

(** C9, at a file named in capitals. *)
Lemma loader_dispatch_and_schema_witness :
  loadFmsecLedgerRowsFromBuffer (JStr (js "ledger.2024.CSV")) (Some csvOtherHeader)
  = andValidate (loadFmsecLedgerRowsFromCsvText (JStr (utf8ToString csvOtherHeader)))
  /\ loadFmsecLedgerRowsFromBuffer (JStr (js "statement.pdf")) (Some csvOtherHeader)
     = Throw (js "Unsupported file type. Upload a .csv or .xlsx").
Proof.
  destruct loader_dispatch_and_schema as (_ & Hcsv & _ & Hother & _).
  split.
  - apply (Hcsv (JStr (js "ledger.2024.CSV"))). vm_compute. reflexivity.
  - apply (Hother (JStr (js "statement.pdf"))); vm_compute; reflexivity.
Defined.

(** C10: two finite dividends of 1e308 in one month sum to infinity, also
    when they come from a delimited text. *)
Lemma dividends_overflow :
  is_finite 1e308 = true
  /\ map dividends (firstn 1 (computeMonthlyCashflow [hugeDividend; hugeDividend]
                                (Some 2024) None)) = [infinity]
  /\ is_finite infinity = false
  /\ match loadFmsecLedgerRowsFromCsvText (JStr csvHugeDividends) with
     | Ok rows => map dividends (firstn 1 (computeMonthlyCashflow rows (Some 2024) None))
                  = [infinity]
     | Throw _ => False
     end.
Proof. repeat split; vm_compute; reflexivity. Qed.

(** C10, at contributions of NaN, of infinity and of [null]: the field
    stays as it was. *)
Lemma buckets_never_nan_witness :
  addedTo 5 (JNum nan) = 5%float /\ addedTo 5 (JNum infinity) = 5%float
  /\ addedTo 5 JNull = 5%float.
Proof.
  destruct (buckets_never_nan [] None None) as (_ & Hskip & _).
  split; [|split]; apply Hskip; [right|right|left]; reflexivity.
Defined.

Lemma parseCsvLine_unquoted_witness :
  join (js ",") (parseCsvLine (js "OR,7/3/2024,,100")) = js "OR,7/3/2024,,100"
  /\ Forall (fun cell => existsb (N.eqb 44) cell = false) (parseCsvLine (js "OR,7/3/2024,,100"))
  /\ List.length (parseCsvLine (js "OR,7/3/2024,,100")) = 4%nat.
Proof. apply (parseCsvLine_unquoted (js "OR,7/3/2024,,100")). reflexivity. Defined.

Lemma normalizeHeaderCell_idempotent_witness :
  normalizeHeaderCell (JStr (normalizeHeaderCell (JStr (js "No. of Shares"))))
  = normalizeHeaderCell (JStr (js "No. of Shares")).
Proof.
  apply (normalizeHeaderCell_idempotent (host := manilaHost) (JStr (js "No. of Shares"))).
  vm_compute. reflexivity.
Defined.

Lemma parseCsvLine_unclosed_quote_witness :
  parseCsvLine (js "OR,1," ++ [34%N] ++ js "FUTURE, TRANSACTION,100") 
  = [js "OR"; js "1"; js "FUTURE, TRANSACTION,100"].
Proof.
  apply (parseCsvLine_unclosed_quote (js "OR,1,") (js "FUTURE, TRANSACTION,100")); reflexivity.
Defined.

Lemma serial_date_noon_witness :
  exists day,
    DateAt 1705406400000 = DateAt (day * msPerDay + 43200000)
    /\ daysFromCivil 1900 1 1 <= day <= daysFromCivil 10000 1 1 + 3
    /\ ((forall t, LocalTime (UTC t) = t) -> day <= daysFromCivil 10000 1 1).
Proof.
  apply (serial_date_noon (host := manilaHost) 45307 (DateAt 1705406400000)). vm_compute. reflexivity.
Defined.

Lemma parsePdfDate_day_witness :
  exists month day year t,
    pdfDateShape (trim (js "02/31/2024")) = Some (month, day, year)
    /\ DateAt 1709380800000 = DateAt t
    /\ t = daysFromCivil (centuryYear year) month day * msPerDay + 43200000
    /\ (day <= daysInMonth (centuryYear year) (month - 1) ->
        utcFields t = (centuryYear year, month, day))
    /\ (daysInMonth (centuryYear year) (month - 1) < day ->
        utcFields t
        = (fst (nextMonth (centuryYear year) month), snd (nextMonth (centuryYear year) month),
           day - daysInMonth (centuryYear year) (month - 1))).
Proof.
  apply (parsePdfDate_day (js "02/31/2024") (DateAt 1709380800000)). vm_compute. reflexivity.
Defined.

Lemma parsePdfDate_local_month_witness :
  getFullYear 1705406400000 = centuryYear 2024 /\ getMonth 1705406400000 = 1 - 1
  /\ getDate 1705406400000 = 16.
Proof.
  apply (parsePdfDate_local_month (host := manilaHost) (js "01/16/2024") 1705406400000 1 16 2024).
  - cbn. lia.
  - vm_compute. reflexivity.
  - vm_compute. reflexivity.
  - vm_compute. discriminate.
Defined.

Lemma statement_rows_dated_witness :
  exists t cd,
    getProp (hd [] (statementRows (statementHead ++ blockDeposit))) (js "DATE") = JDate (DateAt t)
    /\ getProp (hd [] (statementRows (statementHead ++ blockDeposit))) (js "CD") = JStr cd
    /\ cd <> []
    /\ rowMonth None (js "DATE") (hd [] (statementRows (statementHead ++ blockDeposit)))
       = Some (getMonth t).
Proof.
  apply (statement_rows_dated (host := manilaHost) (JStr (join [10%N] (statementHead ++ blockDeposit)))
           (statementRows (statementHead ++ blockDeposit))).
  - vm_compute. reflexivity.
  - vm_compute. left. reflexivity.
Defined.

Lemma getExtension_of_suffix_witness :
  getExtension (JStr (js "ledger.2024" ++ [46%N] ++ js "CSV")) = js "csv".
Proof. apply (getExtension_of_suffix (host := manilaHost) (js "ledger.2024") (js "CSV")). reflexivity. Defined.

Lemma getExtension_shape_witness : getExtension (JStr (js "README")) = [].
Proof. apply (proj2 getExtension_shape (js "README")). reflexivity. Defined.

Lemma resolveSheetName_member_witness :
  In (js "Ledger") [js "Summary"; js "Ledger"].
Proof.
  apply (resolveSheetName_member (host := manilaHost) [js "Summary"; js "Ledger"] (JNum 1) (js "Ledger")).
  vm_compute. reflexivity.
Defined.

Lemma statement_rows_one_sided_witness :
  exists d c,
    getProp (hd [] (statementRows (statementHead ++ blockDeposit))) (js "PHP_DEBIT") = JNum d
    /\ getProp (hd [] (statementRows (statementHead ++ blockDeposit))) (js "PHP_CREDIT") = JNum c
    /\ is_finite d = true /\ is_finite c = true
    /\ (d = zero \/ c = zero).
Proof.
  apply (statement_rows_one_sided (host := manilaHost) (JStr (join [10%N] (statementHead ++ blockDeposit)))
           (statementRows (statementHead ++ blockDeposit))).
  - vm_compute. reflexivity.
  - vm_compute. left. reflexivity.
Defined.

Lemma report_not_negative_witness :
  Forall bucketNotNegative (fst (buildCashflowReportModelFromRows scenarioRows None))
  /\ notNegative (t_deposit (snd (buildCashflowReportModelFromRows scenarioRows None)))
  /\ notNegative (t_withdraw (snd (buildCashflowReportModelFromRows scenarioRows None)))
  /\ notNegative (t_dividends (snd (buildCashflowReportModelFromRows scenarioRows None))).
Proof.
  apply (report_not_negative (host := manilaHost) scenarioRows None).
  intros row [<-|[<-|[<-|[]]]]; split; intros x H; vm_compute in H;
    try discriminate; injection H as <-; reflexivity.
Defined.

Lemma statement_report_not_negative_witness :
  Forall bucketNotNegative
    (fst (buildCashflowReportModelFromRows (statementRows (statementHead ++ blockDeposit)) None))
  /\ notNegative (t_deposit (snd (buildCashflowReportModelFromRows
                                    (statementRows (statementHead ++ blockDeposit)) None)))
  /\ notNegative (t_withdraw (snd (buildCashflowReportModelFromRows
                                     (statementRows (statementHead ++ blockDeposit)) None)))
  /\ notNegative (t_dividends (snd (buildCashflowReportModelFromRows
                                      (statementRows (statementHead ++ blockDeposit)) None))).
Proof.
  apply (statement_report_not_negative (host := manilaHost) (JStr (join [10%N] (statementHead ++ blockDeposit)))).
  vm_compute. reflexivity.
Defined.

Lemma row_object_last_column_wins_witness :
  (~ In (js "DATE") [js "CD"] ->
   getProp (buildRowObject ([js "DATE"] ++ js "DATE" :: [js "CD"])
              [JStr (js "a"); JStr (js "b"); JStr (js "c")] []) (js "DATE")
   = nth (List.length [js "DATE"]) [JStr (js "a"); JStr (js "b"); JStr (js "c")] JUndefined)
  /\ (~ In (js "DATE") [js "DATE"] -> ~ In (js "DATE") [js "CD"] ->
      getProp (buildRowObject ([js "DATE"] ++ [js "CD"])
                 [JStr (js "a"); JStr (js "b"); JStr (js "c")] []) (js "DATE") = JUndefined).
Proof.
  apply (row_object_last_column_wins [js "DATE"] [js "CD"] (js "DATE")). discriminate.
Defined.
